(** * Mira voice relay: a shallow embedding of the voice WebSocket handler

    Sources embedded here:
    - [backend/config.py]                       (plan limits)
    - [backend/services/firestore_service.py]   (subscription, usage and
                                                 conversation documents)
    - [backend/middleware/auth.py]              (verify_ws_token)
    - [backend/services/coach_prompts.py]       (is_built_in, get_coach_voice)
    - [backend/routers/voice.py]                (voice_session)

    Conventions.
    - Python [str] is a Rocq [string]; a character is a code point below 256.
    - Python [float] minutes and seconds are exact rationals ([Q]); rounding
      error, NaN and infinities of IEEE arithmetic are outside the model.
    - A Firestore document is a record whose fields are [option]s: [None] is
      an absent key, as seen through [dict.get].
    - The handler runs in a state monad over the document store and an
      event trace; everything the handler cannot decide by itself (token
      verification, the upstream service, the wall clock, the order in which
      the event loop resumes the relay tasks) is read from an [Env].
    - Connections are handled one after the other: nobody else writes to the
      store while a handler runs, and a relay task runs one pass of its loop
      at a time. *)

From Stdlib Require Import QArith Qround ZArith String Ascii List Bool Lia Lqa.
From stdpp Require Import base option gmap strings list.

Import ListNotations.
Local Open Scope string_scope.
Local Open Scope list_scope.

(** ** backend/config.py *)

Module config.
Definition VOICE_MONTHLY_MINUTES_LIMIT : Q := 60.
Definition VOICE_SESSION_MAX_MINUTES : Q := 30.
End config.

(** ** Python built-ins used by the handler *)

Module Py.

(** [x >= y] on numbers. *)
Definition ge (x y : Q) : bool := Qle_bool y x.
(** [x <= y] on numbers. *)
Definition le (x y : Q) : bool := Qle_bool x y.

(** Round to the nearest integer, ties to the even one. *)
Definition round_half_even (x : Q) : Z :=
  let f := Qfloor x in
  match Qcompare (x - inject_Z f) (1 # 2) with
  | Lt => f
  | Gt => (f + 1)%Z
  | Eq => if Z.even f then f else (f + 1)%Z
  end.

(** [round(x, ndigits)]. *)
Definition round (x : Q) (ndigits : nat) : Q :=
  let scale := Pos.pow 10 (Pos.of_nat ndigits) in
  match ndigits with
  | O => inject_Z (round_half_even x)
  | S _ => Qmake (round_half_even (x * inject_Z (Zpos scale))) scale
  end.

(** [str.isspace] on one code point below 256. *)
Definition isspace (c : ascii) : bool :=
  let n := nat_of_ascii c in
  ((9 <=? n)%nat && (n <=? 13)%nat) || ((28 <=? n)%nat && (n <=? 32)%nat)
  || (n =? 133)%nat || (n =? 160)%nat.

(** Truth value of [s.strip()]: some character of [s] is not white space. *)
Fixpoint strip_truthy (s : string) : bool :=
  match s with
  | EmptyString => false
  | String c rest => negb (isspace c) || strip_truthy rest
  end.

(** Truth value of a string: it is not empty. *)
Definition truthy (s : string) : bool :=
  match s with EmptyString => false | String _ _ => true end.

(** [s[:n]]. *)
Definition prefix (n : nat) (s : string) : string := substring 0 n s.

(** [s.lstrip(chars)] and [s.rstrip(chars)], the characters to remove
    given by a predicate. *)
Fixpoint lstrip_by (p : ascii -> bool) (s : string) : string :=
  match s with
  | EmptyString => EmptyString
  | String c rest => if p c then lstrip_by p rest else s
  end.

Fixpoint rstrip_by (p : ascii -> bool) (s : string) : string :=
  match s with
  | EmptyString => EmptyString
  | String c rest =>
      match rstrip_by p rest with
      | EmptyString => if p c then EmptyString else String c EmptyString
      | stripped => String c stripped
      end
  end.

(** [s.strip()] *)
Definition strip (s : string) : string :=
  rstrip_by isspace (lstrip_by isspace s).

(** [s.strip(c)] for a single character [c]. *)
Definition strip_char (c : ascii) (s : string) : string :=
  rstrip_by (Ascii.eqb c) (lstrip_by (Ascii.eqb c) s).

(** [sep.join(lines)] *)
Fixpoint join (sep : string) (lines : list string) : string :=
  match lines with
  | [] => ""
  | [line] => line
  | line :: rest => line +:+ sep +:+ join sep rest
  end.

End Py.

(** ** backend/services/firestore_service.py *)

Module FirestoreService.

(** One element of the [sessions] array of a [voice_usage] document. *)
Record SessionEntry := mkSessionEntry {
  sessionId : string;
  duration : Q;
  date : string
}.

(** [voice_usage/{uid}] *)
Record VoiceUsage := mkVoiceUsage {
  monthlyMinutes : option Q;
  sessions : option (list SessionEntry);
  month : option string
}.

(** [users/{uid}/subscription/data] *)
Record Subscription := mkSubscription {
  plan : option string;
  freeVoiceTrialUsed : option bool;
  dailyMessageCount : option Z;
  lastMessageDate : option string
}.

(** The [metadata] map of [conversations/{id}]. *)
Record Metadata := mkMetadata {
  userId : option string;
  coachId : option string;
  coachName : option string;
  type : option string;
  title : option string;
  createdAt : option string;
  updatedAt : option string;
  messageCount : option Z;
  lastMessagePreview : option string;
  actionStatus : option string
}.

(** [conversations/{id}] (the [report] field is not touched by the voice
    path and is left out). *)
Record Conversation := mkConversation {
  metadata : option Metadata
}.

(** [conversations/{id}/messages/{auto-id}] *)
Record Message := mkMessage {
  role : string;
  content : string;
  timestamp : string
}.

(** [coaches/{id}]; a stored coach is taken to have some field, so that
    the dictionary read from it is true in a condition. *)
Record Coach := mkCoach {
  systemPrompt : option string;
  name : option string
}.

(** The collections read or written on the voice path. The messages of a
    conversation are kept in insertion order; a message can be stored
    under a conversation id that has no document. *)
Record Db := mkDb {
  subscription : gmap string Subscription;
  about_me : gmap string string;
  voice_usage : gmap string VoiceUsage;
  conversations : gmap string Conversation;
  messages : gmap string (list Message);
  coaches : gmap string Coach
}.

Definition empty : Db := mkDb ∅ ∅ ∅ ∅ ∅ ∅.

Definition with_subscription (db : Db) (m : gmap string Subscription) : Db :=
  mkDb m (about_me db) (voice_usage db) (conversations db) (messages db) (coaches db).
Definition with_voice_usage (db : Db) (m : gmap string VoiceUsage) : Db :=
  mkDb (subscription db) (about_me db) m (conversations db) (messages db) (coaches db).
Definition with_conversations (db : Db) (m : gmap string Conversation) : Db :=
  mkDb (subscription db) (about_me db) (voice_usage db) m (messages db) (coaches db).
Definition with_messages (db : Db) (m : gmap string (list Message)) : Db :=
  mkDb (subscription db) (about_me db) (voice_usage db) (conversations db) m (coaches db).
Definition with_about_me (db : Db) (m : gmap string string) : Db :=
  mkDb (subscription db) m (voice_usage db) (conversations db) (messages db) (coaches db).

(** *** About Me *)

Definition get_about_me (db : Db) (uid : string) : string :=
  match about_me db !! uid with
  | Some free_text => free_text
  | None => ""
  end.

Definition update_about_me (db : Db) (uid free_text : string) : Db :=
  with_about_me db (<[uid := free_text]> (about_me db)).

(** *** Subscription *)

(** The dictionary returned by [get_subscription]: the stored document,
    or [{"plan": "free"}]. *)
Definition get_subscription (db : Db) (uid : string) : Subscription :=
  match subscription db !! uid with
  | Some d => d
  | None => mkSubscription (Some "free") None None None
  end.

(** [doc.set(fields, merge=True)] on a subscription document. *)
Definition set_merge_subscription (db : Db) (uid : string)
    (f : Subscription -> Subscription) : Db :=
  let old := match subscription db !! uid with
             | Some d => d
             | None => mkSubscription None None None None
             end in
  with_subscription db (<[uid := f old]> (subscription db)).

Definition update_subscription (db : Db) (uid plan' : string) : Db :=
  set_merge_subscription db uid (fun d =>
    mkSubscription (Some plan') (freeVoiceTrialUsed d)
                   (dailyMessageCount d) (lastMessageDate d)).

(** *** Rate limiting *)

Definition get_daily_message_count (db : Db) (uid today : string) : Z :=
  match subscription db !! uid with
  | None => 0%Z
  | Some data =>
      if decide (lastMessageDate data = Some today)
      then default 0%Z (dailyMessageCount data)
      else 0%Z
  end.

Definition increment_daily_message_count (db : Db) (uid today : string) : Db :=
  let count :=
    match subscription db !! uid with
    | Some d =>
        if decide (lastMessageDate d = Some today)
        then (default 0 (dailyMessageCount d) + 1)%Z
        else 1%Z
    | None => 1%Z
    end in
  set_merge_subscription db uid (fun d =>
    mkSubscription (plan d) (freeVoiceTrialUsed d) (Some count) (Some today)).

Definition is_voice_trial_used (db : Db) (uid : string) : bool :=
  match subscription db !! uid with
  | Some d => default false (freeVoiceTrialUsed d)
  | None => false
  end.

Definition mark_voice_trial_used (db : Db) (uid : string) : Db :=
  set_merge_subscription db uid (fun d =>
    mkSubscription (plan d) (Some true) (dailyMessageCount d) (lastMessageDate d)).

(** *** Voice usage *)

(** [get_voice_usage]; [current_month] is [_current_month_key()]. *)
Definition get_voice_usage (db : Db) (uid current_month : string) : VoiceUsage :=
  match voice_usage db !! uid with
  | Some data =>
      if decide (month data = Some current_month)
      then data
      else mkVoiceUsage (Some 0%Q) (Some []) (Some current_month)
  | None => mkVoiceUsage (Some 0%Q) (Some []) (Some current_month)
  end.

(** [update_voice_usage]; [current_month] is [_current_month_key()] and
    [now] is [datetime.utcnow().isoformat()]. *)
Definition update_voice_usage (db : Db) (uid : string) (duration_minutes : Q)
    (session_id current_month now : string) : Db :=
  let session_entry := mkSessionEntry session_id (Py.round duration_minutes 2) now in
  match voice_usage db !! uid with
  | Some data =>
      if decide (month data = Some current_month)
      then
        let current_minutes := default 0%Q (monthlyMinutes data) in
        let sessions' := default [] (sessions data) ++ [session_entry] in
        with_voice_usage db
          (<[uid := mkVoiceUsage (Some (current_minutes + duration_minutes)%Q)
                                 (Some sessions') (month data)]> (voice_usage db))
      else
        with_voice_usage db
          (<[uid := mkVoiceUsage (Some duration_minutes) (Some [session_entry])
                                 (Some current_month)]> (voice_usage db))
  | None =>
      with_voice_usage db
        (<[uid := mkVoiceUsage (Some duration_minutes) (Some [session_entry])
                               (Some current_month)]> (voice_usage db))
  end.

(** *** Conversations *)

Definition conversation_exists (db : Db) (conversation_id : string) : bool :=
  bool_decide (is_Some (conversations db !! conversation_id)).

Definition get_conversation_owner (db : Db) (conversation_id : string)
    : option string :=
  match conversations db !! conversation_id with
  | None => None
  | Some data =>
      match metadata data with
      | Some md => userId md
      | None => None
      end
  end.

Definition create_conversation (db : Db)
    (conversation_id user_id coach_id coach_name conv_type now : string) : Db :=
  with_conversations db
    (<[conversation_id := mkConversation (Some
         (mkMetadata (Some user_id) (Some coach_id) (Some coach_name)
            (Some conv_type) (Some "New conversation") (Some now) (Some now)
            (Some 0%Z) (Some "") (Some "not_started")))]> (conversations db)).

(** [doc.update] with dotted paths creates the [metadata] map when the
    document has none. *)
Definition update_metadata (f : Metadata -> Metadata) (c : Conversation)
    : Conversation :=
  let md := match metadata c with
            | Some md => md
            | None => mkMetadata None None None None None None None None None None
            end in
  mkConversation (Some (f md)).

Definition add_message (db : Db) (conversation_id role' content' now : string)
    : Db :=
  let db1 :=
    with_messages db
      (<[conversation_id :=
           default [] (messages db !! conversation_id)
             ++ [mkMessage role' content' now]]> (messages db)) in
  let preview := if Py.truthy content' then Py.prefix 100 content' else "" in
  match conversations db1 !! conversation_id with
  | Some c =>
      let count :=
        (default 0 (match metadata c with
                    | Some md => messageCount md
                    | None => None
                    end) + 1)%Z in
      with_conversations db1
        (<[conversation_id := update_metadata (fun md =>
             mkMetadata (userId md) (coachId md) (coachName md) (type md)
               (title md) (createdAt md) (Some now) (Some count)
               (Some preview) (actionStatus md)) c]> (conversations db1))
  | None => db1
  end.

(** [doc.update] raises [NotFound] when the document does not exist. *)
Definition update_conversation_title (db : Db) (conversation_id title' : string)
    : option Db :=
  match conversations db !! conversation_id with
  | Some c =>
      Some (with_conversations db
        (<[conversation_id := update_metadata (fun md =>
             mkMetadata (userId md) (coachId md) (coachName md) (type md)
               (Some title') (createdAt md) (updatedAt md) (messageCount md)
               (lastMessagePreview md) (actionStatus md)) c]> (conversations db)))
  | None => None
  end.

(** The number of documents [get_messages(conversation_id, limit)]
    returns: the query is limited to [limit] messages. *)
Definition get_messages_len (db : Db) (conversation_id : string) (limit : nat)
    : nat :=
  Nat.min limit (length (default [] (messages db !! conversation_id))).

Definition update_action_status (db : Db) (conversation_id action_status : string)
    : option Db :=
  match conversations db !! conversation_id with
  | Some c =>
      Some (with_conversations db
        (<[conversation_id := update_metadata (fun md =>
             mkMetadata (userId md) (coachId md) (coachName md) (type md)
               (title md) (createdAt md) (updatedAt md) (messageCount md)
               (lastMessagePreview md) (Some action_status)) c]> (conversations db)))
  | None => None
  end.

(** The messages of the conversation are deleted, then its document. *)
Definition delete_conversation (db : Db) (conversation_id : string) : Db :=
  with_conversations
    (with_messages db (delete conversation_id (messages db)))
    (delete conversation_id (conversations db)).

(** *** Coaches *)

Definition get_coach (db : Db) (coach_id : string) : option Coach :=
  coaches db !! coach_id.

End FirestoreService.

(** ** Effects of the handler: sockets, log, store writes *)

(** Exception classes that occur on the voice path. *)
Inductive Exn :=
| TimeoutError          (* asyncio.TimeoutError *)
| ConnectionClosed      (* websockets.exceptions.ConnectionClosed *)
| WebSocketDisconnect   (* fastapi.WebSocketDisconnect *)
| JSONDecodeError
| KeyError
| HTTPException
| NotFound              (* google.api_core.exceptions.NotFound *)
| CancelledError        (* asyncio.CancelledError, a BaseException *)
| OtherError (cls : string).

(** [type(e).__name__] *)
Definition type_name (e : Exn) : string :=
  match e with
  | TimeoutError => "TimeoutError"
  | ConnectionClosed => "ConnectionClosed"
  | WebSocketDisconnect => "WebSocketDisconnect"
  | JSONDecodeError => "JSONDecodeError"
  | KeyError => "KeyError"
  | HTTPException => "HTTPException"
  | NotFound => "NotFound"
  | CancelledError => "CancelledError"
  | OtherError cls => cls
  end.

(** Server to client frames (the argument of [websocket.send_json]). *)
Inductive Frame :=
| audio (data : string)
| transcript (role text : string)
| turn_complete
| ping
| error (message : string)
| session_ended (duration_minutes : Q).

(** Frames sent to the upstream service (the argument of [gemini_ws.send]). *)
Inductive UpstreamFrame :=
| setup (system_prompt voice_name : string)
| realtime_input (data : string).

Inductive Level := INFO | WARNING | ERROR.

(** Calls that write to the document store. *)
Inductive Write :=
| mark_voice_trial_used (uid : string)
| create_conversation (conversation_id user_id coach_id coach_name : string)
| add_message (conversation_id role content : string)
| update_conversation_title (conversation_id title : string)
| update_voice_usage (uid : string) (duration_minutes : Q) (session_id : string).

(** What the handler does to the outside world, in order.  Sends and
    closes on either socket return normally in this model, so a
    [WsSendJson] is a frame the client receives. *)
Inductive Event :=
| WsAccept
| WsSendJson (f : Frame)
| WsClose
| GoogleAccessToken
| GeminiConnect
| GeminiSend (f : UpstreamFrame)
| GeminiClose
| Log (lvl : Level) (key : string)
| Firestore (w : Write).

(** How a computation ends: with a value, by the handler's [return], or
    with an exception. *)
Inductive Outcome (A : Type) :=
| Value (a : A)
| Returned
| Raised (e : Exn).
Arguments Value {A} a.
Arguments Returned {A}.
Arguments Raised {A} e.

(** How a call to an outside service ends. *)
Inductive Try (A : Type) :=
| Returns (a : A)
| Raises (e : Exn).
Arguments Returns {A} a.
Arguments Raises {A} e.

(** How a REST handler ends: with its response, with
    [HTTPException(status_code, detail)], or with an exception nobody
    handles. *)
Inductive Http (A : Type) :=
| Responds (a : A)
| HTTPError (status_code : nat) (detail : string)
| Unhandled (e : Exn).
Arguments Responds {A} a.
Arguments HTTPError {A} status_code detail.
Arguments Unhandled {A} e.

(** State [S], event log, early return and exceptions. *)
Definition M (S A : Type) : Type := S -> Outcome A * S * list Event.

Definition ret {S A} (a : A) : M S A := fun s => (Value a, s, []).

Definition bind {S A B} (m : M S A) (k : A -> M S B) : M S B :=
  fun s =>
    match m s with
    | (Value a, s1, t1) =>
        match k a s1 with
        | (o, s2, t2) => (o, s2, t1 ++ t2)
        end
    | (Returned, s1, t1) => (Returned, s1, t1)
    | (Raised e, s1, t1) => (Raised e, s1, t1)
    end.

Notation "x <- c ;; k" := (bind c (fun x => k))
  (at level 100, c at next level, right associativity).
Notation "c ;;; k" := (bind c (fun _ => k))
  (at level 100, right associativity).

Definition return_ {S A} : M S A := fun s => (Returned, s, []).
Definition raise {S A} (e : Exn) : M S A := fun s => (Raised e, s, []).
Definition emit {S} (e : Event) : M S unit := fun s => (Value tt, s, [e]).
Definition gets {S A} (f : S -> A) : M S A := fun s => (Value (f s), s, []).
Definition modify {S} (f : S -> S) : M S unit := fun s => (Value tt, f s, []).

(** [if c: body] *)
Definition when {S} (c : bool) (body : M S unit) : M S unit :=
  if c then body else ret tt.

(** [try: body  except <catches> as e: handler e] *)
Definition try_except {S A} (body : M S A) (catches : Exn -> bool)
    (handler : Exn -> M S A) : M S A :=
  fun s =>
    match body s with
    | (Raised e, s1, t1) =>
        if catches e then
          match handler e s1 with
          | (o, s2, t2) => (o, s2, t1 ++ t2)
          end
        else (Raised e, s1, t1)
    | r => r
    end.

(** [try: body  except <c1>: h1  except <c2> as e: h2 e] *)
Definition try_except2 {S A} (body : M S A)
    (c1 : Exn -> bool) (h1 : Exn -> M S A)
    (c2 : Exn -> bool) (h2 : Exn -> M S A) : M S A :=
  try_except body (fun e => c1 e || c2 e) (fun e => if c1 e then h1 e else h2 e).

(** [except Exception]: every class of [Exn] but [CancelledError]. *)
Definition Exception (e : Exn) : bool :=
  match e with CancelledError => false | _ => true end.

(** [except BaseException] *)
Definition BaseException (e : Exn) : bool := true.

(** Run a computation over its own state [T] inside one over [S], keeping
    how it ended. *)
Definition nested {S T A} (m : M T A) (init : T) : M S (Outcome A * T) :=
  fun s => match m init with (o, t, tr) => (Value (o, t), s, tr) end.

(** [for x in xs: body x] *)
Fixpoint for_ {S A} (xs : list A) (body : A -> M S unit) : M S unit :=
  match xs with
  | [] => ret tt
  | x :: rest => body x ;;; for_ rest body
  end.

Definition send_json {S} (f : Frame) : M S unit := emit (WsSendJson f).
Definition logger {S} (lvl : Level) (key : string) : M S unit := emit (Log lvl key).

(** The frames the client receives, in order. *)
Definition frames (t : list Event) : list Frame :=
  omap (fun e => match e with WsSendJson f => Some f | _ => None end) t.

(** The store writes, in order. *)
Definition writes (t : list Event) : list Write :=
  omap (fun e => match e with Firestore w => Some w | _ => None end) t.

(** ** backend/models/schemas.py *)

Module schemas.
(** [AuthenticatedUser]; [email], [name] and [photo_url] are not read on
    the voice path and are left out. *)
Record AuthenticatedUser := mkAuthenticatedUser {
  uid : string;
  about_me : string;
  plan : string
}.
End schemas.

(** ** The [firestore = FirestoreService()] instance of the handler *)

Module firestore.

Definition get_about_me (uid : string) : M FirestoreService.Db string :=
  gets (fun db => FirestoreService.get_about_me db uid).
Definition get_subscription (uid : string)
    : M FirestoreService.Db FirestoreService.Subscription :=
  gets (fun db => FirestoreService.get_subscription db uid).
Definition is_voice_trial_used (uid : string) : M FirestoreService.Db bool :=
  gets (fun db => FirestoreService.is_voice_trial_used db uid).
Definition mark_voice_trial_used (uid : string) : M FirestoreService.Db unit :=
  emit (Firestore (mark_voice_trial_used uid)) ;;;
  modify (fun db => FirestoreService.mark_voice_trial_used db uid).
Definition get_voice_usage (uid current_month : string)
    : M FirestoreService.Db FirestoreService.VoiceUsage :=
  gets (fun db => FirestoreService.get_voice_usage db uid current_month).
Definition update_voice_usage (uid : string) (duration_minutes : Q)
    (session_id current_month now : string) : M FirestoreService.Db unit :=
  emit (Firestore (update_voice_usage uid duration_minutes session_id)) ;;;
  modify (fun db => FirestoreService.update_voice_usage db uid duration_minutes
                      session_id current_month now).
Definition get_coach (coach_id : string)
    : M FirestoreService.Db (option FirestoreService.Coach) :=
  gets (fun db => FirestoreService.get_coach db coach_id).
Definition conversation_exists (conversation_id : string)
    : M FirestoreService.Db bool :=
  gets (fun db => FirestoreService.conversation_exists db conversation_id).
Definition get_conversation_owner (conversation_id : string)
    : M FirestoreService.Db (option string) :=
  gets (fun db => FirestoreService.get_conversation_owner db conversation_id).
Definition create_conversation
    (conversation_id user_id coach_id coach_name conv_type now : string)
    : M FirestoreService.Db unit :=
  emit (Firestore (create_conversation conversation_id user_id coach_id
                     coach_name)) ;;;
  modify (fun db => FirestoreService.create_conversation db conversation_id
                      user_id coach_id coach_name conv_type now).
Definition add_message (conversation_id role content now : string)
    : M FirestoreService.Db unit :=
  emit (Firestore (add_message conversation_id role content)) ;;;
  modify (fun db => FirestoreService.add_message db conversation_id role content now).
Definition update_conversation_title (conversation_id title : string)
    : M FirestoreService.Db unit :=
  emit (Firestore (update_conversation_title conversation_id title)) ;;;
  db <- gets id ;;
  match FirestoreService.update_conversation_title db conversation_id title with
  | Some db' => modify (fun _ => db')
  | None => raise NotFound
  end.
End firestore.

(** ** backend/middleware/auth.py *)

Module auth.
Import schemas.

(** [_verify_token]; [verify_id_token] stands for
    [firebase_auth.verify_id_token]: the decoded [uid], or [None] when it
    raises (every such error is re-raised as an [HTTPException]). *)
Definition _verify_token (verify_id_token : string -> option string)
    (token : string) : M FirestoreService.Db AuthenticatedUser :=
  match verify_id_token token with
  | None => raise HTTPException
  | Some uid =>
      about_me <- firestore.get_about_me uid ;;
      subscription <- firestore.get_subscription uid ;;
      ret (mkAuthenticatedUser uid about_me
             (default "free" (FirestoreService.plan subscription)))
  end.

Definition verify_ws_token (verify_id_token : string -> option string)
    (token : option string) : M FirestoreService.Db AuthenticatedUser :=
  match token with
  | None => raise HTTPException
  | Some t =>
      if Py.truthy t then _verify_token verify_id_token t
      else raise HTTPException
  end.

(** [check_rate_limit]; [today] is [date.today().isoformat()]. *)
Definition check_rate_limit (user : AuthenticatedUser) (today : string)
    (db : FirestoreService.Db) : Http AuthenticatedUser :=
  if String.eqb (plan user) "pro" then Responds user
  else
    let count := FirestoreService.get_daily_message_count db (uid user) today in
    if (10 <=? count)%Z
    then HTTPError 429 "Daily limit reached. Upgrade to Pro for unlimited messages."
    else Responds user.
End auth.

(** ** backend/services/coach_prompts.py *)

Module coach_prompts.
(** The keys of [BUILT_IN_PROMPTS]. *)
Definition BUILT_IN : list string := ["mira"; "atlas"; "lyra"; "sol"; "ember"].

Definition is_built_in (coach_id : string) : bool :=
  bool_decide (coach_id ∈ BUILT_IN).

Definition COACH_NAMES : list (string * string) :=
  [("mira", "Mira"); ("atlas", "Atlas"); ("lyra", "Lyra");
   ("sol", "Sol"); ("ember", "Ember")].

Definition get_coach_name (coach_id : string) : string :=
  match find (fun kv => String.eqb (fst kv) coach_id) COACH_NAMES with
  | Some kv => snd kv
  | None => coach_id
  end.

Definition DEFAULT_VOICE : string := "Aoede".

Definition COACH_VOICES : list (string * string) :=
  [("mira", "Aoede"); ("atlas", "Charon"); ("lyra", "Puck");
   ("sol", "Kore"); ("ember", "Fenrir")].

Definition get_coach_voice (coach_id : string) : string :=
  match find (fun kv => String.eqb (fst kv) coach_id) COACH_VOICES with
  | Some kv => snd kv
  | None => DEFAULT_VOICE
  end.
End coach_prompts.

(** ** backend/services/gemini_service.py *)

Module gemini_service.

(** What [stream_chat_response] yields of the chunks of a response: the
    texts that are not empty ([None] is a chunk without text). *)
Definition stream_chat_response (response : list (option string)) : list string :=
  omap (fun text => match text with
                    | Some t => if Py.truthy t then Some t else None
                    | None => None
                    end) response.

Definition dquote : ascii := ascii_of_nat 34.

(** The title cut out of a reply: white space stripped, then double
    quotes at both ends, then the first 50 characters. *)
Definition clean_title (title : string) : string :=
  Py.prefix 50 (Py.strip_char dquote (Py.strip title)).

(** [generate_conversation_title]; [generate_content system_prompt
    user_prompt temperature max_tokens] stands for the call of the model,
    which returns a text or raises. *)
Definition generate_conversation_title
    (generate_content : string -> string -> Q -> nat -> Try string)
    (first_message : string) : Try string :=
  match generate_content "You generate short conversation titles."
          ("Generate a concise 3-6 word title for a coaching conversation that starts with this message. Return ONLY the title, nothing else:

" +:+ String dquote first_message +:+ String dquote "")
          (3 # 10) 20 with
  | Returns title => Returns (clean_title title)
  | Raises e => if Exception e then Returns "New conversation" else Raises e
  end.

(** The line of one turn of the brief transcript. *)
Definition transcript_line (turn : string * string) : string :=
  (if String.eqb (fst turn) "user" then "User" else "Coach") +:+ ": " +:+ snd turn.

(** The loop that collects [lines]; [total] is the length collected so
    far. *)
Fixpoint transcript_lines (transcripts : list (string * string)) (total : nat)
    : list string :=
  match transcripts with
  | [] => []
  | turn :: rest =>
      let line := transcript_line turn in
      if (800 <? total + String.length line)%nat then []
      else line :: transcript_lines rest (total + String.length line)
  end.

Definition generate_voice_session_title
    (generate_content : string -> string -> Q -> nat -> Try string)
    (transcripts : list (string * string)) : Try string :=
  let lines := transcript_lines transcripts 0 in
  if bool_decide (lines = []) then Returns "New conversation"
  else
    let transcript_text := Py.join (String (ascii_of_nat 10) "") lines in
    match generate_content "You generate short conversation titles."
            ("Generate a concise 3-6 word title that captures the main topic of this coaching conversation. Return ONLY the title, nothing else.

" +:+ transcript_text)
            (3 # 10) 20 with
    | Returns title => Returns (clean_title title)
    | Raises e => if Exception e then Returns "New conversation" else Raises e
    end.

End gemini_service.

(** ** backend/routers/voice.py *)

Module voice.
Import schemas.
Abbreviation Db := FirestoreService.Db.

(** *** Decoded JSON of the two sockets *)

(** One element of [modelTurn.parts]: [inlineData] is [None] when the key
    is absent, [Some None] when it is there without a [data] key. *)
Record Part := mkPart { inlineData : option (option string) }.

(** [serverContent]: a transcription is [None] when its key is absent and
    [Some t] when present, [t] being its [text] key; [turnComplete] is the
    truth value of [server_content.get("turnComplete")]. *)
Record ServerContent := mkServerContent {
  modelTurn : option (list Part);
  inputTranscription : option (option string);
  outputTranscription : option (option string);
  turnComplete : bool
}.

(** A decoded upstream message: its [serverContent] and the names of its
    other top-level keys. *)
Record UpstreamData := mkUpstreamData {
  serverContent : option ServerContent;
  other_keys : list string
}.

(** A decoded client message. *)
Record ClientData := mkClientData {
  type : option string;
  data : option string
}.

(** [json.loads]: [None] is a text that is not JSON. *)
Definition json_loads {S A} (msg : option A) : M S A :=
  match msg with
  | Some d => ret d
  | None => raise JSONDecodeError
  end.

(** *** The environment of one connection *)

(** What [async for msg in stream] is resumed with. *)
Inductive Resume (A : Type) :=
| Item (a : A)          (* the next message *)
| Exhausted             (* the iterator ends *)
| Throws (e : Exn).     (* the iterator raises *)
Arguments Item {A} a.
Arguments Exhausted {A}.
Arguments Throws {A} e.

(** One resumption of a relay task by the event loop.  An upstream message
    carries the reading of [time.time()] taken when it is processed. *)
Inductive RelayEvent :=
| Client (r : Resume (option ClientData))
| Gemini (r : Resume (option UpstreamData * Q))
| Tick.

(** Step 5: [get_google_access_token] raises, [websockets.connect] raises,
    or the upstream socket is open. *)
Inductive Connect :=
| TokenRaises (e : Exn)
| ConnectRaises (e : Exn)
| Connected.

(** What [gemini_ws.recv()] produces first: an exception, or a text with
    the top-level keys of its JSON object ([None]: not JSON). *)
Inductive Reply :=
| ReplyRaises (e : Exn)
| ReplyText (keys : option (list string)).

Record Env := mkEnv {
  (** [websocket.query_params] *)
  token : option string;
  coach_id_param : option string;
  (** [firebase_auth.verify_id_token] *)
  verify_id_token : string -> option string;
  (** [coach_prompts.build_coach_prompt coach_id about_me custom_prompt] *)
  build_coach_prompt : string -> string -> option string -> string;
  connect : Connect;
  (** The first reply of the upstream service and the seconds it takes to
      arrive after the setup frame; [None] when there is never one. *)
  first_reply : option (Q * Reply);
  (** [time.time()] when the relay starts and when it has ended. *)
  session_start : Q;
  session_end : Q;
  schedule : list RelayEvent;
  (** [gemini_service.generate_voice_session_title]: the title, or the
      exception that leaves it. *)
  generate_voice_session_title : list (string * string) -> Try string;
  (** [datetime.utcnow()] before the relay: month key and ISO text. *)
  month_at_start : string;
  now_at_start : string;
  (** [datetime.utcnow()] after the relay. *)
  month_at_end : string;
  now_at_end : string
}.

(** [asyncio.wait_for(gemini_ws.recv(), timeout)] *)
Definition wait_for_recv {S} (first_reply : option (Q * Reply)) (timeout : Q)
    : M S (option (list string)) :=
  match first_reply with
  | None => raise TimeoutError
  | Some (delay, reply) =>
      if Qle_bool timeout delay then raise TimeoutError
      else match reply with
           | ReplyRaises e => raise e
           | ReplyText keys => ret keys
           end
  end.

(** *** The relay: state shared by the three tasks *)

(** [session_active] and [transcript_turns] are the variables the nested
    functions close over; the counters are their locals; a [_done] flag
    says that the task has returned. *)
Record Relay := mkRelay {
  session_active : bool;
  transcript_turns : list (string * string);
  audio_chunks_received : nat;
  audio_chunks_sent : nat;
  client_to_gemini_done : bool;
  gemini_to_client_done : bool;
  keep_alive_done : bool
}.

Definition relay_start : Relay := mkRelay true [] 0 0 false false false.

Definition set_session_active (b : bool) (r : Relay) : Relay :=
  mkRelay b (transcript_turns r) (audio_chunks_received r) (audio_chunks_sent r)
    (client_to_gemini_done r) (gemini_to_client_done r) (keep_alive_done r).
Definition append_transcript (x : string * string) (r : Relay) : Relay :=
  mkRelay (session_active r) (transcript_turns r ++ [x]) (audio_chunks_received r)
    (audio_chunks_sent r) (client_to_gemini_done r) (gemini_to_client_done r)
    (keep_alive_done r).
Definition incr_received (r : Relay) : Relay :=
  mkRelay (session_active r) (transcript_turns r) (S (audio_chunks_received r))
    (audio_chunks_sent r) (client_to_gemini_done r) (gemini_to_client_done r)
    (keep_alive_done r).
Definition incr_sent (r : Relay) : Relay :=
  mkRelay (session_active r) (transcript_turns r) (audio_chunks_received r)
    (S (audio_chunks_sent r)) (client_to_gemini_done r) (gemini_to_client_done r)
    (keep_alive_done r).
Definition finish_client_to_gemini (r : Relay) : Relay :=
  mkRelay (session_active r) (transcript_turns r) (audio_chunks_received r)
    (audio_chunks_sent r) true (gemini_to_client_done r) (keep_alive_done r).
Definition finish_gemini_to_client (r : Relay) : Relay :=
  mkRelay (session_active r) (transcript_turns r) (audio_chunks_received r)
    (audio_chunks_sent r) (client_to_gemini_done r) true (keep_alive_done r).
Definition finish_keep_alive (r : Relay) : Relay :=
  mkRelay (session_active r) (transcript_turns r) (audio_chunks_received r)
    (audio_chunks_sent r) (client_to_gemini_done r) (gemini_to_client_done r) true.

(** How one pass through a loop body ends. *)
Inductive Loop := Continue | Break.

Definition FREE_VOICE_TRIAL_MINUTES : Q := 5.

Definition is_ConnectionClosed (e : Exn) : bool :=
  match e with ConnectionClosed => true | _ => false end.
Definition is_WebSocketDisconnect (e : Exn) : bool :=
  match e with WebSocketDisconnect => true | _ => false end.
Definition is_TimeoutError (e : Exn) : bool :=
  match e with TimeoutError => true | _ => false end.

Section tasks.
(** The variables of [voice_session] the nested functions read. *)
Variable user : AuthenticatedUser.
Variable session_start : Q.
Variable session_max_minutes : Q.

(** Body of the loop of [client_to_gemini]. *)
Definition client_to_gemini_body (msg : option ClientData) : M Relay Loop :=
  active <- gets session_active ;;
  if negb active then ret Break else
  data <- json_loads msg ;;
  match type data with
  | None => raise KeyError
  | Some ty =>
      if String.eqb ty "audio" then
        modify incr_received ;;;
        n <- gets audio_chunks_received ;;
        match voice.data data with
        | None => raise KeyError
        | Some payload =>
            when (n <=? 3)%nat (logger INFO "client_audio_chunk") ;;;
            emit (GeminiSend (realtime_input payload)) ;;;
            ret Continue
        end
      else if String.eqb ty "end_session" then
        modify (set_session_active false) ;;;
        ret Break
      else ret Continue
  end.

(** One resumption of [client_to_gemini]. *)
Definition client_to_gemini (r : Resume (option ClientData)) : M Relay unit :=
  try_except2
    (match r with
     | Item msg =>
         ctl <- client_to_gemini_body msg ;;
         match ctl with
         | Continue => ret tt
         | Break => modify finish_client_to_gemini
         end
     | Exhausted => modify finish_client_to_gemini
     | Throws e => raise e
     end)
    is_WebSocketDisconnect
    (fun _ => modify (set_session_active false) ;;;
              modify finish_client_to_gemini)
    Exception
    (fun e => logger ERROR "client_to_gemini_error" ;;;
              modify (set_session_active false) ;;;
              modify finish_client_to_gemini).

(** The message of the terminal frame sent when the time is up. *)
Definition time_limit_message : string :=
  if String.eqb (plan user) "free"
  then "Free voice session complete (5 minutes). Upgrade to Pro for unlimited sessions."
  else "Session time limit reached (30 minutes).".

(** Body of the loop of [gemini_to_client]; [now] is the reading of
    [time.time()] at the time-limit check. *)
Definition gemini_to_client_body (msg : option UpstreamData) (now : Q)
    : M Relay Loop :=
  active <- gets session_active ;;
  if negb active then ret Break else
  data <- json_loads msg ;;
  when (negb (bool_decide (is_Some (serverContent data)
                           ∧ other_keys data = [])))
       (logger INFO "gemini_msg_keys") ;;;
  let server_content :=
    default (mkServerContent None None None false) (serverContent data) in
  (* Forward audio response *)
  match modelTurn server_content with
  | Some parts =>
      for_ parts (fun part =>
        match inlineData part with
        | Some inline =>
            modify incr_sent ;;;
            n <- gets audio_chunks_sent ;;
            match inline with
            | None => raise KeyError
            | Some audio_data =>
                when (n <=? 5)%nat (logger INFO "forwarding_audio_chunk") ;;;
                send_json (audio audio_data)
            end
        | None => ret tt
        end)
  | None => ret tt
  end ;;;
  (* Forward transcripts and collect in order *)
  match inputTranscription server_content with
  | Some t =>
      let text := default "" t in
      when (Py.truthy text)
        (modify (append_transcript ("user", text)) ;;;
         send_json (transcript "user" text))
  | None => ret tt
  end ;;;
  match outputTranscription server_content with
  | Some t =>
      let text := default "" t in
      when (Py.truthy text)
        (modify (append_transcript ("assistant", text)) ;;;
         send_json (transcript "assistant" text))
  | None => ret tt
  end ;;;
  (* Forward turn complete signal *)
  when (turnComplete server_content)
    (logger INFO "turn_complete received from Gemini" ;;;
     send_json turn_complete) ;;;
  (* Check session time limit *)
  let elapsed := ((now - session_start) / 60)%Q in
  if Py.ge elapsed session_max_minutes then
    send_json (error time_limit_message) ;;;
    modify (set_session_active false) ;;;
    ret Break
  else
    (* Time warnings *)
    let remaining := (session_max_minutes - elapsed)%Q in
    (if String.eqb (plan user) "free"
        && (Py.le (9 # 10) remaining && Py.le remaining (11 # 10))
     then send_json (transcript "assistant"
                       "[1 minute remaining in your free session]")
     else if String.eqb (plan user) "pro"
             && (Py.le (49 # 10) remaining && Py.le remaining (51 # 10))
     then send_json (transcript "assistant" "[5 minutes remaining in session]")
     else ret tt) ;;;
    ret Continue.

(** One resumption of [gemini_to_client]. *)
Definition gemini_to_client (r : Resume (option UpstreamData * Q))
    : M Relay unit :=
  try_except2
    (match r with
     | Item (msg, now) =>
         ctl <- gemini_to_client_body msg now ;;
         match ctl with
         | Continue => ret tt
         | Break => modify finish_gemini_to_client
         end
     | Exhausted => modify finish_gemini_to_client
     | Throws e => raise e
     end)
    is_ConnectionClosed
    (fun _ => modify (set_session_active false) ;;;
              modify finish_gemini_to_client)
    Exception
    (fun e => logger ERROR "gemini_to_client_error" ;;;
              modify (set_session_active false) ;;;
              modify finish_gemini_to_client).

(** One resumption of [keep_alive]: the sleep of 30 seconds is over, the
    ping is sent and the loop condition is read again. *)
Definition keep_alive : M Relay unit :=
  send_json ping ;;;
  active <- gets session_active ;;
  when (negb active) (modify finish_keep_alive).

(** The event loop hands one event to the task it is for; events for a
    task that has returned are lost. *)
Definition resume (ev : RelayEvent) : M Relay unit :=
  match ev with
  | Client r =>
      finished <- gets client_to_gemini_done ;;
      if finished then ret tt else client_to_gemini r
  | Gemini r =>
      finished <- gets gemini_to_client_done ;;
      if finished then ret tt else gemini_to_client r
  | Tick =>
      finished <- gets keep_alive_done ;;
      if finished then ret tt else keep_alive
  end.

(** [asyncio.gather] of the three tasks: it returns when all of them
    have, and is cancelled when the schedule ends before that. *)
Fixpoint gather (schedule : list RelayEvent) : M Relay unit :=
  finished <- gets (fun r => client_to_gemini_done r
                             && gemini_to_client_done r
                             && keep_alive_done r) ;;
  if finished then ret tt
  else match schedule with
       | [] => raise CancelledError
       | ev :: rest => resume ev ;;; gather rest
       end.
End tasks.

(** *** [voice_session] *)

Definition quote : string := String (ascii_of_nat 34) EmptyString.

Definition voice_rules : string :=
  "

## Voice Mode Rules
- Keep responses to 2-3 sentences MAX (under 15 seconds of speech)
- Be more conversational, less structured
- Use natural filler words sparingly (" +:+ quote +:+ "hmm" +:+ quote +:+ ", "
  +:+ quote +:+ "right" +:+ quote +:+ ", " +:+ quote +:+ "I see" +:+ quote +:+ ")
- Don't use bullet points or numbered lists (speak naturally)
- React to emotional tone, not just words".

(** One step of the consolidation loop: [consolidated[-1]] is rewritten
    when it has the role of the fragment, else the fragment is appended. *)
Definition consolidate_step (consolidated : list (string * string))
    (fragment : string * string) : list (string * string) :=
  let '(role, text) := fragment in
  match last consolidated with
  | Some (last_role, last_text) =>
      if String.eqb last_role role
      then <[(length consolidated - 1)%nat := (role, last_text +:+ text)]> consolidated
      else consolidated ++ [(role, text)]
  | None => consolidated ++ [(role, text)]
  end.

(** The loop [for role, text in transcript_turns] that builds
    [consolidated]. *)
Definition consolidate (transcript_turns : list (string * string))
    : list (string * string) :=
  fold_left consolidate_step transcript_turns [].

(** 1. Auth. *)
Definition authenticate (env : Env) : M Db AuthenticatedUser :=
  try_except (auth.verify_ws_token (verify_id_token env) (token env))
    Exception
    (fun _ => send_json (error "Authentication failed") ;;;
              emit WsClose ;;;
              return_).

(** 2. Voice access check; the value is [session_max_minutes]. *)
Definition voice_access_check (env : Env) (user : AuthenticatedUser) : M Db Q :=
  (if String.eqb (plan user) "free" then
     trial_used <- firestore.is_voice_trial_used (uid user) ;;
     if trial_used : bool then
       send_json (error "You've used your free voice session. Upgrade to Pro for unlimited voice coaching.") ;;;
       emit WsClose ;;;
       return_
     else
       (* Mark trial as used immediately (prevent parallel sessions) *)
       firestore.mark_voice_trial_used (uid user)
   else
     usage <- firestore.get_voice_usage (uid user) (month_at_start env) ;;
     if Py.ge (default 0%Q (FirestoreService.monthlyMinutes usage))
              config.VOICE_MONTHLY_MINUTES_LIMIT
     then
       send_json (error "Monthly voice limit reached (60 minutes). Resets next month.") ;;;
       emit WsClose ;;;
       return_
     else ret tt) ;;;
  (* Determine session time limit based on plan *)
  ret (if String.eqb (plan user) "free"
       then FREE_VOICE_TRIAL_MINUTES
       else config.VOICE_SESSION_MAX_MINUTES).

(** 3. Build coach prompt; the value is
    [(coach_id, coach_name, system_prompt, voice_name)]. *)
Definition coach_prompt (env : Env) (user : AuthenticatedUser)
    : M Db (string * string * string * string) :=
  let coach_id := default "mira" (coach_id_param env) in
  custom <-
     (if negb (coach_prompts.is_built_in coach_id) then
        coach_data <- firestore.get_coach coach_id ;;
        match coach_data with
        | Some c => ret (Some (default "" (FirestoreService.systemPrompt c)),
                         default coach_id (FirestoreService.name c))
        | None => ret (None, coach_id)
        end
      else ret (None, coach_id)) ;;
  let '(custom_prompt, coach_name) := custom in
  let system_prompt :=
    build_coach_prompt env coach_id (about_me user) custom_prompt +:+ voice_rules in
  let voice_name := coach_prompts.get_coach_voice coach_id in
  logger INFO "voice_session" ;;;
  ret (coach_id, coach_name, system_prompt, voice_name).

(** 4. Ensure conversation exists + ownership check. *)
Definition ownership_check (env : Env) (user : AuthenticatedUser)
    (conversation_id coach_id coach_name : string) : M Db unit :=
  found <- firestore.conversation_exists conversation_id ;;
  if found : bool then
    owner_id <- firestore.get_conversation_owner conversation_id ;;
    match owner_id with
    | Some owner =>
        if negb (String.eqb owner (uid user)) then
          send_json (error "Forbidden") ;;;
          emit WsClose ;;;
          return_
        else ret tt
    | None => ret tt
    end
  else
    firestore.create_conversation conversation_id (uid user) coach_id coach_name
      "voice" (now_at_start env) ;;;
    logger INFO "metric:session_started".

(** 5. Connect to Gemini Live API. *)
Definition connect_gemini (env : Env) : M Db unit :=
  try_except
    (emit GoogleAccessToken ;;;
     match connect env with
     | TokenRaises e => raise e
     | ConnectRaises e => emit GeminiConnect ;;; raise e
     | Connected => emit GeminiConnect
     end)
    Exception
    (fun e =>
       logger ERROR "gemini_live_connect_error" ;;;
       send_json (error ("Failed to connect to voice service: " +:+ type_name e)) ;;;
       emit WsClose ;;;
       return_).

Definition SETUP_TIMEOUT : Q := 10.

(** 6. Send setup message and wait for setupComplete. *)
Definition setup_handshake (env : Env) (system_prompt voice_name : string)
    : M Db unit :=
  emit (GeminiSend (setup system_prompt voice_name)) ;;;
  try_except
    (setup_response <- wait_for_recv (first_reply env) SETUP_TIMEOUT ;;
     setup_data <- json_loads setup_response ;;
     if bool_decide ("setupComplete" ∈ setup_data)
     then logger INFO "gemini_setup_complete"
     else logger WARNING "unexpected_setup_response")
    is_TimeoutError
    (fun _ =>
       logger ERROR "gemini_setup_timeout" ;;;
       send_json (error "Voice service timed out during setup") ;;;
       emit WsClose ;;;
       emit GeminiClose ;;;
       return_).

(** 7. Bidirectional proxy with keep-alive; the value is the final state
    of the variables shared by the tasks. *)
Definition proxy (env : Env) (user : AuthenticatedUser)
    (session_max_minutes : Q) : M Db Relay :=
  ended <- nested (gather user (session_start env) session_max_minutes
                     (schedule env)) relay_start ;;
  let '(outcome, relay) := ended in
  match outcome with
  | Raised _ => logger INFO "voice_gather_ended"
  | _ => ret tt
  end ;;;
  ret relay.

(** Save transcripts + record usage. *)
Definition save_transcripts (env : Env) (user : AuthenticatedUser)
    (conversation_id : string) (duration_min : Q)
    (transcript_turns : list (string * string)) : M Db unit :=
  try_except
    (logger INFO "voice_session_end" ;;;
     let consolidated := consolidate transcript_turns in
     logger INFO "voice_transcripts_consolidated" ;;;
     (* Save consolidated messages in conversation order *)
     for_ consolidated (fun '(role, text) =>
       when (Py.strip_truthy text)
         (firestore.add_message conversation_id role text (now_at_end env))) ;;;
     logger INFO "voice_transcripts_saved" ;;;
     (* Auto-generate title from full conversation transcript *)
     when (negb (bool_decide (consolidated = [])))
       (try_except
          (match generate_voice_session_title env consolidated with
           | Returns title =>
               firestore.update_conversation_title conversation_id title ;;;
               logger INFO "voice_title_generated"
           | Raises e => raise e
           end)
          Exception
          (fun _ => logger ERROR "voice_title_error")) ;;;
     (* Update voice usage *)
     firestore.update_voice_usage (uid user) duration_min conversation_id
       (month_at_end env) (now_at_end env))
    BaseException
    (fun _ => logger ERROR "voice_save_error").

(** The handler of [/ws/voice/{conversation_id}]. *)
Definition voice_session (env : Env) (conversation_id : string) : M Db unit :=
  emit WsAccept ;;;
  user <- authenticate env ;;
  session_max_minutes <- voice_access_check env user ;;
  coach <- coach_prompt env user ;;
  let '(coach_id, coach_name, system_prompt, voice_name) := coach in
  ownership_check env user conversation_id coach_id coach_name ;;;
  connect_gemini env ;;;
  setup_handshake env system_prompt voice_name ;;;
  relay <- proxy env user session_max_minutes ;;
  let duration_min := ((session_end env - session_start env) / 60)%Q in
  save_transcripts env user conversation_id duration_min (transcript_turns relay) ;;;
  (* Send session ended + clean up *)
  send_json (session_ended (Py.round duration_min 1)) ;;;
  emit GeminiClose.

(** The store and the events of one connection handled from store [db]. *)
Definition run (env : Env) (conversation_id : string) (db : Db)
    : Outcome unit * Db * list Event :=
  voice_session env conversation_id db.

End voice.

(** ** backend/routers/chat.py *)

Module chat.
Import schemas.

(** [ChatRequest]; an item of [history] is a [(role, content)]. *)
Record ChatRequest := mkChatRequest {
  coach_id : string;
  conversation_id : string;
  message : string;
  history : list (string * string)
}.

(** The events of the response stream. *)
Inductive SseEvent :=
| message_event (text : string)
| error_event (error : string)
| done_event.

(** What one request finds outside the store. *)
Record Env := mkEnv {
  (** [date.today().isoformat()] in [check_rate_limit] and in
      [increment_daily_message_count] *)
  today_at_check : string;
  today_at_increment : string;
  (** [coach_prompts.build_coach_prompt] *)
  build_coach_prompt : string -> string -> option string -> nat -> bool -> string
                       -> string;
  (** The [action_items] of the report that [get_report] finds for a
      conversation; [None] when it finds no report. *)
  get_report : string -> option (list string);
  (** [datetime.utcnow().isoformat()] at the three writes *)
  now_at_create : string;
  now_at_user_message : string;
  now_at_assistant_message : string;
  (** The chunks of the response of the model to a system prompt, and the
      exception that ends it, if any. *)
  response : string -> list (option string) * option Exn;
  (** [gemini_service.generate_content] *)
  generate_content : string -> string -> Q -> nat -> Try string
}.

Definition PRO_COACHES : list string := ["atlas"; "lyra"; "sol"; "ember"].

Definition _error_generator (message : string) : list SseEvent :=
  [error_event message; done_event].

(** The generator [chat_send] hands to [EventSourceResponse]. *)
Inductive Body :=
| error_body (message : string)
| event_body (system_prompt : string).

(** [chat_send] up to its [return]. *)
Definition chat_send (env : Env) (request : ChatRequest) (user : AuthenticatedUser)
    (db : FirestoreService.Db) : Http Body * FirestoreService.Db :=
  (* Pro coach enforcement *)
  if negb (String.eqb (plan user) "pro")
     && (bool_decide (coach_id request ∈ PRO_COACHES)
         || negb (coach_prompts.is_built_in (coach_id request)))
  then (HTTPError 403 "This coach requires a Pro subscription.", db)
  else
  (* Get coach prompt *)
  let coach :=
    if negb (coach_prompts.is_built_in (coach_id request)) then
      match FirestoreService.get_coach db (coach_id request) with
      | Some coach_data =>
          Some (Some (default "" (FirestoreService.systemPrompt coach_data)),
                default (coach_id request) (FirestoreService.name coach_data))
      | None => None
      end
    else Some (None, coach_prompts.get_coach_name (coach_id request)) in
  match coach with
  | None => (Responds (error_body "Coach not found"), db)
  | Some (custom_prompt, coach_name) =>
      (* Determine session stage context *)
      let message_count := length (history request) in
      let found := FirestoreService.conversation_exists db (conversation_id request) in
      let owner_id :=
        FirestoreService.get_conversation_owner db (conversation_id request) in
      if found && match owner_id with
                  | Some owner => negb (String.eqb owner (uid user))
                  | None => false
                  end
      then (HTTPError 403 "Forbidden", db)
      else
      let is_resumed := found && (0 <? message_count)%nat in
      let previous_action :=
        if is_resumed then
          match get_report env (conversation_id request) with
          | Some (action :: _) => action
          | _ => ""
          end
        else "" in
      let system_prompt :=
        build_coach_prompt env (coach_id request) (about_me user) custom_prompt
          message_count is_resumed previous_action in
      (* Ensure conversation exists in Firestore *)
      let db1 :=
        if negb (FirestoreService.conversation_exists db (conversation_id request))
        then FirestoreService.create_conversation db (conversation_id request)
               (uid user) (coach_id request) coach_name "text" (now_at_create env)
        else db in
      (* Save user message to Firestore *)
      let db2 := FirestoreService.add_message db1 (conversation_id request) "user"
                   (message request) (now_at_user_message env) in
      (* Increment daily message count for free users *)
      let db3 :=
        if String.eqb (plan user) "free"
        then FirestoreService.increment_daily_message_count db2 (uid user)
               (today_at_increment env)
        else db2 in
      (Responds (event_body system_prompt), db3)
  end.

(** [event_generator] run to its end: the events it yields, the
    exception it ends with, if any, and the store it leaves. *)
Definition event_generator (env : Env) (request : ChatRequest) (system_prompt : string)
    (db : FirestoreService.Db)
    : list SseEvent * option Exn * FirestoreService.Db :=
  let '(chunks, stream_error) := response env system_prompt in
  let yielded := gemini_service.stream_chat_response chunks in
  let full_response := fold_right String.append "" yielded in
  let messages := map message_event yielded in
  (* except Exception *)
  let '(errors, pending) :=
    match stream_error with
    | Some e =>
        if Exception e
        then ([error_event "I'm having trouble thinking right now. Try again in a moment."],
              None)
        else ([], Some e)
    | None => ([], None)
    end in
  (* finally *)
  if Py.truthy full_response then
    let db1 := FirestoreService.add_message db (conversation_id request) "assistant"
                 full_response (now_at_assistant_message env) in
    if (FirestoreService.get_messages_len db1 (conversation_id request) 3 =? 2)%nat then
      match gemini_service.generate_conversation_title (generate_content env)
              (message request) with
      | Returns title =>
          match FirestoreService.update_conversation_title db1
                  (conversation_id request) title with
          | Some db2 => (messages ++ errors ++ [done_event], pending, db2)
          | None => (messages ++ errors, Some NotFound, db1)
          end
      | Raises e => (messages ++ errors, Some e, db1)
      end
    else (messages ++ errors ++ [done_event], pending, db1)
  else (messages ++ errors ++ [done_event], pending, db).

(** The request handled and its response read to the end. *)
Definition exchange (env : Env) (request : ChatRequest) (user : AuthenticatedUser)
    (db : FirestoreService.Db)
    : Http (list SseEvent * option Exn) * FirestoreService.Db :=
  match chat_send env request user db with
  | (Responds (error_body message), db1) =>
      (Responds (_error_generator message, None), db1)
  | (Responds (event_body system_prompt), db1) =>
      let '(events, pending, db2) := event_generator env request system_prompt db1 in
      (Responds (events, pending), db2)
  | (HTTPError status_code detail, db1) => (HTTPError status_code detail, db1)
  | (Unhandled e, db1) => (Unhandled e, db1)
  end.

(** [POST /send]: the dependency [check_rate_limit], then the handler. *)
Definition post_send (env : Env) (request : ChatRequest) (user : AuthenticatedUser)
    (db : FirestoreService.Db)
    : Http (list SseEvent * option Exn) * FirestoreService.Db :=
  match auth.check_rate_limit user (today_at_check env) db with
  | Responds user' => exchange env request user' db
  | HTTPError status_code detail => (HTTPError status_code detail, db)
  | Unhandled e => (Unhandled e, db)
  end.

End chat.

(** ** backend/routers/sessions.py *)

Module sessions.
Import schemas.

Definition delete_conversation (conversation_id : string) (user : AuthenticatedUser)
    (db : FirestoreService.Db) : Http bool * FirestoreService.Db :=
  match FirestoreService.get_conversation_owner db conversation_id with
  | None => (HTTPError 404 "Conversation not found", db)
  | Some owner_id =>
      if negb (String.eqb owner_id (uid user)) then (HTTPError 403 "Forbidden", db)
      else (Responds true, FirestoreService.delete_conversation db conversation_id)
  end.

Definition update_action_status (conversation_id action_status : string)
    (user : AuthenticatedUser) (db : FirestoreService.Db)
    : Http bool * FirestoreService.Db :=
  match FirestoreService.get_conversation_owner db conversation_id with
  | None => (HTTPError 404 "Conversation not found", db)
  | Some owner_id =>
      if negb (String.eqb owner_id (uid user)) then (HTTPError 403 "Forbidden", db)
      else
        match FirestoreService.update_action_status db conversation_id
                action_status with
        | Some db' => (Responds true, db')
        | None => (Unhandled NotFound, db)
        end
  end.

End sessions.

(** ** backend/routers/profile.py *)

Module profile.
Import schemas.

(** [ProfileResponse]; [name], [email] and [photo_url] come from the
    token and are left out. *)
Record ProfileResponse := mkProfileResponse {
  plan : string;
  daily_messages_used : Z;
  daily_messages_limit : Z;
  voice_minutes_used : Q;
  voice_minutes_limit : Z;
  about_me : string
}.

(** [get_profile]; [today] is [date.today().isoformat()] and
    [current_month] the month key of [get_voice_usage]. *)
Definition get_profile (user : AuthenticatedUser) (today current_month : string)
    (db : FirestoreService.Db) : ProfileResponse :=
  let daily_count := FirestoreService.get_daily_message_count db (uid user) today in
  let voice_usage := FirestoreService.get_voice_usage db (uid user) current_month in
  mkProfileResponse (schemas.plan user) daily_count 10
    (Py.round (default 0%Q (FirestoreService.monthlyMinutes voice_usage)) 1) 60
    (schemas.about_me user).

Definition update_about_me (free_text : string) (user : AuthenticatedUser)
    (db : FirestoreService.Db) : Http bool * FirestoreService.Db :=
  (Responds true, FirestoreService.update_about_me db (uid user) free_text).

(** [update_display_name]; [name] is the [name] key of the request, and
    [update_user uid display_name] stands for [fb_auth.update_user], which
    returns or raises.  The response is the name it has set. *)
Definition update_display_name (update_user : string -> string -> Try unit)
    (name : option string) (user : AuthenticatedUser) : Http string :=
  let name := Py.strip (default "" name) in
  if negb (Py.truthy name) || (50 <? String.length name)%nat
  then HTTPError 400 "Name must be 1-50 characters"
  else
    match update_user (uid user) name with
    | Returns _ => Responds name
    | Raises e => Unhandled e
    end.

(** The JSON of the answer of the subscriber service. *)
Record Entitlement := mkEntitlement { expires_date : option string }.
Record Entitlements := mkEntitlements { pro : option Entitlement }.
Record Subscriber := mkSubscriber { entitlements : option Entitlements }.
Record SubscriberResponse := mkSubscriberResponse {
  status_code : nat;
  subscriber : option Subscriber
}.

(** [sync_subscription]; [secret_key] is [REVENUECAT_SECRET_KEY] and
    [resp] the answer to the request for the subscriber.  The response is
    the plan. *)
Definition sync_subscription (secret_key : string) (resp : SubscriberResponse)
    (user : AuthenticatedUser) (db : FirestoreService.Db)
    : Http string * FirestoreService.Db :=
  if negb (Py.truthy secret_key)
  then (HTTPError 500 "Subscription service not configured", db)
  else if negb (status_code resp =? 200)%nat
  then (HTTPError 502 "Could not verify subscription", db)
  else
    let subscriber := default (mkSubscriber None) (subscriber resp) in
    let entitlements := default (mkEntitlements None) (entitlements subscriber) in
    let pro_ent := default (mkEntitlement None) (pro entitlements) in
    let is_active := bool_decide (is_Some (expires_date pro_ent)) in
    let plan := if is_active then "pro" else "free" in
    (Responds plan, FirestoreService.update_subscription db (uid user) plan).

End profile.

(** ** Vocabulary of the properties *)

Import schemas voice.

(** *** Traces *)

(** The messages stored by a trace: the [(role, content)] of its
    [add_message] calls, in order. *)
Definition saved_messages (t : list Event) : list (string * string) :=
  omap (fun w => match w with
                 | add_message _ role content => Some (role, content)
                 | _ => None
                 end) (writes t).

(** The [error] frames among the frames the client receives. *)
Definition is_error (f : Frame) : bool :=
  match f with error _ => true | _ => false end.
Definition error_frames (t : list Event) : list Frame :=
  List.filter is_error (frames t).

(** The closes of either socket in a trace. *)
Definition closes (t : list Event) : list Event :=
  List.filter (fun e => match e with
                        | WsClose | GeminiClose => true
                        | _ => false
                        end) t.

(** An event that is not an [error] frame. *)
Definition not_error (e : Event) : Prop :=
  match e with
  | WsSendJson (error _) => False
  | _ => True
  end.

(** *** Judgements on computations *)

(** A store invariant [P] that a computation keeps while it emits only
    events that satisfy [Q], however it ends. *)
Definition preserves {S A} (P : S -> Prop) (Q : Event -> Prop) (m : M S A) : Prop :=
  ∀ s, P s -> P (m s).1.2 ∧ Forall Q (m s).2.

(** A property [R] of how a computation ends, from whatever state. *)
Definition ends {S A} (R : Outcome A -> Prop) (m : M S A) : Prop :=
  ∀ s, R (m s).1.1.

(** A computation that always ends with a value and stores exactly the
    messages [stored], whatever the store it starts from. *)
Definition saves {S A} (m : M S A) (stored : list (string * string)) : Prop :=
  ∀ s, saved_messages (m s).2 = stored ∧ ∃ a, (m s).1.1 = Value a.

(** *** Consolidation *)

(** A turn or fragment whose text has a character that is not white space
    (the test [text.strip()] of the save loop). *)
Definition nonblank (turn : string * string) : bool := Py.strip_truthy (snd turn).

(** No two neighbours of a list of roles are equal. *)
Fixpoint neighbours_differ (roles : list string) : bool :=
  match roles with
  | a :: rest =>
      match rest with
      | b :: _ => negb (String.eqb a b)
      | [] => true
      end && neighbours_differ rest
  | [] => true
  end.

(** No two adjacent turns have the same role. *)
Definition no_adjacent_same_role (turns : list (string * string)) : bool :=
  neighbours_differ (turns.*1).

(** A run: a role and the texts of consecutive fragments of that role. *)
Definition Run : Type := string * list string.

(** The fragments of a run, and of a sequence of runs, in order. *)
Definition run_fragments (r : Run) : list (string * string) :=
  map (pair (fst r)) (snd r).
Definition runs_fragments (runs : list Run) : list (string * string) :=
  concat (map run_fragments runs).

(** The turn of a run: its role and the concatenation of its texts. *)
Definition run_turn (r : Run) : string * string :=
  (fst r, fold_right String.append "" (snd r)).

(** *** Monthly usage *)

(** The minutes of the month [current_month] a user has on record, as
    [get_voice_usage] reports them. *)
Definition monthly_total (db : FirestoreService.Db) (uid current_month : string) : Q :=
  default 0%Q (FirestoreService.monthlyMinutes
                 (FirestoreService.get_voice_usage db uid current_month)).

(** The user has no usage record for [current_month]: none at all, or one
    of another month. *)
Definition no_current_record (db : FirestoreService.Db) (uid current_month : string)
    : Prop :=
  match FirestoreService.voice_usage db !! uid with
  | Some data => FirestoreService.month data ≠ Some current_month
  | None => True
  end.

(** *** The free trial *)

(** The connection [env] is from the user [u], who is on the free plan in
    store [db]: the token is verified as [u]'s and the subscription of [u]
    says [free] (or nothing). *)
Definition free_user (env : Env) (db : FirestoreService.Db) (u : string) : Prop :=
  ∃ tok, token env = Some tok ∧ Py.truthy tok = true
         ∧ verify_id_token env tok = Some u
         ∧ default "free" (FirestoreService.plan
                             (FirestoreService.get_subscription db u)) = "free".

(** The message of the error frame that turns a used trial away. *)
Definition trial_used_message : string :=
  "You've used your free voice session. Upgrade to Pro for unlimited voice coaching.".

(** What happens to the store between two connections: another connection
    is handled, or one of the other writers of the subscription document
    runs. *)
Inductive StoreOp :=
| Session (env : Env) (conversation_id : string)
| UpdateSubscription (uid plan : string)
| IncrementDailyMessageCount (uid today : string).

Definition apply_op (db : FirestoreService.Db) (op : StoreOp) : FirestoreService.Db :=
  match op with
  | Session env conversation_id => snd (fst (run env conversation_id db))
  | UpdateSubscription uid plan => FirestoreService.update_subscription db uid plan
  | IncrementDailyMessageCount uid today =>
      FirestoreService.increment_daily_message_count db uid today
  end.

Definition apply_ops (db : FirestoreService.Db) (ops : list StoreOp)
    : FirestoreService.Db :=
  fold_left apply_op ops db.

(** *** The relay *)

(** The minutes elapsed at clock reading [now] of a session started at
    [session_start]. *)
Definition elapsed_minutes (session_start now : Q) : Q :=
  ((now - session_start) / 60)%Q.

(** The clock reading after one more event: an upstream message brings its
    own. *)
Definition next_reading (reading : Q) (ev : RelayEvent) : Q :=
  match ev with
  | Gemini (Item (_, now)) => now
  | _ => reading
  end.

(** The clock reading of the last upstream message of a schedule, or
    [session_start] when there is none. *)
Definition last_reading (session_start : Q) (schedule : list RelayEvent) : Q :=
  fold_left next_reading schedule session_start.

(** The [serverContent] the pump works on. *)
Definition server_content_of (d : UpstreamData) : ServerContent :=
  default (mkServerContent None None None false) (serverContent d).

(** Every audio part of the message that has [inlineData] has its [data]. *)
Definition audio_well_formed (d : UpstreamData) : Prop :=
  ∀ parts, modelTurn (server_content_of d) = Some parts ->
           Forall (fun part => inlineData part ≠ Some None) parts.

(** A step of the upstream pump that only forwards: it ends with a value,
    leaves [session_active] and the [_done] flag of the pump as they are,
    and sends no [error] frame. *)
Definition forwards {A} (m : M Relay A) : Prop :=
  ∀ r, ∃ a r' t,
    m r = (Value a, r', t)
    ∧ session_active r' = session_active r
    ∧ gemini_to_client_done r' = gemini_to_client_done r
    ∧ error_frames t = [].

(** The result [res] of one pass of the upstream pump entered in state [r]
    obeys the time limit: when the minutes elapsed at [now] have reached
    [session_max_minutes] the pass breaks the loop, has cleared
    [session_active], and its last event is the one [error] frame it sends;
    otherwise the loop continues, the flag is as it was and no [error]
    frame is sent. *)
Definition time_limit_pass (user : AuthenticatedUser)
    (session_start session_max_minutes now : Q) (r : Relay)
    (res : Outcome Loop * Relay * list Event) : Prop :=
  ∃ t0,
    error_frames t0 = []
    ∧ gemini_to_client_done res.1.2 = gemini_to_client_done r
    ∧ if Py.ge (elapsed_minutes session_start now) session_max_minutes
      then res.1.1 = Value Break
           ∧ session_active res.1.2 = false
           ∧ res.2 = t0 ++ [WsSendJson (error (time_limit_message user))]
      else res.1.1 = Value Continue
           ∧ session_active res.1.2 = session_active r
           ∧ res.2 = t0.

(** A pass of the upstream pump sends no [error] frame, or it sends one and
    breaks the loop. *)
Definition error_only_at_break (m : M Relay Loop) : Prop :=
  ∀ r, error_frames (m r).2 = []
       ∨ ((m r).1.1 = Value Break ∧ ∃ f, error_frames (m r).2 = [f]).

(** The text of a transcription is empty or its key is absent. *)
Definition no_text (t : option (option string)) : Prop :=
  match t with
  | Some (Some text) => text = ""
  | _ => True
  end.

(** The text of one of the two notices of remaining time. *)
Definition time_notice (text : string) : Prop :=
  text = "[1 minute remaining in your free session]"
  ∨ text = "[5 minutes remaining in session]".

(** A [transcript] frame carries a text that is not empty. *)
Definition transcript_has_text (e : Event) : Prop :=
  match e with
  | WsSendJson (transcript _ text) => text ≠ ""
  | _ => True
  end.

(** A [transcript] frame does not have the role [user]. *)
Definition not_user_transcript (e : Event) : Prop :=
  match e with
  | WsSendJson (transcript role _) => role ≠ "user"
  | _ => True
  end.

(** A [transcript] frame of the role [assistant] is a notice of remaining
    time. *)
Definition assistant_transcript_is_notice (e : Event) : Prop :=
  match e with
  | WsSendJson (transcript role text) => role = "assistant" -> time_notice text
  | _ => True
  end.

(** The fragments of one role in the transcript sequence. *)
Definition fragments_of (role : string) (r : Relay) : list (string * string) :=
  List.filter (fun fragment => String.eqb (fst fragment) role) (transcript_turns r).

(** Every fragment has a text that is not empty. *)
Definition fragments_have_text (r : Relay) : Prop :=
  Forall (fun fragment : string * string => snd fragment ≠ "") (transcript_turns r).

(** *** Inputs of the examples *)

(** A small January store: one user with 50 minutes on record. *)
Definition usage_january : FirestoreService.Db :=
  FirestoreService.with_voice_usage FirestoreService.empty
    {[ "alice" := FirestoreService.mkVoiceUsage (Some 50%Q) (Some [])
                    (Some "2026-01") ]}.

(** A user on the pro plan with 58 minutes on record in January. *)
Definition pro_bob : AuthenticatedUser := mkAuthenticatedUser "bob" "" "pro".
Definition usage_bob : FirestoreService.Db :=
  FirestoreService.with_voice_usage FirestoreService.empty
    {[ "bob" := FirestoreService.mkVoiceUsage (Some 58%Q) (Some [])
                  (Some "2026-01") ]}.

(** A conversation of [carol] without recorded owner, and one owned by
    [alice]. *)
Definition conversations_db : FirestoreService.Db :=
  FirestoreService.with_conversations FirestoreService.empty
    {[ "c-unowned" := FirestoreService.mkConversation None;
       "c-alice" := FirestoreService.mkConversation (Some
          (FirestoreService.mkMetadata (Some "alice") None None None None None
             None None None None)) ]}.

(** A connection of the bearer of token [tok], verified as [uid]; the
    upstream service is reached, answers [reply] and the relay is resumed
    along [events]. *)
Definition connection (tok uid : string) (reply : option (Q * Reply))
    (events : list RelayEvent) : Env :=
  mkEnv (Some tok) None
    (fun t => if String.eqb t tok then Some uid else None)
    (fun _ _ _ => "You are Mira.") Connected reply 1000 1100 events
    (fun _ => Returns "Feeling stuck at work") "2026-01" "2026-01-15T10:00:00"
    "2026-01" "2026-01-15T10:02:00".

(** A user on the free plan, and a message of two audio parts. *)
Definition free_alice : AuthenticatedUser := mkAuthenticatedUser "alice" "" "free".
Definition audio_message : UpstreamData :=
  mkUpstreamData
    (Some (mkServerContent (Some [mkPart (Some (Some "UklGRg==")); mkPart None])
             None None false)) [].

(** A message whose input transcription has an empty text and whose output
    transcription has none. *)
Definition silent_message : UpstreamData :=
  mkUpstreamData
    (Some (mkServerContent None (Some (Some "")) (Some None) true)) [].

(** *** The document store *)

(** The plan of a user as token verification reads it: the stored plan, or
    [free] when there is no document or no plan in it. *)
Definition plan_of (db : FirestoreService.Db) (uid : string) : string :=
  default "free" (FirestoreService.plan (FirestoreService.get_subscription db uid)).

(** The stored messages of a conversation, in the order they were added. *)
Definition stored_messages (db : FirestoreService.Db) (conversation_id : string)
    : list FirestoreService.Message :=
  default [] (FirestoreService.messages db !! conversation_id).

(** A field of the metadata of a conversation; [None] when the document,
    its metadata or the field is missing. *)
Definition metadata_field {A} (f : FirestoreService.Metadata -> option A)
    (db : FirestoreService.Db) (conversation_id : string) : option A :=
  match FirestoreService.conversations db !! conversation_id with
  | Some c =>
      match FirestoreService.metadata c with
      | Some md => f md
      | None => None
      end
  | None => None
  end.

(** [add_message] called once for each [(role, content, now)] of a list,
    in order. *)
Definition add_messages (db : FirestoreService.Db) (conversation_id : string)
    (msgs : list (string * string * string)) : FirestoreService.Db :=
  fold_left (fun db m => FirestoreService.add_message db conversation_id
                           m.1.1 m.1.2 m.2) msgs db.

(** *** Text chat *)

(** The request gets past the rate limiter and the checks of the handler,
    which stores the message and starts the stream of the model. *)
Definition served (env : chat.Env) (request : chat.ChatRequest)
    (user : AuthenticatedUser) (db : FirestoreService.Db) : bool :=
  match auth.check_rate_limit user (chat.today_at_check env) db with
  | Responds user' =>
      match (chat.chat_send env request user' db).1 with
      | Responds (chat.event_body _) => true
      | _ => false
      end
  | _ => false
  end.

(** Requests of one user handled one after the other: the store they
    leave and the number of them that were served. *)
Definition post_sends (user : AuthenticatedUser)
    (requests : list (chat.Env * chat.ChatRequest)) (db : FirestoreService.Db)
    : FirestoreService.Db * nat :=
  fold_left (fun acc r =>
               ((chat.post_send r.1 r.2 user acc.1).2,
                if served r.1 r.2 user acc.1 then S acc.2 else acc.2))
            requests (db, 0%nat).

(** The texts of the [message] events of a stream, in order. *)
Definition message_texts (events : list chat.SseEvent) : list string :=
  omap (fun e => match e with chat.message_event text => Some text | _ => None end)
       events.

(** The limiter lets the request through. *)
Definition admitted {A} (r : Http A) : bool :=
  match r with Responds _ => true | _ => false end.

(** *** Inputs of the examples of the chat *)

(** A request of the day [today] to which the model answers with [chunks]
    and then [stream_error]; the title service answers with a quoted title. *)
Definition chat_env (today : string) (chunks : list (option string))
    (stream_error : option Exn) : chat.Env :=
  chat.mkEnv today today (fun _ _ _ _ _ _ => "You are Mira.") (fun _ => None)
    "2026-01-15T10:00:00" "2026-01-15T10:00:01" "2026-01-15T10:00:05"
    (fun _ => (chunks, stream_error))
    (fun _ _ _ _ => Returns (" " +:+ String gemini_service.dquote
                               ("Feeling stuck at work"
                                +:+ String gemini_service.dquote " "))).

(** A first message to the coach [coach_id] in the conversation [c-1]. *)
Definition hello (coach_id : string) : chat.ChatRequest :=
  chat.mkChatRequest coach_id "c-1" "I feel stuck at work" [].

(** *** Strings *)

(** The first and the last character of a string. *)
Definition first_char (s : string) : option ascii :=
  match s with
  | String c _ => Some c
  | EmptyString => None
  end.

Fixpoint last_char (s : string) : option ascii :=
  match s with
  | EmptyString => None
  | String c EmptyString => Some c
  | String _ rest => last_char rest
  end.

(** The string neither starts nor ends with white space. *)
Definition trimmed (s : string) : bool :=
  negb (default false (Py.isspace <$> first_char s))
  && negb (default false (Py.isspace <$> last_char s)).

(** The characters of a list of lines, as the title service counts
    them. *)
Definition total_length (lines : list string) : nat :=
  fold_right (fun line n => (String.length line + n)%nat) 0%nat lines.

(** *** The course of a connection *)

(** The usage records written by a trace: the arguments of its
    [update_voice_usage] calls, in order. *)
Definition usage_records (t : list Event) : list (string * Q * string) :=
  omap (fun w => match w with
                 | update_voice_usage uid duration_minutes session_id =>
                     Some (uid, duration_minutes, session_id)
                 | _ => None
                 end) (writes t).

(** The audio payloads sent upstream by a trace, in order. *)
Definition upstream_audio (t : list Event) : list string :=
  omap (fun e => match e with
                 | GeminiSend (realtime_input payload) => Some payload
                 | _ => None
                 end) t.

(** The user a connection is authenticated as, if any. *)
Definition caller (env : Env) : option string :=
  match token env with
  | Some t => if Py.truthy t then verify_id_token env t else None
  | None => None
  end.

(** The minutes a session is charged for. *)
Definition session_minutes (env : Env) : Q :=
  ((session_end env - session_start env) / 60)%Q.

(** An event of the steps before the relay that the client does not see
    and that stores neither a message, a title nor usage: no frame, no
    close, no audio sent upstream. *)
Definition quiet (e : Event) : Prop :=
  match e with
  | WsSendJson _ | WsClose | GeminiClose => False
  | GeminiSend (realtime_input _) => False
  | Firestore (add_message _ _ _) => False
  | Firestore (update_conversation_title _ _) => False
  | Firestore (update_voice_usage _ _ _) => False
  | _ => True
  end.

(** An event of the steps before the upstream connection is attempted. *)
Definition before_connect (e : Event) : Prop :=
  match e with
  | GeminiConnect => False
  | _ => quiet e
  end.

(** The upstream socket is open after the events [t]: the connection has
    been attempted, and it is one that succeeds. *)
Definition upstream_open (env : Env) (t : list Event) : Prop :=
  connect env = Connected ∧ GeminiConnect ∈ t.

(** A refusal: after quiet events one [error] frame, then the close of the
    client socket and, exactly when the upstream socket is open, its
    close. *)
Definition refusal (env : Env) (t : list Event) : Prop :=
  ∃ t0 message t1,
    t = t0 ++ WsSendJson (error message) :: WsClose :: t1
    ∧ Forall quiet t0
    ∧ ((upstream_open env t0 ∧ t1 = [GeminiClose])
       ∨ (¬ upstream_open env t0 ∧ t1 = [])).

(** The two phases of the setup, as properties of the events so far:
    before the upstream connection is attempted, and with the upstream
    socket open. *)
Definition not_connected (t : list Event) : Prop := Forall before_connect t.
Definition connected (env : Env) (t : list Event) : Prop :=
  Forall quiet t ∧ upstream_open env t.

(** A step of the handler before the relay, run in a store that satisfies
    [P] after events [pre] that satisfy [Pre]: it keeps [P]; when it goes
    on, its value satisfies [R] and the events so far satisfy [Post]; and
    it returns only by a refusal. *)
Definition setup_step {A} (env : Env) (P : Db -> Prop)
    (Pre Post : list Event -> Prop) (R : A -> Prop) (m : M Db A) : Prop :=
  ∀ db pre, P db -> Pre pre ->
    P (m db).1.2
    ∧ match (m db).1.1 with
      | Value a => R a ∧ Post (pre ++ (m db).2)
      | Returned => refusal env (pre ++ (m db).2)
      | Raised _ => True
      end.

(** The course of the rest of a handler, run in a store that satisfies [P]
    after events [pre] that satisfy [Pre]: it ends with a value in a store
    and after events that satisfy [V], or it returns by a refusal and then
    has kept [P]. *)
Definition course (env : Env) (P : Db -> Prop) (Pre : list Event -> Prop)
    (V : Db -> list Event -> Prop) (m : M Db unit) : Prop :=
  ∀ db pre, P db -> Pre pre ->
    match (m db).1.1 with
    | Value _ => V (m db).1.2 (pre ++ (m db).2)
    | Returned => P (m db).1.2 ∧ refusal env (pre ++ (m db).2)
    | Raised _ => True
    end.

(** An event of the relay: a frame for the client, a frame for the
    upstream service or a log line. *)
Definition relay_event (e : Event) : Prop :=
  match e with
  | WsSendJson _ | GeminiSend _ | Log _ _ => True
  | _ => False
  end.

(** An event of the saving of a transcript before the usage is recorded: a
    log line, a stored message or a stored title. *)
Definition save_event (e : Event) : Prop :=
  match e with
  | Log _ _ => True
  | Firestore (add_message _ _ _) => True
  | Firestore (update_conversation_title _ _) => True
  | _ => False
  end.

(** A computation that, from a state that satisfies [P], always ends with
    a value in a state that satisfies [P], after events that satisfy [Q]. *)
Definition completes {S A} (P : S -> Prop) (Q : Event -> Prop) (m : M S A) : Prop :=
  ∀ s, P s -> ∃ a s' t, m s = (Value a, s', t) ∧ P s' ∧ Forall Q t.

(** The user a connection of [u] is authenticated as in the store [db]. *)
Definition session_user (db : Db) (u : string) : AuthenticatedUser :=
  mkAuthenticatedUser u (FirestoreService.get_about_me db u) (plan_of db u).

(** The consolidated transcript of the session of [u]: what the relay of
    the connection collects, merged into turns. *)
Definition session_transcript (env : Env) (db : Db) (u : string)
    : list (string * string) :=
  let user := session_user db u in
  let session_max_minutes :=
    if String.eqb (plan user) "free"
    then FREE_VOICE_TRIAL_MINUTES
    else config.VOICE_SESSION_MAX_MINUTES in
  consolidate
    (transcript_turns
       (gather user (session_start env) session_max_minutes (schedule env)
          relay_start).1.2).

(** The title service is asked for a title of [turns] and raises an
    exception that is not an [Exception] (a cancellation). *)
Definition title_cancelled (env : Env) (turns : list (string * string)) : bool :=
  negb (bool_decide (turns = []))
  && match generate_voice_session_title env turns with
     | Returns _ => false
     | Raises e => negb (Exception e)
     end.

(** A session that has run to its end from the store [db0].  Its usage has
    been recorded once, for the caller and the minutes of the session, and
    the usage collection is what that one record makes of the one of
    [db0]; unless the title service was cancelled on the transcript of the
    session: then the saving was given up with the log line
    [voice_save_error], no usage has been recorded and the usage collection
    is the one of [db0].  Either way the last frame says that the session
    has ended; the upstream socket is closed last, and it is the only
    close. *)
Definition session_completed (env : Env) (conversation_id : string) (db0 db' : Db)
    (t : list Event) : Prop :=
  ∃ u,
    caller env = Some u
    ∧ (if title_cancelled env (session_transcript env db0 u)
       then usage_records t = []
            ∧ FirestoreService.voice_usage db' = FirestoreService.voice_usage db0
            ∧ Log ERROR "voice_save_error" ∈ t
       else usage_records t = [(u, session_minutes env, conversation_id)]
            ∧ FirestoreService.voice_usage db'
              = FirestoreService.voice_usage
                  (FirestoreService.update_voice_usage db0 u (session_minutes env)
                     conversation_id (month_at_end env) (now_at_end env)))
    ∧ last (frames t) = Some (session_ended (Py.round (session_minutes env) 1))
    ∧ last t = Some GeminiClose
    ∧ closes t = [GeminiClose].

(** *** What the relay is given *)

(** The payload of a client message of the type [audio]. *)
Definition client_payload (ev : RelayEvent) : option string :=
  match ev with
  | Client (Item (Some d)) =>
      match voice.type d with
      | Some ty => if String.eqb ty "audio" then voice.data d else None
      | None => None
      end
  | _ => None
  end.

(** The audio payloads the client sends along a schedule, in order. *)
Definition client_audio (schedule : list RelayEvent) : list string :=
  omap client_payload schedule.

(** The fragment of a transcription: its role and text, when it has a
    text. *)
Definition transcription_fragment (role : string) (t : option (option string))
    : list (string * string) :=
  match t with
  | Some text => if Py.truthy (default "" text) then [(role, default "" text)] else []
  | None => []
  end.

(** The fragments an upstream message carries: of the user, then of the
    assistant. *)
Definition message_fragments (ev : RelayEvent) : list (string * string) :=
  match ev with
  | Gemini (Item (Some d, _)) =>
      transcription_fragment "user" (inputTranscription (server_content_of d))
      ++ transcription_fragment "assistant"
           (outputTranscription (server_content_of d))
  | _ => []
  end.

(** The fragments the upstream service sends along a schedule, in
    order. *)
Definition upstream_fragments (schedule : list RelayEvent) : list (string * string) :=
  concat (map message_fragments schedule).

(** An event that is not audio sent upstream. *)
Definition no_upstream_audio (e : Event) : Prop :=
  match e with
  | GeminiSend (realtime_input _) => False
  | _ => True
  end.

(** A short session: the client sends audio, the upstream service answers
    with the transcriptions of a turn, the client ends the session, and the
    other two tasks notice. *)
Definition short_session : list RelayEvent :=
  [Client (Item (Some (mkClientData (Some "audio") (Some "AAAA"))));
   Gemini (Item (Some (mkUpstreamData
                         (Some (mkServerContent None (Some (Some "I feel stuck"))
                                  (Some (Some "Tell me more.")) true)) []),
                 1030%Q));
   Client (Item (Some (mkClientData (Some "end_session") None)));
   Gemini (Item (Some audio_message, 1040%Q));
   Tick].

(** The connection of [connection], but with a title service that is
    cancelled. *)
Definition cancelled_title (tok uid : string) (reply : option (Q * Reply))
    (events : list RelayEvent) : Env :=
  let env := connection tok uid reply events in
  mkEnv (token env) (coach_id_param env) (verify_id_token env)
    (build_coach_prompt env) (connect env) (first_reply env) (session_start env)
    (session_end env) (schedule env) (fun _ => Raises CancelledError)
    (month_at_start env) (now_at_start env) (month_at_end env) (now_at_end env).

(** The connection of [connection], but with an upstream service that
    refuses the connection. *)
Definition unreachable (tok uid : string) : Env :=
  let env := connection tok uid None [] in
  mkEnv (token env) (coach_id_param env) (verify_id_token env)
    (build_coach_prompt env) (ConnectRaises (OtherError "InvalidStatusCode"))
    (first_reply env) (session_start env) (session_end env) (schedule env)
    (generate_voice_session_title env)
    (month_at_start env) (now_at_start env) (month_at_end env) (now_at_end env).

(** ** Transcript consolidation *)

Section consolidation.
Implicit Types (turns fragments : list (string * string)) (role text : string).

(** The step seen from the end of the list: the last turn absorbs a
    fragment of its role, another role opens a new turn. *)
Lemma consolidate_step_snoc turns last_role last_text role text :
  consolidate_step (turns ++ [(last_role, last_text)]) (role, text) =
    if String.eqb last_role role
    then turns ++ [(role, last_text +:+ text)]
    else turns ++ [(last_role, last_text); (role, text)].
Proof.
  unfold consolidate_step. rewrite last_snoc.
  destruct (String.eqb last_role role).
  - rewrite length_app. simpl.
    replace (length turns + 1 - 1)%nat with (length turns + 0)%nat by lia.
    rewrite insert_app_r. reflexivity.
  - rewrite <- app_assoc. reflexivity.
Qed.

Lemma consolidate_snoc fragments fragment :
  consolidate (fragments ++ [fragment]) =
    consolidate_step (consolidate fragments) fragment.
Proof. unfold consolidate. rewrite fold_left_app. reflexivity. Qed.

Lemma neighbours_differ_snoc (roles : list string) a b :
  neighbours_differ (roles ++ [a; b]) =
    neighbours_differ (roles ++ [a]) && negb (String.eqb a b).
Proof.
  induction roles as [|x roles IH].
  - simpl. destruct (String.eqb a b); reflexivity.
  - change ((x :: roles) ++ [a; b]) with (x :: (roles ++ [a; b])).
    change ((x :: roles) ++ [a]) with (x :: (roles ++ [a])).
    cbn [neighbours_differ]. rewrite IH.
    destruct roles as [|y roles]; simpl;
      repeat destruct (String.eqb _ _); reflexivity.
Qed.

Lemma no_adjacent_same_role_snoc turns a b :
  no_adjacent_same_role (turns ++ [a; b]) =
    no_adjacent_same_role (turns ++ [a]) && negb (String.eqb (fst a) (fst b)).
Proof.
  unfold no_adjacent_same_role. rewrite !fmap_app. simpl.
  apply neighbours_differ_snoc.
Qed.

Lemma no_adjacent_same_role_last_text turns role text text' :
  no_adjacent_same_role (turns ++ [(role, text)]) =
    no_adjacent_same_role (turns ++ [(role, text')]).
Proof. unfold no_adjacent_same_role. rewrite !fmap_app. reflexivity. Qed.

Lemma no_adjacent_same_role_init turns a :
  no_adjacent_same_role (turns ++ [a]) = true ->
  no_adjacent_same_role turns = true.
Proof.
  destruct turns as [|x turns _] using rev_ind; [reflexivity|].
  rewrite <- app_assoc. simpl. rewrite no_adjacent_same_role_snoc.
  intros H. apply andb_true_iff in H. tauto.
Qed.

(** The consolidation loop never leaves two neighbours with one role. *)
Lemma consolidate_no_adjacent fragments :
  no_adjacent_same_role (consolidate fragments) = true.
Proof.
  induction fragments as [|[role text] fragments IH] using rev_ind;
    [reflexivity|].
  rewrite consolidate_snoc.
  destruct (consolidate fragments) as [|[last_role last_text] turns _]
    using rev_ind; [reflexivity|].
  rewrite consolidate_step_snoc.
  destruct (String.eqb last_role role) eqn:E.
  - apply String.eqb_eq in E. subst last_role.
    rewrite (no_adjacent_same_role_last_text _ _ _ last_text). exact IH.
  - rewrite no_adjacent_same_role_snoc, IH. simpl. rewrite E. reflexivity.
Qed.

(** On turns that already alternate the loop changes nothing. *)
Lemma consolidate_fixpoint turns :
  no_adjacent_same_role turns = true -> consolidate turns = turns.
Proof.
  induction turns as [|[role text] turns IH] using rev_ind; [reflexivity|].
  intros H. rewrite consolidate_snoc.
  rewrite (IH (no_adjacent_same_role_init _ _ H)).
  destruct turns as [|[last_role last_text] turns _] using rev_ind;
    [reflexivity|].
  rewrite consolidate_step_snoc.
  rewrite <- app_assoc in H. simpl in H.
  rewrite no_adjacent_same_role_snoc in H.
  apply andb_true_iff in H. destruct H as [_ H]. simpl in H.
  apply negb_true_iff in H. rewrite H, <- app_assoc. reflexivity.
Qed.
End consolidation.

(** *** Runs *)

Lemma string_app_nil_r (s : string) : s +:+ "" = s.
Proof.
  induction s as [|c s IH]; [reflexivity|].
  change (String c (s +:+ "") = String c s). now rewrite IH.
Qed.

Lemma string_app_assoc (s t u : string) : (s +:+ t) +:+ u = s +:+ (t +:+ u).
Proof.
  induction s as [|c s IH]; [reflexivity|].
  change (String c ((s +:+ t) +:+ u) = String c (s +:+ (t +:+ u))).
  now rewrite IH.
Qed.

Lemma run_turn_snoc role (texts : list string) text :
  run_turn (role, texts ++ [text]) =
    (role, snd (run_turn (role, texts)) +:+ text).
Proof.
  unfold run_turn. simpl. f_equal.
  induction texts as [|t texts IH]; simpl.
  - apply string_app_nil_r.
  - rewrite IH. symmetry. apply string_app_assoc.
Qed.

Lemma runs_fragments_snoc (runs : list Run) (r : Run) :
  runs_fragments (runs ++ [r]) = runs_fragments runs ++ run_fragments r.
Proof.
  unfold runs_fragments. rewrite map_app, concat_app. simpl.
  now rewrite app_nil_r.
Qed.

(** The turns are the runs of the fragments: the fragments split, in order,
    into non-empty runs of one role each, neighbouring runs have different
    roles, and each turn is the concatenation of one run. *)
Lemma consolidate_runs (fragments : list (string * string)) :
  ∃ runs : list Run,
    runs_fragments runs = fragments
    ∧ Forall (fun r : Run => snd r ≠ []) runs
    ∧ neighbours_differ (runs.*1) = true
    ∧ consolidate fragments = map run_turn runs.
Proof.
  induction fragments as [|[role text] fragments IH] using rev_ind.
  - exists []. repeat split; constructor.
  - destruct IH as (runs & Hfrag & Hne & Hdiff & Hturns).
    rewrite consolidate_snoc, Hturns.
    destruct runs as [|[last_role texts] runs _] using rev_ind.
    + exists [(role, [text])]. simpl in Hfrag. subst fragments.
      repeat split; try reflexivity.
      * repeat constructor. discriminate.
      * simpl. unfold run_turn. simpl. now rewrite string_app_nil_r.
    + rewrite map_app. simpl map at 2.
      change (run_turn (last_role, texts))
        with (last_role, snd (run_turn (last_role, texts))).
      rewrite consolidate_step_snoc.
      destruct (String.eqb last_role role) eqn:E.
      * apply String.eqb_eq in E. subst last_role.
        exists (runs ++ [(role, texts ++ [text])]).
        repeat split.
        -- rewrite runs_fragments_snoc in *. rewrite <- Hfrag.
           unfold run_fragments. simpl. rewrite map_app, app_assoc. reflexivity.
        -- apply Forall_app in Hne. destruct Hne as [Hne _].
           apply Forall_app. split; [exact Hne|].
           repeat constructor. simpl. now destruct texts.
        -- rewrite fmap_app in *. exact Hdiff.
        -- rewrite map_app. simpl. now rewrite run_turn_snoc.
      * exists ((runs ++ [(last_role, texts)]) ++ [(role, [text])]).
        repeat split.
        -- rewrite runs_fragments_snoc. f_equal. exact Hfrag.
        -- apply Forall_app. split; [exact Hne|]. repeat constructor. discriminate.
        -- rewrite fmap_app in *. rewrite fmap_app in *. simpl in *.
           rewrite <- app_assoc. simpl.
           rewrite neighbours_differ_snoc, Hdiff, E. reflexivity.
        -- rewrite !map_app. simpl. rewrite <- app_assoc. simpl.
           unfold run_turn. simpl. now rewrite string_app_nil_r.
Qed.

(** C4. The consolidation loop merges each maximal run of adjacent
    fragments of one role into one turn, by concatenating the texts, and
    keeps the order of arrival; the scenario of the specification
    consolidates to a user turn followed by an assistant turn. *)
Theorem C4_consolidate_merges_runs :
  (∀ fragments : list (string * string),
      ∃ runs : list Run,
        runs_fragments runs = fragments
        ∧ Forall (fun r : Run => snd r ≠ []) runs
        ∧ neighbours_differ (runs.*1) = true
        ∧ consolidate fragments = map run_turn runs)
  ∧ consolidate [("user", "I feel stuck"); ("user", " at work");
                 ("assistant", "Tell me more")]
    = [("user", "I feel stuck at work"); ("assistant", "Tell me more")].
Proof.
  split; [exact consolidate_runs | reflexivity].
Qed.

(** C6. Consolidation is idempotent, and its result never has two adjacent
    turns with the same role. *)
Theorem C6_consolidate_idempotent_alternating (fragments : list (string * string)) :
  consolidate (consolidate fragments) = consolidate fragments
  ∧ no_adjacent_same_role (consolidate fragments) = true.
Proof.
  split.
  - apply consolidate_fixpoint, consolidate_no_adjacent.
  - apply consolidate_no_adjacent.
Qed.

(** ** Monthly usage record *)

Section usage.
Import FirestoreService.
Variables (db : Db) (uid : string) (duration_minutes : Q).
Variables (session_id current_month now : string).

Let db' := update_voice_usage db uid duration_minutes session_id current_month now.
Let session_entry := mkSessionEntry session_id (Py.round duration_minutes 2) now.

Lemma update_voice_usage_reset :
  no_current_record db uid current_month ->
  voice_usage db' !! uid =
    Some (mkVoiceUsage (Some duration_minutes) (Some [session_entry])
                       (Some current_month)).
Proof.
  unfold no_current_record, db', update_voice_usage. intros H.
  destruct (voice_usage db !! uid) as [data|].
  - destruct (decide (month data = Some current_month)); [contradiction|].
    simpl. apply lookup_insert_eq.
  - simpl. apply lookup_insert_eq.
Qed.

Lemma update_voice_usage_accumulate data :
  voice_usage db !! uid = Some data ->
  month data = Some current_month ->
  voice_usage db' !! uid =
    Some (mkVoiceUsage
            (Some (default 0 (monthlyMinutes data) + duration_minutes)%Q)
            (Some (default [] (sessions data) ++ [session_entry]))
            (Some current_month)).
Proof.
  unfold db', update_voice_usage. intros -> Hm.
  destruct (decide (month data = Some current_month)); [|contradiction].
  simpl. rewrite lookup_insert_eq, Hm. reflexivity.
Qed.

Lemma monthly_total_reset :
  no_current_record db uid current_month ->
  monthly_total db uid current_month = 0%Q
  ∧ monthly_total db' uid current_month = duration_minutes.
Proof.
  intros H. split.
  - unfold monthly_total, get_voice_usage. unfold no_current_record in H.
    destruct (voice_usage db !! uid) as [data|]; [|reflexivity].
    destruct (decide (month data = Some current_month)); [contradiction|].
    reflexivity.
  - unfold monthly_total, get_voice_usage.
    rewrite (update_voice_usage_reset H). simpl.
    destruct (decide (Some current_month = Some current_month)); [|contradiction].
    reflexivity.
Qed.

Lemma monthly_total_accumulate data :
  voice_usage db !! uid = Some data ->
  month data = Some current_month ->
  monthly_total db uid current_month = default 0%Q (monthlyMinutes data)
  ∧ monthly_total db' uid current_month
    = (default 0 (monthlyMinutes data) + duration_minutes)%Q.
Proof.
  intros Hd Hm. split.
  - unfold monthly_total, get_voice_usage. rewrite Hd.
    destruct (decide (month data = Some current_month)); [|contradiction].
    reflexivity.
  - unfold monthly_total, get_voice_usage.
    rewrite (update_voice_usage_accumulate _ Hd Hm). simpl.
    destruct (decide (Some current_month = Some current_month)); [|contradiction].
    reflexivity.
Qed.

Lemma monthly_total_monotone :
  (0 <= duration_minutes)%Q ->
  (monthly_total db uid current_month <= monthly_total db' uid current_month)%Q.
Proof.
  intros Hpos.
  destruct (voice_usage db !! uid) as [data|] eqn:Hd.
  - destruct (decide (month data = Some current_month)) as [Hm|Hm].
    + destruct (monthly_total_accumulate _ Hd Hm) as [-> ->].
      rewrite <- (Qplus_0_r (default 0%Q (monthlyMinutes data))) at 1.
      apply Qplus_le_compat; [apply Qle_refl | exact Hpos].
    + assert (no_current_record db uid current_month) as H
        by (unfold no_current_record; now rewrite Hd).
      destruct (monthly_total_reset H) as [-> ->]. exact Hpos.
  - assert (no_current_record db uid current_month) as H
      by (unfold no_current_record; now rewrite Hd).
    destruct (monthly_total_reset H) as [-> ->]. exact Hpos.
Qed.
End usage.

(** C3. At the end of a session the usage record of the user is replaced
    by a record holding this session alone when there is none for the
    current month, and otherwise gets the duration added and the session
    appended; so the total of the month does not decrease when the duration
    is not negative, and after a month rollover it is the duration of the
    latest session. *)
Theorem C3_update_voice_usage
    (db : FirestoreService.Db) (uid : string) (duration_minutes : Q)
    (session_id current_month now : string) :
  let db' := FirestoreService.update_voice_usage db uid duration_minutes
               session_id current_month now in
  let session_entry :=
    FirestoreService.mkSessionEntry session_id (Py.round duration_minutes 2) now in
  (no_current_record db uid current_month ->
     FirestoreService.voice_usage db' !! uid =
       Some (FirestoreService.mkVoiceUsage (Some duration_minutes)
               (Some [session_entry]) (Some current_month)))
  ∧ (∀ data,
       FirestoreService.voice_usage db !! uid = Some data ->
       FirestoreService.month data = Some current_month ->
       FirestoreService.voice_usage db' !! uid =
         Some (FirestoreService.mkVoiceUsage
                 (Some (default 0 (FirestoreService.monthlyMinutes data)
                        + duration_minutes)%Q)
                 (Some (default [] (FirestoreService.sessions data)
                        ++ [session_entry]))
                 (Some current_month)))
  ∧ ((0 <= duration_minutes)%Q ->
       (monthly_total db uid current_month
        <= monthly_total db' uid current_month)%Q)
  ∧ (no_current_record db uid current_month ->
       monthly_total db' uid current_month = duration_minutes).
Proof.
  intros db' session_entry. repeat split.
  - apply update_voice_usage_reset.
  - apply update_voice_usage_accumulate.
  - apply monthly_total_monotone.
  - intros H. apply (monthly_total_reset _ _ _ _ _ _ H).
Qed.

(** C3 on the January store: a session of 12 minutes in January does not
    lower the total, and the same session in February leaves 12. *)
Lemma C3_update_voice_usage_witness :
  (monthly_total usage_january "alice" "2026-01"
   <= monthly_total
        (FirestoreService.update_voice_usage usage_january "alice" 12
           "c7" "2026-01" "2026-01-20T10:00:00") "alice" "2026-01")%Q
  ∧ monthly_total
      (FirestoreService.update_voice_usage usage_january "alice" 12
         "c8" "2026-02" "2026-02-01T09:00:00") "alice" "2026-02" = 12%Q.
Proof.
  split.
  - apply (C3_update_voice_usage usage_january "alice" 12 "c7" "2026-01"
             "2026-01-20T10:00:00").
    vm_compute. discriminate.
  - apply (C3_update_voice_usage usage_january "alice" 12 "c8" "2026-02"
             "2026-02-01T09:00:00").
    vm_compute. discriminate.
Defined.

(** ** Reasoning about handler computations *)

Section preserves.
Context {S : Type} (P : S -> Prop) (Q : Event -> Prop).

Lemma preserves_ret {A} (a : A) : preserves P Q (ret a).
Proof. intros s Hs. simpl. auto. Qed.

Lemma preserves_raise {A} (e : Exn) : preserves P Q (raise (A:=A) e).
Proof. intros s Hs. simpl. auto. Qed.

Lemma preserves_return {A} : preserves P Q (return_ (A:=A)).
Proof. intros s Hs. simpl. auto. Qed.

Lemma preserves_gets {A} (f : S -> A) : preserves P Q (gets f).
Proof. intros s Hs. simpl. auto. Qed.

Lemma preserves_emit (e : Event) : Q e -> preserves P Q (emit e).
Proof. intros He s Hs. simpl. auto. Qed.

Lemma preserves_modify (f : S -> S) :
  (∀ s, P s -> P (f s)) -> preserves P Q (modify f).
Proof. intros Hf s Hs. simpl. auto. Qed.

Lemma preserves_bind {A B} (m : M S A) (k : A -> M S B) :
  preserves P Q m -> (∀ a, preserves P Q (k a)) -> preserves P Q (bind m k).
Proof.
  intros Hm Hk s Hs. unfold bind.
  specialize (Hm s Hs). destruct (m s) as [[o s1] t1]. simpl in Hm.
  destruct o as [a| |e]; simpl; try exact Hm.
  specialize (Hk a s1 (proj1 Hm)). destruct (k a s1) as [[o2 s2] t2].
  simpl in *. split; [tauto|]. apply Forall_app. tauto.
Qed.

Lemma preserves_bind_ret {A B} (a : A) (k : A -> M S B) :
  preserves P Q (k a) -> preserves P Q (bind (ret a) k).
Proof.
  intros Hk s Hs. unfold bind, ret. specialize (Hk s Hs).
  destruct (k a s) as [[o2 s2] t2]. exact Hk.
Qed.

Lemma preserves_when (c : bool) (body : M S unit) :
  (c = true -> preserves P Q body) -> preserves P Q (when c body).
Proof. destruct c; [auto|]. intros _. apply preserves_ret. Qed.

Lemma preserves_for {A} (xs : list A) (body : A -> M S unit) :
  (∀ x, preserves P Q (body x)) -> preserves P Q (for_ xs body).
Proof.
  intros Hbody. induction xs as [|x xs IH]; simpl.
  - apply preserves_ret.
  - apply preserves_bind; auto.
Qed.

Lemma preserves_try_except {A} (body : M S A) catches handler :
  preserves P Q body -> (∀ e, preserves P Q (handler e)) ->
  preserves P Q (try_except body catches handler).
Proof.
  intros Hb Hh s Hs. unfold try_except.
  specialize (Hb s Hs). destruct (body s) as [[o s1] t1]. simpl in Hb.
  destruct o as [a| |e]; simpl; try exact Hb.
  destruct (catches e); simpl; [|exact Hb].
  specialize (Hh e s1 (proj1 Hb)). destruct (handler e s1) as [[o2 s2] t2].
  simpl in *. split; [tauto|]. apply Forall_app. tauto.
Qed.

Lemma preserves_try_except2 {A} (body : M S A) c1 h1 c2 h2 :
  preserves P Q body -> (∀ e, preserves P Q (h1 e)) ->
  (∀ e, preserves P Q (h2 e)) ->
  preserves P Q (try_except2 body c1 h1 c2 h2).
Proof.
  intros Hb H1 H2. apply preserves_try_except; [exact Hb|].
  intros e. destruct (c1 e); auto.
Qed.

End preserves.

(** Take a computation apart along its binds, branches and loops; what is
    left are the events it emits and the updates it makes. *)
Ltac record_beta :=
  cbn beta zeta;
  cbn [serverContent other_keys modelTurn inputTranscription
       outputTranscription turnComplete voice.type voice.data from_option id].

Ltac preserve_step :=
  lazymatch goal with
  | |- preserves _ _ (ret _) => apply preserves_ret
  | |- preserves _ _ (raise _) => apply preserves_raise
  | |- preserves _ _ return_ => apply preserves_return
  | |- preserves _ _ (gets _) => apply preserves_gets
  | |- preserves _ _ (bind (ret _) _) => apply preserves_bind_ret; record_beta
  | |- preserves _ _ (bind (json_loads (Some _)) _) =>
      apply preserves_bind_ret; record_beta
  | |- preserves _ _ (bind _ _) => apply preserves_bind; [|intros ?]
  | |- preserves _ _ (when _ _) => apply preserves_when; intros ?
  | |- preserves _ _ (for_ _ _) => apply preserves_for; intros ?
  | |- preserves _ _ (try_except2 _ _ _ _ _) =>
      apply preserves_try_except2; [|intros ?|intros ?]
  | |- preserves _ _ (try_except _ _ _) =>
      apply preserves_try_except; [|intros ?]
  | |- preserves _ _ (emit _) => apply preserves_emit
  | |- preserves _ _ (send_json _) => apply preserves_emit
  | |- preserves _ _ (logger _ _) => apply preserves_emit
  | |- preserves _ _ (modify _) => apply preserves_modify; intros ? ?
  | |- preserves _ _ (json_loads ?x) => destruct x; unfold json_loads
  | |- preserves _ _ (match ?x with _ => _ end) => destruct x
  end.

Ltac preserve := repeat preserve_step.

(** ** The transcript sequence *)

Section transcript_invariant.
Variables (user : AuthenticatedUser) (session_start session_max_minutes : Q).

(** What is left after taking a task apart: a notice of remaining time
    has a text, and a transcription is appended and sent only when its
    text is true, hence not empty. *)
Local Ltac side :=
  try solve
    [ exact I
    | assumption
    | simpl; discriminate
    | match goal with
      | H : Py.truthy ?t = true |- _ =>
          unfold fragments_have_text in *; simpl;
          try (apply Forall_app; split; [assumption|];
               repeat constructor; simpl);
          intros Hempty; rewrite Hempty in H; discriminate H
      end ].

Lemma gemini_to_client_body_has_text msg now :
  preserves fragments_have_text transcript_has_text
    (gemini_to_client_body user session_start session_max_minutes msg now).
Proof.
  unfold gemini_to_client_body. preserve; side.
Qed.

Lemma gemini_to_client_has_text r :
  preserves fragments_have_text transcript_has_text
    (gemini_to_client user session_start session_max_minutes r).
Proof.
  unfold gemini_to_client. preserve; side.
  apply gemini_to_client_body_has_text.
Qed.

Lemma client_to_gemini_has_text r :
  preserves fragments_have_text transcript_has_text (client_to_gemini r).
Proof.
  unfold client_to_gemini, client_to_gemini_body. preserve; side.
Qed.

Lemma keep_alive_has_text :
  preserves fragments_have_text transcript_has_text keep_alive.
Proof. unfold keep_alive. preserve; side. Qed.

Lemma resume_has_text ev :
  preserves fragments_have_text transcript_has_text
    (resume user session_start session_max_minutes ev).
Proof.
  unfold resume. preserve; side.
  - apply client_to_gemini_has_text.
  - apply gemini_to_client_has_text.
  - apply keep_alive_has_text.
Qed.

Lemma gather_has_text schedule :
  preserves fragments_have_text transcript_has_text
    (gather user session_start session_max_minutes schedule).
Proof.
  induction schedule as [|ev schedule IH]; simpl; preserve; side.
  - apply resume_has_text.
Qed.
End transcript_invariant.

Local Ltac no_text_side :=
  try solve
    [ exact I
    | assumption
    | simpl; discriminate
    | simpl; intros _; unfold time_notice; tauto
    | unfold fragments_of in *; simpl; rewrite List.filter_app; simpl;
      rewrite app_nil_r; assumption
    | match goal with
      | H : Py.truthy (default "" ?t) = true |- _ =>
          destruct t; simpl in *; subst; simpl in *; congruence
      end ].

(** An input transcription without text adds no user fragment and sends no
    user transcript. *)
Lemma gemini_to_client_body_no_input_text
    (user : AuthenticatedUser) (session_start session_max_minutes : Q)
    (d : UpstreamData) (now : Q) (turns : list (string * string)) :
  no_text (inputTranscription (server_content_of d)) ->
  preserves (fun r => fragments_of "user" r = turns) not_user_transcript
    (gemini_to_client_body user session_start session_max_minutes (Some d) now).
Proof.
  destruct d as [[[parts input output complete]|] keys];
    unfold server_content_of; simpl; intros Hin;
    unfold gemini_to_client_body; preserve; no_text_side.
Qed.

(** An output transcription without text adds no assistant fragment, and
    the assistant transcripts sent are notices of remaining time. *)
Lemma gemini_to_client_body_no_output_text
    (user : AuthenticatedUser) (session_start session_max_minutes : Q)
    (d : UpstreamData) (now : Q) (turns : list (string * string)) :
  no_text (outputTranscription (server_content_of d)) ->
  preserves (fun r => fragments_of "assistant" r = turns)
    assistant_transcript_is_notice
    (gemini_to_client_body user session_start session_max_minutes (Some d) now).
Proof.
  destruct d as [[[parts input output complete]|] keys];
    unfold server_content_of; simpl; intros Hout;
    unfold gemini_to_client_body; preserve; no_text_side.
Qed.

(** C9. Every fragment of the transcript sequence has a text that is not
    empty, and so has every transcript frame sent to the client.  A message
    whose input transcription has an empty or absent text adds no user
    fragment and sends no user transcript; one whose output transcription
    has an empty or absent text adds no assistant fragment, and the only
    assistant transcripts sent for it are the notices of remaining time. *)
Theorem C9_fragments_have_text
    (user : AuthenticatedUser) (session_start session_max_minutes : Q) :
  (∀ schedule,
      let result := gather user session_start session_max_minutes schedule
                      relay_start in
      Forall (fun fragment : string * string => snd fragment ≠ "")
             (transcript_turns result.1.2)
      ∧ Forall transcript_has_text result.2)
  ∧ (∀ (r : Relay) (d : UpstreamData) (now : Q),
        no_text (inputTranscription (server_content_of d)) ->
        let result := gemini_to_client_body user session_start
                        session_max_minutes (Some d) now r in
        fragments_of "user" result.1.2 = fragments_of "user" r
        ∧ Forall not_user_transcript result.2)
  ∧ (∀ (r : Relay) (d : UpstreamData) (now : Q),
        no_text (outputTranscription (server_content_of d)) ->
        let result := gemini_to_client_body user session_start
                        session_max_minutes (Some d) now r in
        fragments_of "assistant" result.1.2 = fragments_of "assistant" r
        ∧ Forall assistant_transcript_is_notice result.2).
Proof.
  repeat apply conj.
  - intros schedule result.
    apply (gather_has_text user session_start session_max_minutes schedule).
    constructor.
  - intros r d now Hin result.
    now apply (gemini_to_client_body_no_input_text user session_start
                 session_max_minutes d now (fragments_of "user" r) Hin r).
  - intros r d now Hout result.
    now apply (gemini_to_client_body_no_output_text user session_start
                 session_max_minutes d now (fragments_of "assistant" r) Hout r).
Qed.

(** C9 at a message whose transcriptions carry no text: the transcript
    sequence stays empty. *)
Lemma C9_fragments_have_text_witness :
  let res := gemini_to_client_body free_alice 0 5 (Some silent_message) 60%Q
               relay_start in
  fragments_of "user" res.1.2 = []
  ∧ fragments_of "assistant" res.1.2 = []
  ∧ Forall not_user_transcript res.2.
Proof.
  destruct (C9_fragments_have_text free_alice 0 5) as (_ & Hin & Hout).
  destruct (Hin relay_start silent_message 60%Q eq_refl) as [Hu Hf].
  destruct (Hout relay_start silent_message 60%Q I) as [Ha _].
  auto.
Defined.

(** ** Saving the transcript *)

Lemma saved_messages_app (t1 t2 : list Event) :
  saved_messages (t1 ++ t2) = saved_messages t1 ++ saved_messages t2.
Proof. unfold saved_messages, writes. now rewrite !omap_app. Qed.

Section saves.
Context {S : Type}.

Lemma saves_bind {A B} (m : M S A) (k : A -> M S B) l1 l2 :
  saves m l1 -> (∀ a, saves (k a) l2) -> saves (bind m k) (l1 ++ l2).
Proof.
  intros Hm Hk s. unfold bind.
  destruct (Hm s) as [H1 [a Ha]]. destruct (m s) as [[o s1] t1].
  simpl in *. subst o.
  destruct (Hk a s1) as [H2 [b Hb]]. destruct (k a s1) as [[o2 s2] t2].
  simpl in *. subst o2. rewrite saved_messages_app, H1, H2. eauto.
Qed.

Lemma saves_log (lvl : Level) (key : string) : saves (S:=S) (logger lvl key) [].
Proof. intros s. simpl. eauto. Qed.

Lemma saves_ret {A} (a : A) : saves (S:=S) (ret a) [].
Proof. intros s. simpl. eauto. Qed.

(** A [try] that catches every exception always goes on, when its body
    does not return; it stores what the body stores when the handler
    stores nothing. *)
Lemma saves_try_base {A} (body : M S A) handler l :
  (∀ s, saved_messages (body s).2 = l ∧ (body s).1.1 ≠ Returned) ->
  (∀ e, saves (handler e) []) ->
  saves (try_except body BaseException handler) l.
Proof.
  intros Hb Hh s. unfold try_except. destruct (Hb s) as [Hsaved Hout].
  destruct (body s) as [[[a| |e] s1] t1]; cbn [fst snd] in *.
  - eauto.
  - contradiction.
  - cbn [BaseException]. destruct (Hh e s1) as [Hnone [a Ha]].
    destruct (handler e s1) as [[o s2] t2]. cbn [fst snd] in *. subst o.
    rewrite saved_messages_app, Hsaved, Hnone, app_nil_r. eauto.
Qed.
End saves.

Section save_transcripts.
Variables (env : Env) (user : AuthenticatedUser) (conversation_id : string).

Lemma saves_add_message role text now :
  saves (firestore.add_message conversation_id role text now) [(role, text)].
Proof. intros s. simpl. eauto. Qed.

(** The save loop stores the turns that are not blank, in order. *)
Lemma saves_loop (turns : list (string * string)) :
  saves (for_ turns (fun '(role, text) =>
           when (Py.strip_truthy text)
             (firestore.add_message conversation_id role text (now_at_end env))))
        (List.filter nonblank turns).
Proof.
  induction turns as [|[role text] turns IH]; [apply saves_ret|].
  cbn [for_ List.filter]. unfold nonblank at 1. cbn [snd].
  destruct (Py.strip_truthy text).
  - apply (saves_bind _ _ [(role, text)]); [apply saves_add_message|].
    intros _. exact IH.
  - apply (saves_bind _ _ []); [apply saves_ret|]. intros _. exact IH.
Qed.

(** After a part that always goes on, what a computation stores is what
    the part stores, then what the rest stores, however the rest ends. *)
Lemma stores_bind {A B} (m : M Db A) (k : A -> M Db B) l1 l2 :
  saves m l1 ->
  (∀ a s, saved_messages (k a s).2 = l2 ∧ (k a s).1.1 ≠ Returned) ->
  ∀ s, saved_messages (bind m k s).2 = l1 ++ l2 ∧ (bind m k s).1.1 ≠ Returned.
Proof.
  intros Hm Hk s. unfold bind.
  destruct (Hm s) as [H1 [a Ha]]. destruct (m s) as [[o s1] t1].
  simpl in *. subst o.
  destruct (Hk a s1) as [H2 Hout]. destruct (k a s1) as [[o2 s2] t2].
  simpl in *. now rewrite saved_messages_app, H1, H2.
Qed.

(** The title and the usage record store no message, whether the title
    service returns or raises. *)
Lemma stores_title_and_usage (turns : list (string * string)) d s :
  let rest :=
    when (negb (bool_decide (turns = [])))
      (try_except
         (match generate_voice_session_title env turns with
          | Returns title =>
              firestore.update_conversation_title conversation_id title ;;;
              logger INFO "voice_title_generated"
          | Raises e => raise e
          end)
         Exception
         (fun _ => logger ERROR "voice_title_error")) ;;;
    firestore.update_voice_usage (uid user) d conversation_id
      (month_at_end env) (now_at_end env) in
  saved_messages (rest s).2 = [] ∧ (rest s).1.1 ≠ Returned.
Proof.
  cbv zeta.
  unfold when, try_except, firestore.update_conversation_title,
    firestore.update_voice_usage, bind.
  destruct (negb (bool_decide (turns = []))); [|simpl; auto].
  destruct (generate_voice_session_title env turns) as [title|e]; simpl.
  - destruct (FirestoreService.update_conversation_title s conversation_id _);
      simpl; auto.
  - destruct (Exception e); simpl; auto.
Qed.

Lemma saves_save_transcripts duration_min fragments :
  saves (save_transcripts env user conversation_id duration_min fragments)
        (List.filter nonblank (consolidate fragments)).
Proof.
  assert (Hbody : ∀ s,
    let body :=
      logger INFO "voice_session_end" ;;;
      logger INFO "voice_transcripts_consolidated" ;;;
      for_ (consolidate fragments) (fun '(role, text) =>
        when (Py.strip_truthy text)
          (firestore.add_message conversation_id role text (now_at_end env))) ;;;
      logger INFO "voice_transcripts_saved" ;;;
      when (negb (bool_decide (consolidate fragments = [])))
        (try_except
           (match generate_voice_session_title env (consolidate fragments) with
            | Returns title =>
                firestore.update_conversation_title conversation_id title ;;;
                logger INFO "voice_title_generated"
            | Raises e => raise e
            end)
           Exception
           (fun _ => logger ERROR "voice_title_error")) ;;;
      firestore.update_voice_usage (uid user) duration_min conversation_id
        (month_at_end env) (now_at_end env) in
    saved_messages (body s).2 = List.filter nonblank (consolidate fragments)
    ∧ (body s).1.1 ≠ Returned).
  { cbv zeta.
    rewrite <- (app_nil_r (List.filter nonblank (consolidate fragments))).
    apply (stores_bind _ _ []); [apply saves_log|intros _].
    apply (stores_bind _ _ []); [apply saves_log|intros _].
    apply stores_bind; [apply saves_loop|intros _].
    apply (stores_bind _ _ []); [apply saves_log|intros _].
    apply stores_title_and_usage. }
  unfold save_transcripts. apply saves_try_base; [exact Hbody|].
  intros e. apply saves_log.
Qed.
End save_transcripts.

(** C5, counterexample: two user fragments around an assistant fragment
    that is a single space.  Consolidating them keeps three turns, and the
    turns stored are two user messages; dropping the blank fragment first
    would give one user turn. *)
Lemma C5_blank_fragment_separates_turns :
  let fragments := [("user", "a"); ("assistant", " "); ("user", "b")] in
  consolidate fragments ≠ consolidate (List.filter nonblank fragments)
  ∧ List.filter nonblank (consolidate fragments)
    ≠ consolidate (List.filter nonblank fragments).
Proof. vm_compute. split; discriminate. Qed.

(** C5 (amended). Nothing is dropped before the merge: the loop merges all
    fragments, and the turns whose merged text is empty or white space are
    left out afterwards, when the turns are stored; the stored messages are
    the turns of the whole sequence that are not blank, in order, so two
    fragments of one role around a blank fragment of the other role are
    stored as two messages. *)
Theorem C5_blank_turns_dropped_after_merge
    (env : Env) (user : AuthenticatedUser) (conversation_id : string)
    (duration_min : Q) (fragments : list (string * string))
    (db : FirestoreService.Db) :
  saved_messages
    (save_transcripts env user conversation_id duration_min fragments db).2
  = List.filter nonblank (consolidate fragments)
  ∧ List.filter nonblank
      (consolidate [("user", "a"); ("assistant", " "); ("user", "b")])
    = [("user", "a"); ("user", "b")].
Proof.
  split; [|reflexivity].
  apply (saves_save_transcripts env user conversation_id duration_min fragments db).
Qed.

(** ** The time limit of the upstream pump *)

Lemma error_frames_app (t1 t2 : list Event) :
  error_frames (t1 ++ t2) = error_frames t1 ++ error_frames t2.
Proof. unfold error_frames, frames. now rewrite omap_app, List.filter_app. Qed.

Section forwards.
Lemma forwards_ret {A} (a : A) : forwards (ret a).
Proof. intros r. exists a, r, []. auto. Qed.

Lemma forwards_gets {A} (f : Relay -> A) : forwards (gets f).
Proof. intros r. exists (f r), r, []. auto. Qed.

Lemma forwards_emit (e : Event) :
  match e with WsSendJson (error _) => False | _ => True end ->
  forwards (emit e).
Proof.
  intros He r. exists tt, r, [e]. repeat split.
  destruct e as [|f| | | | | | |]; try reflexivity.
  destruct f; try reflexivity. contradiction.
Qed.

Lemma forwards_modify (f : Relay -> Relay) :
  (∀ r, session_active (f r) = session_active r
        ∧ gemini_to_client_done (f r) = gemini_to_client_done r) ->
  forwards (modify f).
Proof. intros Hf r. exists tt, (f r), []. destruct (Hf r). auto. Qed.

Lemma forwards_bind {A B} (m : M Relay A) (k : A -> M Relay B) :
  forwards m -> (∀ a, forwards (k a)) -> forwards (bind m k).
Proof.
  intros Hm Hk r. unfold bind.
  destruct (Hm r) as (a & r1 & t1 & -> & Ha1 & Hd1 & He1).
  destruct (Hk a r1) as (b & r2 & t2 & -> & Ha2 & Hd2 & He2).
  exists b, r2, (t1 ++ t2). repeat split; try congruence.
  now rewrite error_frames_app, He1, He2.
Qed.

Lemma forwards_when (c : bool) (body : M Relay unit) :
  forwards body -> forwards (when c body).
Proof. destruct c; [auto|]. intros _. apply forwards_ret. Qed.

Lemma forwards_for {A} (xs : list A) (body : A -> M Relay unit) :
  Forall (fun x => forwards (body x)) xs -> forwards (for_ xs body).
Proof.
  induction 1 as [|x xs Hx _ IH]; simpl.
  - apply forwards_ret.
  - apply forwards_bind; auto.
Qed.

(** What comes after a forwarding step runs in a state with the same
    flags, after events without [error] frame. *)
Lemma bind_forwards {A B} (m : M Relay A) (k : A -> M Relay B) (r : Relay) :
  forwards m ->
  ∃ a r1 t1,
    session_active r1 = session_active r
    ∧ gemini_to_client_done r1 = gemini_to_client_done r
    ∧ error_frames t1 = []
    ∧ bind m k r = (let '(o, r2, t2) := k a r1 in (o, r2, t1 ++ t2)).
Proof.
  intros Hm. destruct (Hm r) as (a & r1 & t1 & Heq & Ha & Hd & He).
  exists a, r1, t1. repeat split; auto. unfold bind. rewrite Heq.
  now destruct (k a r1) as [[o r2] t2].
Qed.
End forwards.

Section ends.
Context {S A : Type} (R : Outcome A -> Prop).

Lemma ends_bind {B} (m : M S B) (k : B -> M S A) :
  R Returned -> (∀ e, R (Raised e)) -> (∀ b, ends R (k b)) ->
  ends R (bind m k).
Proof.
  intros Hret Hraise Hk s. unfold bind.
  destruct (m s) as [[[b| |e] s1] t1]; simpl; auto.
  specialize (Hk b s1). now destruct (k b s1) as [[o s2] t2].
Qed.

Lemma ends_ret (a : A) : R (Value a) -> ends (S:=S) R (ret a).
Proof. intros H s. exact H. Qed.

End ends.

Section time_limit.
Variables (user : AuthenticatedUser) (session_start session_max_minutes : Q).

Local Abbreviation pass :=
  (time_limit_pass user session_start session_max_minutes).

(** A forwarding step in front of a pass that obeys the limit gives a
    pass that obeys it. *)
Lemma time_limit_pass_bind {A} (m : M Relay A) (k : A -> M Relay Loop) now r :
  forwards m -> (∀ a r1, pass now r1 (k a r1)) -> pass now r (bind m k r).
Proof.
  intros Hm Hk.
  destruct (bind_forwards m k r Hm) as (a & r1 & t1 & Ha & Hd & He & ->).
  destruct (Hk a r1) as (t0 & He0 & Hd0 & H).
  destruct (k a r1) as [[o r2] t2]. simpl in *.
  exists (t1 ++ t0). rewrite error_frames_app, He, He0.
  simpl. split; [reflexivity|]. split; [congruence|].
  destruct (Py.ge _ _); destruct H as (-> & Hact & ->).
  - repeat split; auto. now rewrite app_assoc.
  - repeat split; congruence.
Qed.

Lemma time_limit_pass_bind_ret {A} (a : A) (k : A -> M Relay Loop) now r :
  pass now r (k a r) -> pass now r (bind (ret a) k r).
Proof.
  intros H. unfold bind, ret. now destruct (k a r) as [[o r2] t2].
Qed.

Lemma time_limit_pass_bind_gets {A} (f : Relay -> A) (k : A -> M Relay Loop)
    now r :
  pass now r (k (f r) r) -> pass now r (bind (gets f) k r).
Proof.
  intros H. unfold bind, gets. now destruct (k (f r) r) as [[o r2] t2].
Qed.

Lemma forwards_audio (parts : list Part) :
  Forall (fun part => inlineData part ≠ Some None) parts ->
  forwards (for_ parts (fun part =>
    match inlineData part with
    | Some inline =>
        modify incr_sent ;;;
        n <- gets audio_chunks_sent ;;
        match inline with
        | None => raise KeyError
        | Some audio_data =>
            when (n <=? 5)%nat (logger INFO "forwarding_audio_chunk") ;;;
            send_json (audio audio_data)
        end
    | None => ret tt
    end)).
Proof.
  intros Hparts. apply forwards_for.
  eapply Forall_impl; [exact Hparts|]. intros [[[data|]|]] Hpart; simpl.
  - apply forwards_bind; [now apply forwards_modify|intros _].
    apply forwards_bind; [apply forwards_gets|intros n].
    apply forwards_bind; [|intros _]; [apply forwards_when|];
      now apply forwards_emit.
  - contradiction.
  - apply forwards_ret.
Qed.

Lemma forwards_transcription role (t : option (option string)) :
  forwards
    match t with
    | Some t =>
        let text := default "" t in
        when (Py.truthy text)
          (modify (append_transcript (role, text)) ;;;
           send_json (transcript role text))
    | None => ret tt
    end.
Proof.
  destruct t as [t|]; [|apply forwards_ret].
  apply forwards_when, forwards_bind; [now apply forwards_modify|intros _].
  now apply forwards_emit.
Qed.

Lemma forwards_notice (remaining : Q) :
  forwards
    (if String.eqb (plan user) "free"
        && (Py.le (9 # 10) remaining && Py.le remaining (11 # 10))
     then send_json (transcript "assistant"
                       "[1 minute remaining in your free session]")
     else if String.eqb (plan user) "pro"
             && (Py.le (49 # 10) remaining && Py.le remaining (51 # 10))
     then send_json (transcript "assistant" "[5 minutes remaining in session]")
     else ret tt).
Proof.
  destruct (_ && _); [now apply forwards_emit|].
  destruct (_ && _); [now apply forwards_emit|apply forwards_ret].
Qed.

(** One pass over a decoded message with well-formed audio, entered
    while the session is active, obeys the time limit. *)
Lemma gemini_to_client_body_time_limit (d : UpstreamData) now r :
  session_active r = true -> audio_well_formed d ->
  pass now r (gemini_to_client_body user session_start session_max_minutes
                (Some d) now r).
Proof.
  intros Hactive Hwf. unfold gemini_to_client_body.
  apply time_limit_pass_bind_gets. rewrite Hactive. cbn [negb].
  apply time_limit_pass_bind_ret. cbv zeta.
  fold (server_content_of d).
  apply time_limit_pass_bind; [|intros _ r1].
  { now apply forwards_when, forwards_emit. }
  apply time_limit_pass_bind; [|intros _ r2].
  { destruct (modelTurn (server_content_of d)) as [parts|] eqn:Hparts.
    - apply forwards_audio, Hwf, Hparts.
    - apply forwards_ret. }
  apply time_limit_pass_bind; [apply forwards_transcription|intros _ r3].
  apply time_limit_pass_bind; [apply forwards_transcription|intros _ r4].
  apply time_limit_pass_bind; [|intros _ r5].
  { apply forwards_when, forwards_bind; [|intros _]; now apply forwards_emit. }
  unfold time_limit_pass, elapsed_minutes.
  destruct (Py.ge _ _).
  - exists []. repeat split.
  - match goal with
    | |- context [bind ?notice ?k r5] =>
        destruct (bind_forwards notice k r5 (forwards_notice _))
          as (a & r6 & t6 & Ha & Hd & He & ->)
    end.
    exists t6. simpl. rewrite app_nil_r. auto.
Qed.
End time_limit.

Lemma bind_value_inv {S A B} (m : M S A) (k : A -> M S B) s b s' t :
  bind m k s = (Value b, s', t) ->
  ∃ a s1 t1 t2,
    m s = (Value a, s1, t1) ∧ k a s1 = (Value b, s', t2) ∧ t = t1 ++ t2.
Proof.
  unfold bind. destruct (m s) as [[[a| |e] s1] t1]; try discriminate.
  destruct (k a s1) as [[o s2] t2] eqn:Hk. intros H. inversion H; subst.
  exists a, s1, t1, t2. auto.
Qed.

Section pump.
Variables (user : AuthenticatedUser) (session_start session_max_minutes : Q).

Local Abbreviation resume' := (resume user session_start session_max_minutes).
Local Abbreviation pump := (gemini_to_client user session_start session_max_minutes).

Lemma resume_running g r :
  gemini_to_client_done r = false -> resume' (Gemini g) r = pump g r.
Proof.
  intros H. unfold resume, bind, gets. rewrite H.
  now destruct (pump g r) as [[o r2] t2].
Qed.

Lemma resume_stopped g r :
  gemini_to_client_done r = true -> resume' (Gemini g) r = (Value tt, r, []).
Proof. intros H. unfold resume, bind, gets. now rewrite H. Qed.

(** The pump at a message that reaches the time-limit check. *)
Lemma pump_time_limit d now r :
  session_active r = true -> gemini_to_client_done r = false ->
  audio_well_formed d ->
  let res := pump (Item (Some d, now)) r in
  res.1.1 = Value tt
  ∧ if Py.ge (elapsed_minutes session_start now) session_max_minutes
    then (∃ t0, error_frames t0 = []
                ∧ res.2 = t0 ++ [WsSendJson (error (time_limit_message user))])
         ∧ session_active res.1.2 = false
         ∧ gemini_to_client_done res.1.2 = true
    else error_frames res.2 = []
         ∧ session_active res.1.2 = true
         ∧ gemini_to_client_done res.1.2 = false.
Proof.
  intros Hactive Hdone Hwf.
  destruct (gemini_to_client_body_time_limit user session_start
              session_max_minutes d now r Hactive Hwf) as (t0 & He & Hd & H).
  unfold gemini_to_client, try_except2, try_except, bind.
  destruct (gemini_to_client_body _ _ _ _ _ r) as [[o r2] t2].
  simpl in He, Hd, H.
  destruct (Py.ge _ _); destruct H as (-> & Hact & ->); simpl.
  - split; [reflexivity|]. split; [|auto].
    exists t0. now rewrite app_nil_r.
  - rewrite app_nil_r. repeat split; congruence.
Qed.

(** The loop continues only when the limit is not reached. *)
Lemma gemini_to_client_body_continue msg now :
  ends (fun o => o = Value Continue ->
                 Py.ge (elapsed_minutes session_start now) session_max_minutes
                 = false)
    (gemini_to_client_body user session_start session_max_minutes msg now).
Proof.
  unfold gemini_to_client_body, elapsed_minutes.
  repeat
    (first
       [ apply ends_ret
       | apply ends_bind; [|intros ?|intros ?]
       | match goal with
         | |- ends _ (match ?x with _ => _ end) => destruct x eqn:?
         end ];
     try (intros; congruence)).
Qed.
End pump.

Section readings.
Variables (user : AuthenticatedUser) (session_start session_max_minutes : Q).
Hypothesis positive_limit : (0 < session_max_minutes)%Q.

Local Abbreviation resume' := (resume user session_start session_max_minutes).
Local Abbreviation pump := (gemini_to_client user session_start session_max_minutes).

Local Ltac flags := try solve [exact I | simpl; assumption].

Lemma client_to_gemini_keeps_pump (b : bool) c :
  preserves (fun r => gemini_to_client_done r = b) (fun _ => True)
    (client_to_gemini c).
Proof. unfold client_to_gemini, client_to_gemini_body. preserve; flags. Qed.

Lemma keep_alive_keeps_pump (b : bool) :
  preserves (fun r => gemini_to_client_done r = b) (fun _ => True) keep_alive.
Proof. unfold keep_alive. preserve; flags. Qed.

Lemma gemini_to_client_body_keeps_pump (b : bool) msg now :
  preserves (fun r => gemini_to_client_done r = b) (fun _ => True)
    (gemini_to_client_body user session_start session_max_minutes msg now).
Proof. unfold gemini_to_client_body. preserve; flags. Qed.

(** A pump that is still running after a resumption was resumed with a
    message, and the limit was not reached at its check. *)
Lemma pump_still_running g r r' t :
  pump g r = (Value tt, r', t) ->
  gemini_to_client_done r' = false ->
  ∃ msg now,
    g = Item (msg, now)
    ∧ Py.ge (elapsed_minutes session_start now) session_max_minutes = false.
Proof.
  unfold gemini_to_client, try_except2, try_except.
  destruct g as [[msg now]| |e].
  - unfold bind.
    pose proof (gemini_to_client_body_continue user session_start
                  session_max_minutes msg now r) as Hc.
    destruct (gemini_to_client_body _ _ _ msg now r) as [[[[|]| |e] r2] t2];
      simpl in *.
    + intros [= <- <-] _. eauto.
    + intros [= <- <-]. discriminate.
    + discriminate.
    + destruct (is_ConnectionClosed e || Exception e); [|discriminate].
      destruct (is_ConnectionClosed e); simpl; intros [= <- <-]; discriminate.
  - simpl. intros [= <- <-]. discriminate.
  - simpl. destruct (is_ConnectionClosed e || Exception e); [|discriminate].
    destruct (is_ConnectionClosed e); simpl; intros [= <- <-]; discriminate.
Qed.

Lemma ge_false_lt (x y : Q) : Py.ge x y = false -> (x < y)%Q.
Proof.
  unfold Py.ge. intros H. apply Qnot_le_lt. intros Hle.
  apply Qle_bool_iff in Hle. congruence.
Qed.

Lemma resume_reading ev r r' t reading :
  (gemini_to_client_done r = false ->
   (elapsed_minutes session_start reading < session_max_minutes)%Q) ->
  resume' ev r = (Value tt, r', t) ->
  gemini_to_client_done r' = false ->
  (elapsed_minutes session_start (next_reading reading ev)
   < session_max_minutes)%Q.
Proof.
  intros Hinv Hres Hrun. destruct ev as [c|g|].
  - simpl. apply Hinv.
    unfold resume in Hres. apply bind_value_inv in Hres.
    destruct Hres as (finished & r1 & t1 & t2 & [= <- <- <-] & Hres & _).
    destruct (client_to_gemini_done r).
    + injection Hres as <- _. exact Hrun.
    + pose proof (client_to_gemini_keeps_pump (gemini_to_client_done r) c r
                    eq_refl) as [H _].
      rewrite Hres in H. simpl in H. congruence.
  - destruct (gemini_to_client_done r) eqn:Hd.
    + rewrite (resume_stopped _ _ _ g r Hd) in Hres.
      injection Hres as <- _. congruence.
    + rewrite (resume_running _ _ _ g r Hd) in Hres.
      destruct (pump_still_running g r r' t Hres Hrun) as (msg & now & -> & H).
      simpl. now apply ge_false_lt.
  - simpl. apply Hinv.
    unfold resume in Hres. apply bind_value_inv in Hres.
    destruct Hres as (finished & r1 & t1 & t2 & [= <- <- <-] & Hres & _).
    destruct (keep_alive_done r).
    + injection Hres as <- _. exact Hrun.
    + pose proof (keep_alive_keeps_pump (gemini_to_client_done r) r eq_refl)
        as [H _].
      rewrite Hres in H. simpl in H. congruence.
Qed.

(** While the pump runs, the last reading taken at its check is below the
    limit. *)
Lemma readings_below_limit schedule : ∀ r reading r' t,
  (gemini_to_client_done r = false ->
   (elapsed_minutes session_start reading < session_max_minutes)%Q) ->
  for_ schedule resume' r = (Value tt, r', t) ->
  gemini_to_client_done r' = false ->
  (elapsed_minutes session_start (fold_left next_reading schedule reading)
   < session_max_minutes)%Q.
Proof.
  induction schedule as [|ev schedule IH]; intros r reading r' t Hinv Hrun Hd.
  - injection Hrun as <- _. simpl. auto.
  - simpl in Hrun. apply bind_value_inv in Hrun.
    destruct Hrun as ([] & r1 & t1 & t2 & Hev & Hrest & _).
    simpl. apply (IH r1 _ r' t2); [|exact Hrest|exact Hd].
    intros Hd1. now apply (resume_reading ev r r1 t1).
Qed.

Lemma elapsed_start : (elapsed_minutes session_start session_start == 0)%Q.
Proof. unfold elapsed_minutes. field. Qed.

(** At an upstream message that finds the pump running, the minutes
    elapsed exceed the limit by less than the minutes since the last
    reading. *)
Lemma elapsed_within_one_interval schedule r t now :
  for_ schedule resume' relay_start = (Value tt, r, t) ->
  gemini_to_client_done r = false ->
  (elapsed_minutes session_start now
   < session_max_minutes
     + (now - last_reading session_start schedule) / 60)%Q.
Proof.
  intros Hrun Hd.
  pose proof (readings_below_limit schedule relay_start session_start r t)
    as H.
  unfold last_reading.
  set (last := fold_left next_reading schedule session_start) in *.
  assert (elapsed_minutes session_start last < session_max_minutes)%Q as Hlast.
  { apply H; auto. intros _. rewrite elapsed_start. exact positive_limit. }
  unfold elapsed_minutes in *. unfold Qdiv in *. lra.
Qed.
End readings.

Section gather.
Variables (user : AuthenticatedUser) (session_start session_max_minutes : Q).

Local Abbreviation resume' := (resume user session_start session_max_minutes).
Local Abbreviation gather' := (gather user session_start session_max_minutes).

Lemma resume_pump_stays_stopped ev :
  preserves (fun r => gemini_to_client_done r = true) (fun _ => True) (resume' ev).
Proof.
  unfold resume. preserve; try solve [exact I | simpl; assumption].
  - apply client_to_gemini_keeps_pump.
  - unfold gemini_to_client.
    preserve; try solve [exact I | reflexivity | simpl; assumption].
    apply gemini_to_client_body_keeps_pump.
  - apply keep_alive_keeps_pump.
Qed.

Lemma delivered_pump_stays_stopped schedule r r' t :
  for_ schedule resume' r = (Value tt, r', t) ->
  gemini_to_client_done r = true -> gemini_to_client_done r' = true.
Proof.
  intros Hrun Hd.
  pose proof (preserves_for _ (fun _ => True) schedule resume'
                resume_pump_stays_stopped r Hd) as [H _].
  now rewrite Hrun in H.
Qed.

(** While the pump runs, [gather] has handed every event of the schedule
    so far to its task. *)
Lemma gather_delivers pre : ∀ post r0 r t,
  for_ pre resume' r0 = (Value tt, r, t) ->
  gemini_to_client_done r = false ->
  gather' (pre ++ post) r0 =
    (let '(o, r2, t2) := gather' post r in (o, r2, t ++ t2)).
Proof.
  induction pre as [|ev pre IH]; intros post r0 r t Hrun Hd.
  - injection Hrun as <- <-. simpl. now destruct (gather' post r0) as [[o r2] t2].
  - assert (gemini_to_client_done r0 = false) as Hd0.
    { destruct (gemini_to_client_done r0) eqn:E; [|reflexivity].
      rewrite (delivered_pump_stays_stopped _ _ _ _ Hrun E) in Hd.
      discriminate. }
    cbn [for_] in Hrun. apply bind_value_inv in Hrun.
    destruct Hrun as ([] & r1 & t1 & t2 & Hev & Hrest & ->).
    change ((ev :: pre) ++ post) with (ev :: (pre ++ post)).
    cbn [gather]. unfold bind at 1. cbn [gets].
    rewrite Hd0, andb_false_r. cbn [andb].
    unfold bind. rewrite Hev. rewrite (IH post r1 r t2 Hrest Hd).
    destruct (gather' post r) as [[o r2] t3]. simpl.
    now rewrite app_assoc.
Qed.
End gather.

Lemma Forall_not_error (t : list Event) :
  Forall not_error t -> error_frames t = [].
Proof.
  induction 1 as [|e t He _ IH]; [reflexivity|].
  change (e :: t) with ([e] ++ t). rewrite error_frames_app, IH, app_nil_r.
  destruct e as [|f| | | | | | |]; try reflexivity.
  destruct f; try reflexivity. contradiction.
Qed.

Section one_error.
Variables (user : AuthenticatedUser) (session_start session_max_minutes : Q).

Local Abbreviation resume' := (resume user session_start session_max_minutes).
Local Abbreviation pump := (gemini_to_client user session_start session_max_minutes).
Local Abbreviation gather' := (gather user session_start session_max_minutes).
Local Abbreviation silent := (preserves (fun _ : Relay => True) not_error).

Lemma error_only_at_break_bind {A} (m : M Relay A) (k : A -> M Relay Loop) :
  silent m -> (∀ a, error_only_at_break (k a)) -> error_only_at_break (bind m k).
Proof.
  intros Hm Hk r. unfold bind.
  destruct (Hm r I) as [_ Ht]. apply Forall_not_error in Ht.
  destruct (m r) as [[[a| |e] r1] t1]; simpl in *; auto.
  specialize (Hk a r1). destruct (k a r1) as [[o r2] t2]. simpl in *.
  rewrite error_frames_app, Ht. exact Hk.
Qed.

Lemma gemini_to_client_body_one_error msg now :
  error_only_at_break
    (gemini_to_client_body user session_start session_max_minutes msg now).
Proof.
  unfold gemini_to_client_body.
  apply error_only_at_break_bind; [preserve|intros active].
  destruct (negb active); [intros r; now left|].
  apply error_only_at_break_bind; [preserve|intros data].
  apply error_only_at_break_bind; [preserve; exact I|intros _]. cbv zeta.
  apply error_only_at_break_bind; [preserve; exact I|intros _].
  apply error_only_at_break_bind; [preserve; exact I|intros _].
  apply error_only_at_break_bind; [preserve; exact I|intros _].
  apply error_only_at_break_bind; [preserve; exact I|intros _].
  destruct (Py.ge _ _).
  - intros r. right. split; [reflexivity|]. eexists. reflexivity.
  - apply error_only_at_break_bind; [|intros _ r; now left].
    destruct (_ && _); [preserve; exact I|].
    destruct (_ && _); preserve; exact I.
Qed.

(** One resumption of the pump sends no [error] frame, or one, and then
    the pump has returned. *)
Lemma pump_one_error g r :
  error_frames (pump g r).2 = []
  ∨ (gemini_to_client_done (pump g r).1.2 = true
     ∧ ∃ f, error_frames (pump g r).2 = [f]).
Proof.
  unfold gemini_to_client, try_except2, try_except.
  destruct g as [[msg now]| |e].
  - unfold bind.
    pose proof (gemini_to_client_body_one_error msg now r) as H.
    destruct (gemini_to_client_body _ _ _ msg now r) as [[[[|]| |e] r2] t2];
      simpl in *; rewrite ?app_nil_r.
    + destruct H as [H|[[=] _]]. now left.
    + destruct H as [H|[_ H]]; [now left|now right].
    + destruct H as [H|[[=] _]]. now left.
    + destruct H as [H|[[=] _]].
      destruct (is_ConnectionClosed e || Exception e); [|now left].
      destruct (is_ConnectionClosed e); simpl;
        rewrite error_frames_app, H; now left.
  - now left.
  - simpl. destruct (is_ConnectionClosed e || Exception e); [|now left].
    destruct (is_ConnectionClosed e); now left.
Qed.

Lemma client_to_gemini_silent c : silent (client_to_gemini c).
Proof.
  unfold client_to_gemini, client_to_gemini_body. preserve; exact I.
Qed.

Lemma keep_alive_silent : silent keep_alive.
Proof. unfold keep_alive. preserve; exact I. Qed.

(** One event of the schedule: no [error] frame, or one from the pump,
    which has then returned; a pump that had returned sends none. *)
Lemma resume_one_error ev r :
  (gemini_to_client_done r = true ->
     error_frames (resume' ev r).2 = []
     ∧ gemini_to_client_done (resume' ev r).1.2 = true)
  ∧ (error_frames (resume' ev r).2 = []
     ∨ (gemini_to_client_done (resume' ev r).1.2 = true
        ∧ ∃ f, error_frames (resume' ev r).2 = [f])).
Proof.
  assert (silent (resume' ev) -> error_frames (resume' ev r).2 = []) as Hsilent.
  { intros H. apply Forall_not_error, (H r I). }
  pose proof (resume_pump_stays_stopped user session_start session_max_minutes
                ev r) as Hstay.
  destruct ev as [c|g|].
  - assert (silent (resume' (Client c))) as H.
    { unfold resume. preserve; try exact I. apply client_to_gemini_silent. }
    split; [intros Hd; split; [auto|now apply Hstay]|left; auto].
  - destruct (gemini_to_client_done r) eqn:Hd.
    + rewrite (resume_stopped _ _ _ g r Hd). simpl. auto.
    + rewrite (resume_running _ _ _ g r Hd).
      split; [discriminate|apply pump_one_error].
  - assert (silent (resume' Tick)) as H.
    { unfold resume. preserve; try exact I. apply keep_alive_silent. }
    split; [intros Hd; split; [auto|now apply Hstay]|left; auto].
Qed.

Lemma gather_cons ev schedule r :
  gather' (ev :: schedule) r =
    if client_to_gemini_done r && gemini_to_client_done r && keep_alive_done r
    then (Value tt, r, [])
    else match resume' ev r with
         | (Value _, r1, t1) =>
             match gather' schedule r1 with
             | (o, r2, t2) => (o, r2, t1 ++ t2)
             end
         | (Returned, r1, t1) => (Returned, r1, t1)
         | (Raised e, r1, t1) => (Raised e, r1, t1)
         end.
Proof.
  cbn [gather]. unfold bind, gets.
  destruct (_ && _); [reflexivity|].
  destruct (resume' ev r) as [[[[]| |e] r1] t1]; try reflexivity.
  now destruct (gather' schedule r1) as [[o r2] t2].
Qed.

(** Over a whole schedule the relay sends at most one [error] frame. *)
Lemma gather_one_error schedule : ∀ r,
  (gemini_to_client_done r = true -> error_frames (gather' schedule r).2 = [])
  ∧ (length (error_frames (gather' schedule r).2) <= 1)%nat.
Proof.
  induction schedule as [|ev schedule IH]; intros r.
  - simpl. unfold bind, gets. cbn beta iota.
    destruct (_ && _); simpl; auto.
  - rewrite gather_cons.
    destruct (_ && _); [simpl; auto|].
    destruct (resume_one_error ev r) as [Hstopped Hone].
    destruct (resume' ev r) as [[[[]| |e] r1] t1]; cbn [fst snd] in *.
    + destruct (IH r1) as [IHstopped IHone].
      destruct (gather' schedule r1) as [[o r2] t2]. cbn [fst snd] in *.
      rewrite error_frames_app. split.
      * intros Hd. destruct (Hstopped Hd) as [-> Hd1]. auto.
      * destruct Hone as [->|(Hd1 & f & ->)]; [exact IHone|].
        rewrite (IHstopped Hd1). simpl. lia.
    + split; [intros Hd; now apply Hstopped|].
      destruct Hone as [->|(_ & f & ->)]; simpl; lia.
    + split; [intros Hd; now apply Hstopped|].
      destruct Hone as [->|(_ & f & ->)]; simpl; lia.
Qed.
End one_error.

Lemma voice_access_check_minutes (env : Env) (user : AuthenticatedUser) :
  ends (fun o => ∀ minutes, o = Value minutes ->
                 minutes = if String.eqb (plan user) "free" then 5%Q else 30%Q)
    (voice_access_check env user).
Proof.
  unfold voice_access_check.
  apply ends_bind; [discriminate|discriminate|]. intros _.
  apply ends_ret. now intros minutes [= <-].
Qed.




(** ** The gates of the handler *)

(** C10. The ownership check ends the connection exactly when the
    conversation exists and has a recorded owner who is not the user; then
    it sends the error [Forbidden] and closes, leaving the store as it was.
    A conversation that exists without a recorded owner passes the check,
    and nothing is sent or written. *)
Theorem C10_ownership_check
    (env : Env) (user : AuthenticatedUser)
    (conversation_id coach_id coach_name : string) (db : FirestoreService.Db) :
  let res := ownership_check env user conversation_id coach_id coach_name db in
  (res.1.1 = Returned <->
     FirestoreService.conversation_exists db conversation_id = true
     ∧ ∃ owner, FirestoreService.get_conversation_owner db conversation_id
                = Some owner
                ∧ owner ≠ uid user)
  ∧ (res.1.1 = Returned ->
       res.2 = [WsSendJson (error "Forbidden"); WsClose] ∧ res.1.2 = db)
  ∧ (FirestoreService.conversation_exists db conversation_id = true ->
     FirestoreService.get_conversation_owner db conversation_id = None ->
     res = (Value tt, db, [])).
Proof.
  unfold ownership_check, firestore.conversation_exists,
    firestore.get_conversation_owner, firestore.create_conversation.
  unfold bind, gets. cbn beta iota.
  destruct (FirestoreService.conversation_exists db conversation_id) eqn:Hex.
  - destruct (FirestoreService.get_conversation_owner db conversation_id)
      as [owner|] eqn:Hown.
    + destruct (String.eqb owner (uid user)) eqn:Heq; simpl.
      * apply String.eqb_eq in Heq. repeat split; try discriminate.
        intros (_ & owner' & [= <-] & Hne). contradiction.
      * apply String.eqb_neq in Heq. repeat split; try discriminate; eauto.
    + simpl. repeat split; try discriminate.
      intros (_ & owner' & [=] & _).
  - simpl. repeat split; try discriminate.
    intros ([=] & _).
Qed.

(** C10 for [carol]: her connection passes on the conversation without
    owner and is refused on the conversation of [alice]. *)
Lemma C10_ownership_check_witness :
  ownership_check (connection "tok" "carol" None []) (mkAuthenticatedUser "carol" "" "free")
    "c-unowned" "mira" "mira" conversations_db
  = (Value tt, conversations_db, [])
  ∧ (ownership_check (connection "tok" "carol" None [])
       (mkAuthenticatedUser "carol" "" "free")
       "c-alice" "mira" "mira" conversations_db).2
    = [WsSendJson (error "Forbidden"); WsClose].
Proof.
  split.
  - apply (C10_ownership_check (connection "tok" "carol" None [])
             (mkAuthenticatedUser "carol" "" "free") "c-unowned" "mira" "mira"
             conversations_db); reflexivity.
  - apply (C10_ownership_check (connection "tok" "carol" None [])
             (mkAuthenticatedUser "carol" "" "free") "c-alice" "mira" "mira"
             conversations_db).
    apply (C10_ownership_check (connection "tok" "carol" None [])
             (mkAuthenticatedUser "carol" "" "free") "c-alice" "mira" "mira"
             conversations_db).
    split; [reflexivity|]. exists "alice". split; [reflexivity|discriminate].
Defined.

(** C7. A user who is not on the free plan, a pro user in particular, is
    let in exactly when the minutes on record for the month are below 60,
    and is then granted 30 minutes whatever is left of the 60; otherwise
    the error about the monthly limit is sent and the connection closed. *)
Theorem C7_pro_access
    (env : Env) (user : AuthenticatedUser) (db : FirestoreService.Db) :
  plan user ≠ "free" ->
  let minutes := monthly_total db (uid user) (month_at_start env) in
  ((minutes < config.VOICE_MONTHLY_MINUTES_LIMIT)%Q ->
     voice_access_check env user db
     = (Value config.VOICE_SESSION_MAX_MINUTES, db, []))
  ∧ (¬ (minutes < config.VOICE_MONTHLY_MINUTES_LIMIT)%Q ->
       voice_access_check env user db
       = (Returned, db,
          [WsSendJson (error "Monthly voice limit reached (60 minutes). Resets next month.");
           WsClose]))
  ∧ config.VOICE_MONTHLY_MINUTES_LIMIT = 60%Q
  ∧ config.VOICE_SESSION_MAX_MINUTES = 30%Q.
Proof.
  intros Hplan minutes.
  apply String.eqb_neq in Hplan.
  unfold voice_access_check, firestore.get_voice_usage. rewrite Hplan.
  unfold bind, gets. cbn beta iota. fold (monthly_total db (uid user) (month_at_start env)).
  fold minutes. unfold Py.ge.
  destruct (Qle_bool config.VOICE_MONTHLY_MINUTES_LIMIT minutes) eqn:Hle; simpl.
  - apply Qle_bool_iff in Hle. repeat split; try reflexivity.
    intros Hlt. exfalso. now apply (Qlt_not_le _ _ Hlt).
  - repeat split; try reflexivity.
    intros Hge. exfalso. apply Hge. apply Qnot_le_lt. intros H.
    apply Qle_bool_iff in H. congruence.
Qed.

(** C7, the scenario of the specification: 58 minutes on record, the
    session is let in with 30 minutes. *)
Lemma C7_pro_access_witness :
  monthly_total usage_bob "bob" "2026-01" = 58%Q
  ∧ voice_access_check (connection "tok" "bob" None []) pro_bob usage_bob
    = (Value 30%Q, usage_bob, []).
Proof.
  split; [reflexivity|].
  apply (C7_pro_access (connection "tok" "bob" None []) pro_bob usage_bob).
  - discriminate.
  - reflexivity.
Defined.

(** ** The free trial *)

Section trial_flag.
Import FirestoreService.
Variable u : string.

Local Abbreviation used := (fun db => is_voice_trial_used db u = true).

Lemma set_merge_keeps_flag db uid f :
  (∀ d, freeVoiceTrialUsed d = Some true -> freeVoiceTrialUsed (f d) = Some true) ->
  is_voice_trial_used db u = true ->
  is_voice_trial_used (set_merge_subscription db uid f) u = true.
Proof.
  unfold is_voice_trial_used, set_merge_subscription. simpl. intros Hf Hu.
  destruct (decide (uid = u)) as [->|Hne].
  - rewrite lookup_insert_eq.
    destruct (subscription db !! u) as [d|]; [|discriminate].
    rewrite Hf; [reflexivity|].
    destruct (freeVoiceTrialUsed d) as [[|]|]; try discriminate. reflexivity.
  - now rewrite lookup_insert_ne.
Qed.

Lemma mark_sets_flag db : is_voice_trial_used (mark_voice_trial_used db u) u = true.
Proof.
  unfold is_voice_trial_used, mark_voice_trial_used, set_merge_subscription.
  simpl. now rewrite lookup_insert_eq.
Qed.

Lemma mark_keeps_flag db uid :
  used db -> used (mark_voice_trial_used db uid).
Proof. apply set_merge_keeps_flag. auto. Qed.

Lemma update_subscription_keeps_flag db uid plan' :
  used db -> used (update_subscription db uid plan').
Proof. apply set_merge_keeps_flag. auto. Qed.

Lemma increment_daily_message_count_keeps_flag db uid today :
  used db -> used (increment_daily_message_count db uid today).
Proof. apply set_merge_keeps_flag. auto. Qed.

Lemma add_message_keeps_flag db cid role' content' now :
  used db -> used (add_message db cid role' content' now).
Proof.
  unfold add_message. simpl.
  destruct (conversations db !! cid); auto.
Qed.

Lemma update_conversation_title_keeps_flag db cid title' db' :
  update_conversation_title db cid title' = Some db' -> used db -> used db'.
Proof.
  unfold update_conversation_title.
  destruct (conversations db !! cid); [|discriminate]. now intros [= <-].
Qed.

Lemma update_voice_usage_keeps_flag db uid d sid m now :
  used db -> used (update_voice_usage db uid d sid m now).
Proof.
  unfold update_voice_usage.
  destruct (voice_usage db !! uid) as [data|]; auto.
  destruct (decide (month data = Some m)); auto.
Qed.
End trial_flag.

Section trial_flag_session.
Variable u : string.

Local Abbreviation used :=
  (fun db => FirestoreService.is_voice_trial_used db u = true).
Local Abbreviation any := (fun _ : Event => True).

Local Ltac frame := try solve [exact I | assumption].

Lemma update_conversation_title_used cid title :
  preserves used any (firestore.update_conversation_title cid title).
Proof.
  intros s Hs. unfold firestore.update_conversation_title, bind, emit, gets, id.
  cbn beta iota.
  destruct (FirestoreService.update_conversation_title s cid title) as [db'|]
    eqn:Hup; simpl.
  - split; [|repeat constructor].
    now apply (update_conversation_title_keeps_flag u s cid title db').
  - split; [exact Hs|repeat constructor].
Qed.

Lemma authenticate_used env : preserves used any (authenticate env).
Proof.
  unfold authenticate, auth.verify_ws_token, auth._verify_token,
    firestore.get_about_me, firestore.get_subscription.
  preserve; frame.
Qed.

Lemma voice_access_check_used env user :
  preserves used any (voice_access_check env user).
Proof.
  unfold voice_access_check, firestore.is_voice_trial_used,
    firestore.mark_voice_trial_used, firestore.get_voice_usage.
  preserve; frame. now apply mark_keeps_flag.
Qed.

Lemma coach_prompt_used env user : preserves used any (coach_prompt env user).
Proof. unfold coach_prompt, firestore.get_coach. preserve; frame. Qed.

Lemma ownership_check_used env user cid coach_id coach_name :
  preserves used any (ownership_check env user cid coach_id coach_name).
Proof.
  unfold ownership_check, firestore.conversation_exists,
    firestore.get_conversation_owner, firestore.create_conversation.
  preserve; frame.
Qed.

Lemma connect_gemini_used env : preserves used any (connect_gemini env).
Proof. unfold connect_gemini. preserve; frame. Qed.

Lemma setup_handshake_used env prompt voice :
  preserves used any (setup_handshake env prompt voice).
Proof. unfold setup_handshake, wait_for_recv. preserve; frame. Qed.

Lemma proxy_used env user minutes : preserves used any (proxy env user minutes).
Proof.
  unfold proxy. preserve; frame.
  intros s Hs. unfold nested.
  destruct (gather _ _ _ _ _) as [[o r] t]. simpl. split; [exact Hs|].
  apply Forall_forall. auto.
Qed.

Lemma save_transcripts_used env user cid d fragments :
  preserves used any (save_transcripts env user cid d fragments).
Proof.
  unfold save_transcripts, firestore.add_message, firestore.update_voice_usage.
  preserve; frame.
  - now apply add_message_keeps_flag.
  - apply update_conversation_title_used.
  - now apply update_voice_usage_keeps_flag.
Qed.

Lemma voice_session_used env cid : preserves used any (voice_session env cid).
Proof.
  unfold voice_session.
  preserve; frame;
    auto using authenticate_used, voice_access_check_used, coach_prompt_used,
      ownership_check_used, connect_gemini_used, setup_handshake_used,
      proxy_used, save_transcripts_used.
Qed.
End trial_flag_session.

Lemma bind_value {S A B} (m : M S A) (k : A -> M S B) s a s1 t1 :
  m s = (Value a, s1, t1) ->
  bind m k s = (let '(o, s2, t2) := k a s1 in (o, s2, t1 ++ t2)).
Proof. intros H. unfold bind. rewrite H. now destruct (k a s1) as [[o s2] t2]. Qed.

Lemma bind_returned {S A B} (m : M S A) (k : A -> M S B) s s1 t1 :
  m s = (Returned, s1, t1) -> bind m k s = (Returned, s1, t1).
Proof. intros H. unfold bind. now rewrite H. Qed.

Section free_trial.
Variables (env : Env) (conversation_id : string) (db : FirestoreService.Db).
Variable u : string.
Hypothesis free : free_user env db u.

Lemma authenticate_free :
  authenticate env db
  = (Value (mkAuthenticatedUser u (FirestoreService.get_about_me db u) "free"),
     db, []).
Proof.
  destruct free as (tok & Htok & Htruthy & Hver & Hplan).
  unfold authenticate, try_except, auth.verify_ws_token.
  rewrite Htok, Htruthy. unfold auth._verify_token. rewrite Hver.
  unfold bind, firestore.get_about_me, firestore.get_subscription, gets, ret.
  cbn beta iota. now rewrite Hplan.
Qed.

Lemma voice_access_check_free_denied about :
  FirestoreService.is_voice_trial_used db u = true ->
  voice_access_check env (mkAuthenticatedUser u about "free") db
  = (Returned, db, [WsSendJson (error trial_used_message); WsClose]).
Proof.
  intros Hused. unfold voice_access_check, firestore.is_voice_trial_used.
  cbn [plan uid String.eqb Ascii.eqb Bool.eqb andb]. 
  unfold bind, gets. cbn beta iota. now rewrite Hused.
Qed.

Lemma voice_access_check_free_granted about :
  FirestoreService.is_voice_trial_used db u = false ->
  voice_access_check env (mkAuthenticatedUser u about "free") db
  = (Value FREE_VOICE_TRIAL_MINUTES,
     FirestoreService.mark_voice_trial_used db u,
     [Firestore (mark_voice_trial_used u)]).
Proof.
  intros Hused. unfold voice_access_check, firestore.is_voice_trial_used,
    firestore.mark_voice_trial_used.
  cbn [plan uid String.eqb Ascii.eqb Bool.eqb andb].
  unfold bind, gets. cbn beta iota. now rewrite Hused.
Qed.

(** A connection of a free user is either turned away at once, the flag
    being set, or marks the trial as used before anything else. *)
Lemma run_free :
  let res := run env conversation_id db in
  (FirestoreService.is_voice_trial_used db u = true
   ∧ res = (Returned, db,
            [WsAccept; WsSendJson (error trial_used_message); WsClose]))
  ∨ (FirestoreService.is_voice_trial_used db u = false
     ∧ FirestoreService.is_voice_trial_used res.1.2 u = true
     ∧ ∃ t, res.2 = WsAccept :: Firestore (mark_voice_trial_used u) :: t).
Proof.
  unfold run, voice_session.
  rewrite (bind_value (emit WsAccept) _ db tt db [WsAccept] eq_refl).
  rewrite (bind_value _ _ _ _ _ _ authenticate_free).
  destruct (FirestoreService.is_voice_trial_used db u) eqn:Hused.
  - left. split; [reflexivity|].
    now rewrite (bind_returned _ _ _ _ _ (voice_access_check_free_denied _ Hused)).
  - right. split; [reflexivity|].
    rewrite (bind_value _ _ _ _ _ _ (voice_access_check_free_granted _ Hused)).
    match goal with
    | |- context [bind (coach_prompt env ?user) ?k] =>
        assert (preserves
                  (fun db => FirestoreService.is_voice_trial_used db u = true)
                  (fun _ => True) (bind (coach_prompt env user) k)) as Hrest
    end.
    { preserve; try solve [exact I | assumption];
        auto using coach_prompt_used, ownership_check_used, connect_gemini_used,
          setup_handshake_used, proxy_used, save_transcripts_used. }
    specialize (Hrest _ (mark_sets_flag u db)).
    match goal with
    | H : context [bind (coach_prompt env ?user) ?k ?s] |- _ =>
        destruct (bind (coach_prompt env user) k s) as [[o db'] t]
    end.
    simpl in *. split; [tauto|]. eauto.
Qed.
End free_trial.

Lemma apply_ops_used (u : string) (ops : list StoreOp) : ∀ db,
  FirestoreService.is_voice_trial_used db u = true ->
  FirestoreService.is_voice_trial_used (apply_ops db ops) u = true.
Proof.
  induction ops as [|op ops IH]; intros db Hused; [exact Hused|].
  apply IH. destruct op as [env cid|uid plan'|uid today]; simpl.
  - apply (voice_session_used u env cid db Hused).
  - now apply update_subscription_keeps_flag.
  - now apply increment_daily_message_count_keeps_flag.
Qed.

(** C1. A connection of a free user reaches the upstream service only if
    the trial flag was not set, and the flag is written before the access
    token is asked for or the upstream socket opened; whatever happens to
    that connection, the flag is set when the handler is done, and it stays
    set under every later write to the store; so every later connection of
    the same user, still on the free plan, is turned away with the error
    frame and a close, and nothing else. *)
Theorem C1_free_trial_once
    (env : Env) (conversation_id : string) (db : FirestoreService.Db)
    (u : string) :
  free_user env db u ->
  let res := run env conversation_id db in
  ((GoogleAccessToken ∈ res.2 ∨ GeminiConnect ∈ res.2) ->
     FirestoreService.is_voice_trial_used db u = false)
  ∧ (∀ pre post, res.2 = pre ++ GoogleAccessToken :: post ->
       Firestore (mark_voice_trial_used u) ∈ pre)
  ∧ (∀ pre post, res.2 = pre ++ GeminiConnect :: post ->
       Firestore (mark_voice_trial_used u) ∈ pre)
  ∧ FirestoreService.is_voice_trial_used res.1.2 u = true
  ∧ (∀ ops env2 conversation_id2,
       let db2 := apply_ops res.1.2 ops in
       free_user env2 db2 u ->
       run env2 conversation_id2 db2
       = (Returned, db2,
          [WsAccept; WsSendJson (error trial_used_message); WsClose])).
Proof.
  intros Hfree res.
  assert (FirestoreService.is_voice_trial_used res.1.2 u = true) as Hafter.
  { destruct (run_free env conversation_id db u Hfree) as [[Hused Hres]|(_ & H & _)].
    - subst res. now rewrite Hres.
    - exact H. }
  assert (∀ x pre post,
             (x = GoogleAccessToken ∨ x = GeminiConnect) ->
             res.2 = pre ++ x :: post ->
             FirestoreService.is_voice_trial_used db u = false
             ∧ Firestore (mark_voice_trial_used u) ∈ pre) as Hbefore.
  { intros x pre post Hx Hsplit.
    destruct (run_free env conversation_id db u Hfree)
      as [[Hused Hres]|(Hunused & _ & t & Ht)]; fold res in Hres || fold res in Ht.
    - rewrite Hres in Hsplit. simpl in Hsplit.
      destruct pre as [|a [|b [|c [|d pre]]]]; simpl in Hsplit;
        injection Hsplit; intros; subst; destruct Hx; discriminate.
    - split; [exact Hunused|]. rewrite Ht in Hsplit.
      destruct pre as [|a [|b pre]]; simpl in Hsplit;
        injection Hsplit; intros; subst; try (destruct Hx; discriminate).
      apply elem_of_cons. right. apply elem_of_cons. now left. }
  repeat apply conj.
  - intros [H|H]; apply list_elem_of_split in H; destruct H as (pre & post & H).
    + now apply (Hbefore _ pre post (or_introl eq_refl) H).
    + now apply (Hbefore _ pre post (or_intror eq_refl) H).
  - intros pre post H. now apply (Hbefore _ pre post (or_introl eq_refl) H).
  - intros pre post H. now apply (Hbefore _ pre post (or_intror eq_refl) H).
  - exact Hafter.
  - intros ops env2 conversation_id2 db2 Hfree2.
    pose proof (apply_ops_used u ops _ Hafter) as Hused2. fold db2 in Hused2.
    destruct (run_free env2 conversation_id2 db2 u Hfree2)
      as [[_ Hres]|(Hunused & _)]; [exact Hres|congruence].
Qed.

Lemma free_user_alice (events : list RelayEvent) (db : FirestoreService.Db) :
  default "free" (FirestoreService.plan
                    (FirestoreService.get_subscription db "alice")) = "free" ->
  free_user (connection "tok" "alice" None events) db "alice".
Proof. intros H. exists "tok". repeat split. exact H. Qed.

(** C1 for [alice] on an empty store: her first connection sets the flag
    although the upstream service never answers, her second is turned
    away. *)
Lemma C1_free_trial_once_witness :
  let first := run (connection "tok" "alice" None []) "c1" FirestoreService.empty in
  FirestoreService.is_voice_trial_used first.1.2 "alice" = true
  ∧ run (connection "tok" "alice" None []) "c2" first.1.2
    = (Returned, first.1.2,
       [WsAccept; WsSendJson (error trial_used_message); WsClose]).
Proof.
  intros first.
  assert (free_user (connection "tok" "alice" None []) FirestoreService.empty
            "alice") as Hfree
    by (apply free_user_alice; vm_compute; reflexivity).
  destruct (C1_free_trial_once (connection "tok" "alice" None []) "c1"
              FirestoreService.empty "alice" Hfree)
    as (_ & _ & _ & Hset & Hlater).
  split; [exact Hset|].
  apply (Hlater [] (connection "tok" "alice" None []) "c2").
  apply free_user_alice. vm_compute. reflexivity.
Defined.

(** ** The upstream handshake *)

Section handshake.
Variables (env : Env) (system_prompt voice_name : string).
Variable db : FirestoreService.Db.

(** No reply within the 10 seconds: one error frame, both sockets closed,
    and the handler returns. *)
Lemma setup_handshake_timeout :
  match first_reply env with
  | Some (delay, _) => (SETUP_TIMEOUT <= delay)%Q
  | None => True
  end ->
  setup_handshake env system_prompt voice_name db
  = (Returned, db,
     [GeminiSend (setup system_prompt voice_name);
      Log ERROR "gemini_setup_timeout";
      WsSendJson (error "Voice service timed out during setup");
      WsClose; GeminiClose]).
Proof.
  unfold setup_handshake, wait_for_recv.
  destruct (first_reply env) as [[delay reply]|]; intros H.
  - apply Qle_bool_iff in H. unfold bind, try_except, emit. cbn beta iota.
    now rewrite H.
  - reflexivity.
Qed.

(** A JSON reply in time lets the handshake pass, acknowledged or not. *)
Lemma setup_handshake_reply delay keys :
  first_reply env = Some (delay, ReplyText (Some keys)) ->
  (delay < SETUP_TIMEOUT)%Q ->
  setup_handshake env system_prompt voice_name db
  = (Value tt, db,
     [GeminiSend (setup system_prompt voice_name);
      if bool_decide ("setupComplete" ∈ keys)
      then Log INFO "gemini_setup_complete"
      else Log WARNING "unexpected_setup_response"]).
Proof.
  intros Hreply Hlt. unfold setup_handshake, wait_for_recv. rewrite Hreply.
  assert (Qle_bool SETUP_TIMEOUT delay = false) as ->.
  { destruct (Qle_bool SETUP_TIMEOUT delay) eqn:E; [|reflexivity].
    apply Qle_bool_iff in E. exfalso. now apply (Qlt_not_le _ _ Hlt). }
  cbv [bind try_except emit ret json_loads].
  destruct (bool_decide ("setupComplete" ∈ keys)); reflexivity.
Qed.

(** An upstream socket that fails during the wait: the exception leaves
    the handler after the setup frame, nothing is sent to the client and
    no socket is closed. *)
Lemma setup_handshake_connection_closed delay :
  first_reply env = Some (delay, ReplyRaises ConnectionClosed) ->
  (delay < SETUP_TIMEOUT)%Q ->
  setup_handshake env system_prompt voice_name db
  = (Raised ConnectionClosed, db, [GeminiSend (setup system_prompt voice_name)]).
Proof.
  intros Hreply Hlt. unfold setup_handshake, wait_for_recv. rewrite Hreply.
  assert (Qle_bool SETUP_TIMEOUT delay = false) as ->.
  { destruct (Qle_bool SETUP_TIMEOUT delay) eqn:E; [|reflexivity].
    apply Qle_bool_iff in E. exfalso. now apply (Qlt_not_le _ _ Hlt). }
  reflexivity.
Qed.
End handshake.

(** The scenario of the specification: the upstream service is reached and
    never answers.  The client gets one error frame, both sockets are
    closed, nothing is stored. *)
Lemma run_setup_timeout :
  let res := run (connection "tok" "alice" None []) "c1" FirestoreService.empty in
  res.1.1 = Returned
  ∧ error_frames res.2 = [error "Voice service timed out during setup"]
  ∧ closes res.2 = [WsClose; GeminiClose]
  ∧ saved_messages res.2 = []
  ∧ FirestoreService.messages res.1.2 = ∅.
Proof. vm_compute. repeat split. Qed.

(** C8, at the failing input: the upstream service accepts the connection
    and the setup frame and drops the connection two seconds later.  The
    handler ends with the exception; the client gets no error frame and the
    handler closes neither socket. *)
Theorem C8_connection_closed_during_setup :
  let res := run (connection "tok" "alice" (Some (2%Q, ReplyRaises ConnectionClosed)) [])
               "c1" FirestoreService.empty in
  res.1.1 = Raised ConnectionClosed
  ∧ error_frames res.2 = []
  ∧ closes res.2 = []
  ∧ last res.2 = Some (GeminiSend (setup ("You are Mira." +:+ voice_rules) "Aoede")).
Proof. vm_compute. repeat split. Qed.

(** * The store, the REST handlers and the course of a connection *)

(** ** The document store *)

Lemma prefix_length n s : String.length (Py.prefix n s) <= n.
Proof.
  unfold Py.prefix. revert s. induction n as [|n IH]; intros [|c s]; simpl; try lia.
  specialize (IH s). lia.
Qed.

Lemma prefix_is_prefix n s : String.prefix (Py.prefix n s) s = true.
Proof.
  unfold Py.prefix. revert s. induction n as [|n IH]; intros [|c s]; simpl; auto.
  destruct (Ascii.ascii_dec c c); [apply IH | congruence].
Qed.

Lemma daily_count_ext db1 db2 uid day :
  FirestoreService.subscription db1 = FirestoreService.subscription db2 ->
  FirestoreService.get_daily_message_count db1 uid day
  = FirestoreService.get_daily_message_count db2 uid day.
Proof. unfold FirestoreService.get_daily_message_count. now intros ->. Qed.

Lemma daily_count_increment db uid today :
  FirestoreService.get_daily_message_count
    (FirestoreService.increment_daily_message_count db uid today) uid today
  = (FirestoreService.get_daily_message_count db uid today + 1)%Z.
Proof.
  unfold FirestoreService.increment_daily_message_count,
    FirestoreService.get_daily_message_count,
    FirestoreService.set_merge_subscription.
  simpl. rewrite lookup_insert_eq. simpl.
  rewrite decide_True by reflexivity. simpl.
  destruct (FirestoreService.subscription db !! uid) as [d|]; [|reflexivity].
  destruct (decide (FirestoreService.lastMessageDate d = Some today)); reflexivity.
Qed.

Lemma daily_count_other_day db uid today day :
  day ≠ today ->
  FirestoreService.get_daily_message_count
    (FirestoreService.increment_daily_message_count db uid today) uid day = 0%Z.
Proof.
  intros Hday.
  unfold FirestoreService.increment_daily_message_count,
    FirestoreService.get_daily_message_count,
    FirestoreService.set_merge_subscription.
  simpl. rewrite lookup_insert_eq. simpl.
  rewrite decide_False by congruence. reflexivity.
Qed.

Lemma daily_count_other_user db uid uid' today day :
  uid' ≠ uid ->
  FirestoreService.get_daily_message_count
    (FirestoreService.increment_daily_message_count db uid today) uid' day
  = FirestoreService.get_daily_message_count db uid' day.
Proof.
  intros Hne.
  unfold FirestoreService.increment_daily_message_count,
    FirestoreService.get_daily_message_count,
    FirestoreService.set_merge_subscription.
  simpl. rewrite lookup_insert_ne by congruence. reflexivity.
Qed.

(** X1. Incrementing the daily message counter raises the count that
    [get_daily_message_count] reads for that day by exactly one, so a count
    left from an earlier day restarts at 1; after it every other day reads
    0, and the counts of other users are as before. *)
Theorem X1_daily_message_count_round_trip (db : FirestoreService.Db)
    (uid today : string) :
  let db' := FirestoreService.increment_daily_message_count db uid today in
  FirestoreService.get_daily_message_count db' uid today
    = (FirestoreService.get_daily_message_count db uid today + 1)%Z
  ∧ (∀ day, day ≠ today ->
       FirestoreService.get_daily_message_count db' uid day = 0%Z)
  ∧ (∀ uid' day, uid' ≠ uid ->
       FirestoreService.get_daily_message_count db' uid' day
       = FirestoreService.get_daily_message_count db uid' day).
Proof.
  cbv zeta. split; [apply daily_count_increment|].
  split; [intros day Hday; now apply daily_count_other_day|].
  intros uid' day Hne. now apply daily_count_other_user.
Qed.

Lemma set_merge_lookup db uid f :
  FirestoreService.subscription (FirestoreService.set_merge_subscription db uid f) !! uid
  = Some (f (default (FirestoreService.mkSubscription None None None None)
               (FirestoreService.subscription db !! uid))).
Proof.
  unfold FirestoreService.set_merge_subscription. simpl.
  rewrite lookup_insert_eq. destruct (FirestoreService.subscription db !! uid); reflexivity.
Qed.

Lemma set_merge_lookup_ne db uid uid' f :
  uid' ≠ uid ->
  FirestoreService.subscription (FirestoreService.set_merge_subscription db uid f) !! uid'
  = FirestoreService.subscription db !! uid'.
Proof.
  intros Hne. unfold FirestoreService.set_merge_subscription. simpl.
  now rewrite lookup_insert_ne by congruence.
Qed.

(** X2. The three writers of the subscription document merge: each sets
    its own field and leaves what the readers report of the others as it
    was.  [update_subscription] sets the plan and keeps the trial flag and
    the daily count; [mark_voice_trial_used] sets the flag and keeps the
    plan and the count; [increment_daily_message_count] keeps the plan and
    the flag.  None of them touches the document of another user. *)
Theorem X2_subscription_writers_merge (db : FirestoreService.Db) (uid : string) :
  (∀ p, let db' := FirestoreService.update_subscription db uid p in
        plan_of db' uid = p
        ∧ FirestoreService.is_voice_trial_used db' uid
          = FirestoreService.is_voice_trial_used db uid
        ∧ ∀ day, FirestoreService.get_daily_message_count db' uid day
                 = FirestoreService.get_daily_message_count db uid day)
  ∧ (let db' := FirestoreService.mark_voice_trial_used db uid in
     FirestoreService.is_voice_trial_used db' uid = true
     ∧ plan_of db' uid = plan_of db uid
     ∧ ∀ day, FirestoreService.get_daily_message_count db' uid day
              = FirestoreService.get_daily_message_count db uid day)
  ∧ (∀ today, let db' := FirestoreService.increment_daily_message_count db uid today in
        plan_of db' uid = plan_of db uid
        ∧ FirestoreService.is_voice_trial_used db' uid
          = FirestoreService.is_voice_trial_used db uid)
  ∧ (∀ uid' p today, uid' ≠ uid ->
        FirestoreService.subscription
          (FirestoreService.update_subscription db uid p) !! uid'
        = FirestoreService.subscription db !! uid'
        ∧ FirestoreService.subscription
            (FirestoreService.mark_voice_trial_used db uid) !! uid'
          = FirestoreService.subscription db !! uid'
        ∧ FirestoreService.subscription
            (FirestoreService.increment_daily_message_count db uid today) !! uid'
          = FirestoreService.subscription db !! uid').
Proof.
  unfold plan_of, FirestoreService.get_subscription,
    FirestoreService.is_voice_trial_used, FirestoreService.get_daily_message_count,
    FirestoreService.update_subscription, FirestoreService.mark_voice_trial_used,
    FirestoreService.increment_daily_message_count.
  repeat split; intros; cbv zeta;
    rewrite ?set_merge_lookup, ?set_merge_lookup_ne by assumption;
    try reflexivity;
    destruct (FirestoreService.subscription db !! uid) as [d|]; simpl; reflexivity.
Qed.

(** X3. Recording a session adds exactly one entry, with the session id
    and the duration rounded to two digits, at the end of the list of
    sessions that [get_voice_usage] reports for the month; the record is
    then of that month.  The usage of other users and the other
    collections are not touched. *)
Theorem X3_voice_usage_session_log (db : FirestoreService.Db) (uid : string)
    (duration_minutes : Q) (session_id current_month now : string) :
  let db' := FirestoreService.update_voice_usage db uid duration_minutes session_id
               current_month now in
  default [] (FirestoreService.sessions
                (FirestoreService.get_voice_usage db' uid current_month))
  = default [] (FirestoreService.sessions
                  (FirestoreService.get_voice_usage db uid current_month))
    ++ [FirestoreService.mkSessionEntry session_id (Py.round duration_minutes 2) now]
  ∧ FirestoreService.month (FirestoreService.get_voice_usage db' uid current_month)
    = Some current_month
  ∧ (∀ uid', uid' ≠ uid ->
       FirestoreService.voice_usage db' !! uid' = FirestoreService.voice_usage db !! uid')
  ∧ FirestoreService.subscription db' = FirestoreService.subscription db
  ∧ FirestoreService.conversations db' = FirestoreService.conversations db
  ∧ FirestoreService.messages db' = FirestoreService.messages db.
Proof.
  cbv zeta.
  unfold FirestoreService.update_voice_usage, FirestoreService.get_voice_usage.
  destruct (FirestoreService.voice_usage db !! uid) as [data|] eqn:Hdata.
  - destruct (decide (FirestoreService.month data = Some current_month)) as [Hm|Hm];
      simpl; rewrite lookup_insert_eq; simpl.
    + rewrite decide_True by exact Hm. simpl.
      repeat split; auto. intros uid' Hne. now rewrite lookup_insert_ne by congruence.
    + rewrite decide_True by reflexivity. simpl.
      repeat split; auto. intros uid' Hne. now rewrite lookup_insert_ne by congruence.
  - simpl. rewrite lookup_insert_eq. simpl. rewrite decide_True by reflexivity. simpl.
    repeat split; auto. intros uid' Hne. now rewrite lookup_insert_ne by congruence.
Qed.

Lemma add_message_stored db cid role content now :
  stored_messages (FirestoreService.add_message db cid role content now) cid
  = stored_messages db cid ++ [FirestoreService.mkMessage role content now].
Proof.
  unfold stored_messages, FirestoreService.add_message. simpl.
  destruct (FirestoreService.conversations db !! cid); simpl;
    now rewrite lookup_insert_eq.
Qed.

Lemma add_message_stored_ne db cid cid' role content now :
  cid' ≠ cid ->
  stored_messages (FirestoreService.add_message db cid role content now) cid'
  = stored_messages db cid'.
Proof.
  intros Hne. unfold stored_messages, FirestoreService.add_message. simpl.
  destruct (FirestoreService.conversations db !! cid); simpl;
    now rewrite lookup_insert_ne by congruence.
Qed.

Lemma add_message_conversation db cid role content now :
  FirestoreService.conversations
    (FirestoreService.add_message db cid role content now) !! cid
  = match FirestoreService.conversations db !! cid with
    | Some c =>
        Some (FirestoreService.update_metadata (fun md =>
          FirestoreService.mkMetadata
            (FirestoreService.userId md) (FirestoreService.coachId md)
            (FirestoreService.coachName md) (FirestoreService.type md)
            (FirestoreService.title md) (FirestoreService.createdAt md) (Some now)
            (Some (default 0 (match FirestoreService.metadata c with
                              | Some md' => FirestoreService.messageCount md'
                              | None => None
                              end) + 1)%Z)
            (Some (if Py.truthy content then Py.prefix 100 content else ""))
            (FirestoreService.actionStatus md)) c)
    | None => None
    end.
Proof.
  unfold FirestoreService.add_message. simpl.
  destruct (FirestoreService.conversations db !! cid) as [c|] eqn:Hc; simpl.
  - now rewrite lookup_insert_eq.
  - exact Hc.
Qed.

Lemma add_message_conversation_ne db cid cid' role content now :
  cid' ≠ cid ->
  FirestoreService.conversations
    (FirestoreService.add_message db cid role content now) !! cid'
  = FirestoreService.conversations db !! cid'.
Proof.
  intros Hne. unfold FirestoreService.add_message. simpl.
  destruct (FirestoreService.conversations db !! cid); simpl;
    [now rewrite lookup_insert_ne by congruence | reflexivity].
Qed.

Lemma add_message_owner db cid cid' role content now :
  FirestoreService.get_conversation_owner
    (FirestoreService.add_message db cid role content now) cid'
  = FirestoreService.get_conversation_owner db cid'.
Proof.
  unfold FirestoreService.get_conversation_owner.
  destruct (decide (cid' = cid)) as [->|Hne].
  - rewrite add_message_conversation.
    destruct (FirestoreService.conversations db !! cid) as [[[md|]]|]; reflexivity.
  - now rewrite add_message_conversation_ne.
Qed.

Lemma add_message_exists db cid cid' role content now :
  FirestoreService.conversation_exists
    (FirestoreService.add_message db cid role content now) cid'
  = FirestoreService.conversation_exists db cid'.
Proof.
  unfold FirestoreService.conversation_exists.
  destruct (decide (cid' = cid)) as [->|Hne].
  - rewrite add_message_conversation.
    destruct (FirestoreService.conversations db !! cid); reflexivity.
  - now rewrite add_message_conversation_ne.
Qed.

Lemma add_message_subscription db cid role content now :
  FirestoreService.subscription (FirestoreService.add_message db cid role content now)
  = FirestoreService.subscription db.
Proof.
  unfold FirestoreService.add_message. simpl.
  destruct (FirestoreService.conversations db !! cid); reflexivity.
Qed.

Lemma add_message_voice_usage db cid role content now :
  FirestoreService.voice_usage (FirestoreService.add_message db cid role content now)
  = FirestoreService.voice_usage db.
Proof.
  unfold FirestoreService.add_message. simpl.
  destruct (FirestoreService.conversations db !! cid); reflexivity.
Qed.

(** X4. [add_message] appends the message after the ones the conversation
    has and changes no other conversation.  It never creates the
    conversation document and never changes its owner or title.  When the
    document exists its message count goes up by one and its preview
    becomes a prefix of the content of at most 100 characters. *)
Theorem X4_add_message (db : FirestoreService.Db)
    (conversation_id role content now : string) :
  let db' := FirestoreService.add_message db conversation_id role content now in
  stored_messages db' conversation_id
  = stored_messages db conversation_id ++ [FirestoreService.mkMessage role content now]
  ∧ (∀ other, other ≠ conversation_id ->
       stored_messages db' other = stored_messages db other
       ∧ FirestoreService.conversations db' !! other
         = FirestoreService.conversations db !! other)
  ∧ FirestoreService.conversation_exists db' conversation_id
    = FirestoreService.conversation_exists db conversation_id
  ∧ FirestoreService.get_conversation_owner db' conversation_id
    = FirestoreService.get_conversation_owner db conversation_id
  ∧ metadata_field FirestoreService.title db' conversation_id
    = metadata_field FirestoreService.title db conversation_id
  ∧ (FirestoreService.conversation_exists db conversation_id = true ->
       metadata_field FirestoreService.messageCount db' conversation_id
       = Some (default 0%Z (metadata_field FirestoreService.messageCount db
                              conversation_id) + 1)%Z
       ∧ ∃ preview,
           metadata_field FirestoreService.lastMessagePreview db' conversation_id
           = Some preview
           ∧ String.prefix preview content = true
           ∧ String.length preview <= 100).
Proof.
  cbv zeta. split; [apply add_message_stored|].
  split.
  { intros other Hne. split;
      [now apply add_message_stored_ne | now apply add_message_conversation_ne]. }
  split; [apply add_message_exists|].
  split; [apply add_message_owner|].
  unfold metadata_field, FirestoreService.conversation_exists.
  rewrite add_message_conversation.
  destruct (FirestoreService.conversations db !! conversation_id) as [[[md|]]|];
    simpl; (split; [reflexivity|]); intros Hex.
  - split; [reflexivity|]. eexists; split; [reflexivity|].
    destruct (Py.truthy content);
      [split; [apply prefix_is_prefix | apply prefix_length]
      | split; [now destruct content | simpl; lia]].
  - split; [reflexivity|]. eexists; split; [reflexivity|].
    destruct (Py.truthy content);
      [split; [apply prefix_is_prefix | apply prefix_length]
      | split; [now destruct content | simpl; lia]].
  - discriminate.
Qed.

Lemma add_messages_snoc db cid msgs m :
  add_messages db cid (msgs ++ [m])
  = FirestoreService.add_message (add_messages db cid msgs) cid m.1.1 m.1.2 m.2.
Proof. unfold add_messages. now rewrite fold_left_app. Qed.

(** X5. A conversation that is created and then given messages one by one
    is owned by its creator, keeps its type and the default title, counts
    exactly the messages added since it was created, and holds them in the
    order they were added, after any message stored under its id before. *)
Theorem X5_new_conversation_counts_messages (db : FirestoreService.Db)
    (conversation_id user_id coach_id coach_name conv_type now : string)
    (msgs : list (string * string * string)) :
  let db' := add_messages
               (FirestoreService.create_conversation db conversation_id user_id
                  coach_id coach_name conv_type now)
               conversation_id msgs in
  FirestoreService.conversation_exists db' conversation_id = true
  ∧ FirestoreService.get_conversation_owner db' conversation_id = Some user_id
  ∧ metadata_field FirestoreService.type db' conversation_id = Some conv_type
  ∧ metadata_field FirestoreService.title db' conversation_id = Some "New conversation"
  ∧ metadata_field FirestoreService.messageCount db' conversation_id
    = Some (Z.of_nat (length msgs))
  ∧ stored_messages db' conversation_id
    = stored_messages db conversation_id
      ++ map (fun m => FirestoreService.mkMessage m.1.1 m.1.2 m.2) msgs.
Proof.
  cbv zeta. induction msgs as [|m msgs IH] using rev_ind.
  - unfold add_messages, FirestoreService.create_conversation, metadata_field,
      FirestoreService.conversation_exists, FirestoreService.get_conversation_owner,
      stored_messages.
    simpl. rewrite lookup_insert_eq. simpl. rewrite app_nil_r.
    repeat split; reflexivity.
  - destruct IH as (Hex & Hown & Hty & Htitle & Hcount & Hstored).
    rewrite add_messages_snoc.
    rewrite add_message_exists, add_message_owner, add_message_stored, Hstored.
    rewrite map_app, length_app, app_assoc. simpl.
    repeat split; auto.
    + rewrite <- Hty. unfold metadata_field. rewrite add_message_conversation.
      destruct (FirestoreService.conversations _ !! conversation_id) as [[[md|]]|];
        reflexivity || discriminate.
    + rewrite <- Htitle. unfold metadata_field. rewrite add_message_conversation.
      destruct (FirestoreService.conversations _ !! conversation_id) as [[[md|]]|];
        reflexivity || discriminate.
    + unfold metadata_field in *. rewrite add_message_conversation.
      destruct (FirestoreService.conversations _ !! conversation_id) as [[[md|]]|];
        try discriminate.
      simpl in *. rewrite Hcount. simpl. f_equal. lia.
Qed.

(** ** Rate limit and text chat *)

Lemma built_in_mira_or_pro coach_id :
  coach_prompts.is_built_in coach_id = true ->
  coach_id = "mira" ∨ coach_id ∈ chat.PRO_COACHES.
Proof.
  unfold coach_prompts.is_built_in, coach_prompts.BUILT_IN, chat.PRO_COACHES.
  rewrite bool_decide_eq_true. intros H.
  apply elem_of_cons in H as [->|H]; [now left | now right].
Qed.

(** What [chat_send] does to the store: nothing unless it starts the
    stream of the model; then it has created the conversation if there was
    none, added the message of the user and, for a user on the free plan,
    counted it. *)
Lemma chat_send_inv env request user db r db' :
  chat.chat_send env request user db = (r, db') ->
  (db' = db ∧ ∀ system_prompt, r ≠ Responds (chat.event_body system_prompt))
  ∨ ∃ system_prompt coach_name db1,
      r = Responds (chat.event_body system_prompt)
      ∧ (plan user = "pro" ∨ chat.coach_id request = "mira")
      ∧ ((FirestoreService.conversation_exists db (chat.conversation_id request) = false
          ∧ db1 = FirestoreService.create_conversation db
                    (chat.conversation_id request) (uid user) (chat.coach_id request)
                    coach_name "text" (chat.now_at_create env))
         ∨ (FirestoreService.conversation_exists db (chat.conversation_id request) = true
            ∧ db1 = db
            ∧ (FirestoreService.get_conversation_owner db (chat.conversation_id request)
               = None
               ∨ FirestoreService.get_conversation_owner db
                   (chat.conversation_id request) = Some (uid user))))
      ∧ db' = (let db2 := FirestoreService.add_message db1
                            (chat.conversation_id request) "user"
                            (chat.message request) (chat.now_at_user_message env) in
               if String.eqb (plan user) "free"
               then FirestoreService.increment_daily_message_count db2 (uid user)
                      (chat.today_at_increment env)
               else db2).
Proof.
  unfold chat.chat_send.
  destruct (negb (String.eqb (plan user) "pro")
            && (bool_decide (chat.coach_id request ∈ chat.PRO_COACHES)
                || negb (coach_prompts.is_built_in (chat.coach_id request))))
    eqn:Hgate.
  { intros [= <- <-]. left. split; [reflexivity | congruence]. }
  assert (Hmay : plan user = "pro" ∨ chat.coach_id request = "mira").
  { apply andb_false_iff in Hgate as [Hpro|Hcoach].
    - left. apply negb_false_iff in Hpro. now apply String.eqb_eq.
    - apply orb_false_iff in Hcoach as [Hnotpro Hbuilt].
      apply negb_false_iff in Hbuilt.
      apply built_in_mira_or_pro in Hbuilt as [?|Hin]; [now right|].
      apply bool_decide_eq_false in Hnotpro. contradiction. }
  match goal with
  | |- context [match ?c with Some _ => _ | None => (Responds (chat.error_body _), _) end] =>
      destruct c as [[custom_prompt coach_name]|]
  end.
  2:{ intros [= <- <-]. left. split; [reflexivity | congruence]. }
  destruct (FirestoreService.conversation_exists db (chat.conversation_id request))
    eqn:Hfound; cbn [andb negb].
  - destruct (FirestoreService.get_conversation_owner db (chat.conversation_id request))
      as [owner|] eqn:Howner.
    + destruct (String.eqb owner (uid user)) eqn:Heq; cbn [negb].
      * apply String.eqb_eq in Heq. subst owner.
        intros [= <- <-]. right. eexists _, coach_name, db.
        split; [reflexivity|]. split; [exact Hmay|].
        split; [right; auto | reflexivity].
      * intros [= <- <-]. left. split; [reflexivity | congruence].
    + intros [= <- <-]. right. eexists _, coach_name, db.
      split; [reflexivity|]. split; [exact Hmay|].
      split; [right; auto | reflexivity].
  - intros [= <- <-]. right. eexists _, coach_name, _.
    split; [reflexivity|]. split; [exact Hmay|].
    split; [left; split; reflexivity | reflexivity].
Qed.

(** X6. A user who is not on the pro plan can talk to no coach but
    [mira]: a request for any other coach is answered with status 403 and
    leaves the store as it was. *)
Theorem X6_chat_coach_gate (env : chat.Env) (request : chat.ChatRequest)
    (user : AuthenticatedUser) (db : FirestoreService.Db) :
  plan user ≠ "pro" ->
  chat.coach_id request ≠ "mira" ->
  chat.chat_send env request user db
  = (HTTPError 403 "This coach requires a Pro subscription.", db).
Proof.
  intros Hplan Hcoach. unfold chat.chat_send.
  assert (Hgate : negb (String.eqb (plan user) "pro")
            && (bool_decide (chat.coach_id request ∈ chat.PRO_COACHES)
                || negb (coach_prompts.is_built_in (chat.coach_id request))) = true).
  { apply andb_true_iff. split.
    - apply negb_true_iff. now apply String.eqb_neq.
    - destruct (coach_prompts.is_built_in (chat.coach_id request)) eqn:Hb;
        [|now rewrite orb_true_r].
      apply built_in_mira_or_pro in Hb as [?|Hin]; [contradiction|].
      now rewrite bool_decide_true. }
  now rewrite Hgate.
Qed.

Lemma create_conversation_lookup db cid u coach coach_name ty now :
  FirestoreService.conversation_exists
    (FirestoreService.create_conversation db cid u coach coach_name ty now) cid = true
  ∧ FirestoreService.get_conversation_owner
      (FirestoreService.create_conversation db cid u coach coach_name ty now) cid
    = Some u.
Proof.
  unfold FirestoreService.conversation_exists, FirestoreService.get_conversation_owner,
    FirestoreService.create_conversation.
  simpl. rewrite lookup_insert_eq. split; [|reflexivity].
  apply bool_decide_eq_true. eauto.
Qed.

Lemma create_conversation_lookup_ne db cid other u coach coach_name ty now :
  other ≠ cid ->
  FirestoreService.conversations
    (FirestoreService.create_conversation db cid u coach coach_name ty now) !! other
  = FirestoreService.conversations db !! other.
Proof.
  intros Hne. unfold FirestoreService.create_conversation. simpl.
  now rewrite lookup_insert_ne by congruence.
Qed.

(** X7. [chat_send] writes only when it starts the stream of the model.
    Then the message of the user is the last message of the conversation,
    which exists and is owned by the sender (or was there before without a
    recorded owner); no other conversation is changed; and the daily count
    of the sender goes up by one when the plan is [free] and stays as it
    is otherwise.  Every other answer leaves the store as it was. *)
Theorem X7_chat_send_writes (env : chat.Env) (request : chat.ChatRequest)
    (user : AuthenticatedUser) (db : FirestoreService.Db) :
  let cid := chat.conversation_id request in
  let db' := (chat.chat_send env request user db).2 in
  match (chat.chat_send env request user db).1 with
  | Responds (chat.event_body _) =>
      stored_messages db' cid
      = stored_messages db cid
        ++ [FirestoreService.mkMessage "user" (chat.message request)
              (chat.now_at_user_message env)]
      ∧ FirestoreService.conversation_exists db' cid = true
      ∧ (FirestoreService.get_conversation_owner db' cid = Some (uid user)
         ∨ (FirestoreService.conversation_exists db cid = true
            ∧ FirestoreService.get_conversation_owner db cid = None
            ∧ FirestoreService.get_conversation_owner db' cid = None))
      ∧ (∀ other, other ≠ cid ->
           FirestoreService.conversations db' !! other
           = FirestoreService.conversations db !! other
           ∧ stored_messages db' other = stored_messages db other)
      ∧ FirestoreService.get_daily_message_count db' (uid user)
          (chat.today_at_increment env)
        = (FirestoreService.get_daily_message_count db (uid user)
             (chat.today_at_increment env)
           + if String.eqb (plan user) "free" then 1 else 0)%Z
  | _ => db' = db
  end.
Proof.
  cbv zeta.
  destruct (chat.chat_send env request user db) as [r db'] eqn:Hsend.
  apply chat_send_inv in Hsend
    as [[-> Hno] | (system_prompt & coach_name & db1 & -> & _ & Hdb1 & ->)].
  { cbn [fst snd]. destruct r as [[]| |]; try reflexivity.
    exfalso. eapply Hno. reflexivity. }
  cbn [fst snd].
  set (db2 := FirestoreService.add_message db1 _ _ _ _).
  assert (Hsame : ∀ cid', stored_messages
            (if String.eqb (plan user) "free"
             then FirestoreService.increment_daily_message_count db2 (uid user)
                    (chat.today_at_increment env)
             else db2) cid' = stored_messages db2 cid'
          ∧ FirestoreService.conversations
              (if String.eqb (plan user) "free"
               then FirestoreService.increment_daily_message_count db2 (uid user)
                      (chat.today_at_increment env)
               else db2) = FirestoreService.conversations db2).
  { intros cid'. destruct (String.eqb (plan user) "free"); split; reflexivity. }
  assert (Hmsgs1 : ∀ cid', stored_messages db1 cid' = stored_messages db cid').
  { intros cid'. destruct Hdb1 as [[_ ->] | (_ & -> & _)]; reflexivity. }
  split.
  { rewrite (proj1 (Hsame _)). subst db2. rewrite add_message_stored.
    now rewrite Hmsgs1. }
  split.
  { unfold FirestoreService.conversation_exists. rewrite (proj2 (Hsame "")).
    fold (FirestoreService.conversation_exists db2 (chat.conversation_id request)).
    subst db2. rewrite add_message_exists.
    destruct Hdb1 as [[_ ->] | (Hex & -> & _)]; [|exact Hex].
    apply create_conversation_lookup. }
  split.
  { assert (Hown' : ∀ db3, FirestoreService.conversations db3
                             = FirestoreService.conversations db2 ->
              FirestoreService.get_conversation_owner db3 (chat.conversation_id request)
              = FirestoreService.get_conversation_owner db2
                  (chat.conversation_id request)).
    { intros db3 H3. unfold FirestoreService.get_conversation_owner. now rewrite H3. }
    rewrite !(Hown' _ (proj2 (Hsame ""))).
    subst db2. rewrite !add_message_owner.
    destruct Hdb1 as [[_ ->] | (Hex & -> & [Hown|Hown])].
    - left. apply create_conversation_lookup.
    - right. auto.
    - left. exact Hown. }
  split.
  { intros other Hne. rewrite (proj1 (Hsame _)), (proj2 (Hsame "")). subst db2.
    rewrite add_message_conversation_ne, add_message_stored_ne, Hmsgs1 by exact Hne.
    split; [|reflexivity].
    destruct Hdb1 as [[_ ->] | (_ & -> & _)]; [|reflexivity].
    now apply create_conversation_lookup_ne. }
  assert (Hsub : FirestoreService.subscription db2 = FirestoreService.subscription db).
  { subst db2. rewrite add_message_subscription.
    destruct Hdb1 as [[_ ->] | (_ & -> & _)]; reflexivity. }
  destruct (String.eqb (plan user) "free").
  - rewrite daily_count_increment, (daily_count_ext db2 db) by exact Hsub. reflexivity.
  - rewrite (daily_count_ext db2 db) by exact Hsub. lia.
Qed.

Lemma update_conversation_title_subscription db cid title db' :
  FirestoreService.update_conversation_title db cid title = Some db' ->
  FirestoreService.subscription db' = FirestoreService.subscription db.
Proof.
  unfold FirestoreService.update_conversation_title.
  destruct (FirestoreService.conversations db !! cid); [|discriminate].
  now intros [= <-].
Qed.

Lemma event_generator_subscription env request system_prompt db :
  FirestoreService.subscription
    (chat.event_generator env request system_prompt db).2
  = FirestoreService.subscription db.
Proof.
  unfold chat.event_generator.
  destruct (chat.response env system_prompt) as [chunks stream_error].
  destruct (match stream_error with
            | Some e => if Exception e then _ else _
            | None => _
            end) as [errors pending].
  destruct (Py.truthy _); [|reflexivity].
  destruct (_ =? 2)%nat; [|apply add_message_subscription].
  destruct (gemini_service.generate_conversation_title _ _);
    [|apply add_message_subscription].
  destruct (FirestoreService.update_conversation_title _ _ _) as [db2|] eqn:Htitle;
    [|apply add_message_subscription].
  cbn [snd]. erewrite update_conversation_title_subscription by exact Htitle.
  apply add_message_subscription.
Qed.

Lemma check_rate_limit_free user today db :
  plan user = "free" ->
  auth.check_rate_limit user today db
  = if (10 <=? FirestoreService.get_daily_message_count db (uid user) today)%Z
    then HTTPError 429 "Daily limit reached. Upgrade to Pro for unlimited messages."
    else Responds user.
Proof. intros Hplan. unfold auth.check_rate_limit. now rewrite Hplan. Qed.

(** One request of a user on the free plan: the count of the day goes up
    by one when it is served and stays otherwise; it is served only below
    ten. *)
Lemma post_send_count user env request db today :
  plan user = "free" ->
  chat.today_at_check env = today ->
  chat.today_at_increment env = today ->
  FirestoreService.get_daily_message_count
    (chat.post_send env request user db).2 (uid user) today
  = (FirestoreService.get_daily_message_count db (uid user) today
     + if served env request user db then 1 else 0)%Z
  ∧ (served env request user db = true ->
     (FirestoreService.get_daily_message_count db (uid user) today < 10)%Z).
Proof.
  intros Hplan Hcheck Hinc. unfold chat.post_send, served.
  rewrite Hcheck, check_rate_limit_free by exact Hplan.
  destruct (10 <=? _)%Z eqn:Hlimit.
  { cbn [snd]. split; [lia | discriminate]. }
  apply Z.leb_gt in Hlimit. split; [|intros _; exact Hlimit].
  unfold chat.exchange.
  destruct (chat.chat_send env request user db) as [r db1] eqn:Hsend.
  apply chat_send_inv in Hsend
    as [[-> Hno] | (system_prompt & coach_name & db0 & -> & _ & Hdb0 & ->)].
  - cbn [fst snd]. destruct r as [[message|system_prompt]| |]; cbn [snd]; try lia.
    exfalso. eapply Hno. reflexivity.
  - cbn [fst snd].
    destruct (chat.event_generator env request system_prompt _)
      as [[events pending] db2] eqn:Hgen.
    cbn [snd].
    change db2 with (events, pending, db2).2. rewrite <- Hgen.
    rewrite (daily_count_ext _ _ _ _ (event_generator_subscription _ _ _ _)).
    rewrite Hplan, Hinc. cbn [String.eqb Ascii.eqb Bool.eqb].
    rewrite daily_count_increment. f_equal.
    apply daily_count_ext. rewrite add_message_subscription.
    destruct Hdb0 as [[_ ->] | (_ & -> & _)]; reflexivity.
Qed.

Lemma post_sends_count user requests today :
  plan user = "free" ->
  Forall (fun r : chat.Env * chat.ChatRequest =>
            chat.today_at_check r.1 = today ∧ chat.today_at_increment r.1 = today)
         requests ->
  ∀ db n,
    let res := fold_left (fun acc r =>
                 ((chat.post_send r.1 r.2 user acc.1).2,
                  if served r.1 r.2 user acc.1 then S acc.2 else acc.2))
               requests (db, n) in
    (n <= res.2)%nat
    ∧ FirestoreService.get_daily_message_count res.1 (uid user) today
      = (FirestoreService.get_daily_message_count db (uid user) today
         + Z.of_nat (res.2 - n))%Z
    ∧ (FirestoreService.get_daily_message_count res.1 (uid user) today
       <= Z.max 10 (FirestoreService.get_daily_message_count db (uid user) today))%Z.
Proof.
  intros Hplan Hdays. induction Hdays as [|[env request] requests [Hc Hi] _ IH];
    intros db n; cbv zeta.
  - simpl. split; [lia|]. split; [rewrite Nat.sub_diag; simpl; lia | lia].
  - cbn [fold_left fst snd].
    destruct (post_send_count user env request db today Hplan Hc Hi) as [Hcount Hbelow].
    specialize (IH (chat.post_send env request user db).2
                   (if served env request user db then S n else n)).
    cbv zeta in IH. destruct IH as (Hle & Heq & Hmax).
    destruct (served env request user db).
    + specialize (Hbelow eq_refl). split; [lia|]. split; [rewrite Heq, Hcount; lia|].
      rewrite Hcount in Hmax. lia.
    + split; [lia|]. split; [rewrite Heq, Hcount; lia|].
      rewrite Hcount in Hmax. now rewrite Z.add_0_r in Hmax.
Qed.

(** X8. However many requests a user on the free plan sends on one day,
    the daily count rises by exactly the number of requests that were
    served, and it never passes ten (or the count the day started with, if
    that was more): at most ten messages a day reach the model. *)
Theorem X8_free_daily_quota (user : AuthenticatedUser)
    (requests : list (chat.Env * chat.ChatRequest)) (today : string)
    (db : FirestoreService.Db) :
  plan user = "free" ->
  Forall (fun r : chat.Env * chat.ChatRequest =>
            chat.today_at_check r.1 = today ∧ chat.today_at_increment r.1 = today)
         requests ->
  let db' := (post_sends user requests db).1 in
  let served_requests := (post_sends user requests db).2 in
  FirestoreService.get_daily_message_count db' (uid user) today
  = (FirestoreService.get_daily_message_count db (uid user) today
     + Z.of_nat served_requests)%Z
  ∧ (FirestoreService.get_daily_message_count db' (uid user) today
     <= Z.max 10 (FirestoreService.get_daily_message_count db (uid user) today))%Z.
Proof.
  intros Hplan Hdays. cbv zeta. unfold post_sends.
  destruct (post_sends_count user requests today Hplan Hdays db 0%nat)
    as (_ & Heq & Hmax).
  cbv zeta in Heq, Hmax. rewrite Nat.sub_0_r in Heq. split; assumption.
Qed.

Lemma X6_chat_coach_gate_witness :
  chat.chat_send (chat_env "2026-01-15" [] None) (hello "atlas") free_alice
    FirestoreService.empty
  = (HTTPError 403 "This coach requires a Pro subscription.", FirestoreService.empty).
Proof. apply X6_chat_coach_gate; vm_compute; discriminate. Defined.

Lemma X8_free_daily_quota_witness :
  let requests := replicate 12 (chat_env "2026-01-15" [Some "Hi."] None, hello "mira") in
  let db' := (post_sends free_alice requests FirestoreService.empty).1 in
  let served_requests := (post_sends free_alice requests FirestoreService.empty).2 in
  served_requests = 10%nat
  ∧ FirestoreService.get_daily_message_count db' "alice" "2026-01-15"
    = (FirestoreService.get_daily_message_count FirestoreService.empty "alice"
         "2026-01-15" + Z.of_nat served_requests)%Z
  ∧ (FirestoreService.get_daily_message_count db' "alice" "2026-01-15"
     <= Z.max 10 (FirestoreService.get_daily_message_count FirestoreService.empty
                    "alice" "2026-01-15"))%Z.
Proof.
  split; [vm_compute; reflexivity|].
  apply (X8_free_daily_quota free_alice
           (replicate 12 (chat_env "2026-01-15" [Some "Hi."] None, hello "mira"))
           "2026-01-15" FirestoreService.empty).
  - reflexivity.
  - repeat constructor.
Defined.

Lemma daily_count_iter db uid day today n :
  FirestoreService.get_daily_message_count
    (Nat.iter n (fun db => FirestoreService.increment_daily_message_count db uid day) db)
    uid today
  = if decide (day = today)
    then (FirestoreService.get_daily_message_count db uid today + Z.of_nat n)%Z
    else if decide (n = 0%nat)
         then FirestoreService.get_daily_message_count db uid today
         else 0%Z.
Proof.
  induction n as [|n IH].
  - simpl. destruct (decide (day = today)); [lia | reflexivity].
  - rewrite Nat.iter_succ. destruct (decide (day = today)) as [->|Hne].
    + rewrite daily_count_increment, IH. lia.
    + rewrite daily_count_other_day by congruence. reflexivity.
Qed.

(** X9. The rate limiter lets a user through exactly when the plan is
    [pro] or the count of today is below ten.  After [n] more messages
    counted today the count it compares is the old one plus [n]; messages
    counted for another day make the count of today read as zero. *)
Theorem X9_rate_limit_threshold (user : AuthenticatedUser)
    (db : FirestoreService.Db) (today day : string) (n : nat) :
  let db' := Nat.iter n (fun db => FirestoreService.increment_daily_message_count
                                     db (uid user) day) db in
  let count := FirestoreService.get_daily_message_count db (uid user) today in
  admitted (auth.check_rate_limit user today db')
  = String.eqb (plan user) "pro"
    || (if decide (day = today) then (count + Z.of_nat n <? 10)%Z
        else if decide (n = 0%nat) then (count <? 10)%Z
        else true).
Proof.
  cbv zeta. unfold auth.check_rate_limit.
  destruct (String.eqb (plan user) "pro"); [reflexivity|].
  rewrite daily_count_iter. cbn [orb].
  destruct (decide (day = today)).
  - destruct (10 <=? _)%Z eqn:H; simpl; symmetry;
      [apply Z.ltb_ge; now apply Z.leb_le | apply Z.ltb_lt; now apply Z.leb_gt].
  - destruct (decide (n = 0%nat)); [|reflexivity].
    destruct (10 <=? _)%Z eqn:H; simpl; symmetry;
      [apply Z.ltb_ge; now apply Z.leb_le | apply Z.ltb_lt; now apply Z.leb_gt].
Qed.

Lemma yielded_nonempty response :
  Forall (fun text => text ≠ "") (gemini_service.stream_chat_response response).
Proof.
  unfold gemini_service.stream_chat_response.
  induction response as [|[[|c t]|] response IH]; simpl; auto.
Qed.

Lemma concat_truthy (texts : list string) :
  Forall (fun text => text ≠ "") texts ->
  Py.truthy (fold_right String.append "" texts) = negb (bool_decide (texts = [])).
Proof.
  intros [|[|c t] rest Ht _]; [reflexivity | contradiction | reflexivity].
Qed.

Lemma message_texts_app e1 e2 :
  message_texts (e1 ++ e2) = message_texts e1 ++ message_texts e2.
Proof. unfold message_texts. apply omap_app. Qed.

Lemma message_texts_messages texts :
  message_texts (map chat.message_event texts) = texts.
Proof. induction texts as [|t texts IH]; simpl; [reflexivity | now rewrite IH]. Qed.

Lemma update_conversation_title_stored db cid title db' other :
  FirestoreService.update_conversation_title db cid title = Some db' ->
  stored_messages db' other = stored_messages db other.
Proof.
  unfold FirestoreService.update_conversation_title.
  destruct (FirestoreService.conversations db !! cid); [|discriminate].
  now intros [= <-].
Qed.

Lemma update_conversation_title_lookup_ne db cid title db' other :
  other ≠ cid ->
  FirestoreService.update_conversation_title db cid title = Some db' ->
  FirestoreService.conversations db' !! other
  = FirestoreService.conversations db !! other.
Proof.
  intros Hne. unfold FirestoreService.update_conversation_title.
  destruct (FirestoreService.conversations db !! cid); [|discriminate].
  intros [= <-]. simpl. now rewrite lookup_insert_ne by congruence.
Qed.

(** X10. The response stream of a chat carries one [message] event for
    each chunk of the model that has a text, in order; when the generator
    ends without an exception its last event is [done].  The reply is
    stored exactly when some text was streamed, as one assistant message
    that is the concatenation of the chunks, also when the stream broke off
    with an error.  No other conversation is touched. *)
Theorem X10_chat_event_stream (env : chat.Env) (request : chat.ChatRequest)
    (system_prompt : string) (db : FirestoreService.Db) :
  let events := (chat.event_generator env request system_prompt db).1.1 in
  let pending := (chat.event_generator env request system_prompt db).1.2 in
  let db' := (chat.event_generator env request system_prompt db).2 in
  let yielded :=
    gemini_service.stream_chat_response (chat.response env system_prompt).1 in
  message_texts events = yielded
  ∧ (pending = None -> last events = Some chat.done_event)
  ∧ stored_messages db' (chat.conversation_id request)
    = stored_messages db (chat.conversation_id request)
      ++ (if bool_decide (yielded = []) then []
          else [FirestoreService.mkMessage "assistant"
                  (fold_right String.append "" yielded)
                  (chat.now_at_assistant_message env)])
  ∧ (∀ other, other ≠ chat.conversation_id request ->
       FirestoreService.conversations db' !! other
       = FirestoreService.conversations db !! other
       ∧ stored_messages db' other = stored_messages db other).
Proof.
  cbv zeta. unfold chat.event_generator.
  destruct (chat.response env system_prompt) as [chunks stream_error]. cbn [fst].
  pose proof (yielded_nonempty chunks) as Hne.
  set (yielded := gemini_service.stream_chat_response chunks) in *.
  rewrite (concat_truthy yielded Hne).
  assert (Herr : ∃ errors pending0,
            match stream_error with
            | Some e =>
                if Exception e
                then ([chat.error_event "I'm having trouble thinking right now. Try again in a moment."],
                      None)
                else ([], Some e)
            | None => ([], None)
            end = (errors, pending0) ∧ message_texts errors = []).
  { destruct stream_error as [e|]; [destruct (Exception e)|]; eauto. }
  destruct Herr as (errors & pending0 & -> & Herrors).
  assert (Htexts : message_texts (map chat.message_event yielded ++ errors) = yielded).
  { now rewrite message_texts_app, message_texts_messages, Herrors, app_nil_r. }
  assert (Hdone : message_texts (map chat.message_event yielded ++ errors
                                 ++ [chat.done_event]) = yielded).
  { now rewrite !message_texts_app, message_texts_messages, Herrors, !app_nil_r. }
  assert (Hlast : last (map chat.message_event yielded ++ errors ++ [chat.done_event])
                  = Some chat.done_event).
  { rewrite app_assoc. apply last_snoc. }
  destruct (bool_decide (yielded = [])); cbn [negb].
  { cbn [fst snd]. rewrite app_nil_r. auto. }
  destruct (_ =? 2)%nat.
  2:{ cbn [fst snd]. rewrite add_message_stored. repeat split; auto.
      - now apply add_message_conversation_ne.
      - now apply add_message_stored_ne. }
  destruct (gemini_service.generate_conversation_title _ _) as [title|e].
  2:{ cbn [fst snd]. rewrite add_message_stored. repeat split; auto.
      - discriminate.
      - now apply add_message_conversation_ne.
      - now apply add_message_stored_ne. }
  destruct (FirestoreService.update_conversation_title _ _ _) as [db2|] eqn:Htitle.
  - cbn [fst snd].
    rewrite (update_conversation_title_stored _ _ _ _ _ Htitle), add_message_stored.
    repeat split; auto.
    + rewrite (update_conversation_title_lookup_ne _ _ _ _ _ H Htitle).
      now apply add_message_conversation_ne.
    + rewrite (update_conversation_title_stored _ _ _ _ _ Htitle).
      now apply add_message_stored_ne.
  - cbn [fst snd]. rewrite add_message_stored. repeat split; auto.
    + discriminate.
    + now apply add_message_conversation_ne.
    + now apply add_message_stored_ne.
Qed.

Lemma get_messages_len_stored db cid limit :
  FirestoreService.get_messages_len db cid limit
  = Nat.min limit (length (stored_messages db cid)).
Proof. reflexivity. Qed.

Lemma update_conversation_title_field db cid title c :
  FirestoreService.conversations db !! cid = Some c ->
  ∃ db', FirestoreService.update_conversation_title db cid title = Some db'
         ∧ metadata_field FirestoreService.title db' cid = Some title
         ∧ metadata_field FirestoreService.messageCount db' cid
           = metadata_field FirestoreService.messageCount db cid
         ∧ FirestoreService.get_conversation_owner db' cid
           = FirestoreService.get_conversation_owner db cid.
Proof.
  intros Hc. unfold FirestoreService.update_conversation_title. rewrite Hc.
  eexists. split; [reflexivity|].
  unfold metadata_field, FirestoreService.get_conversation_owner. simpl.
  rewrite lookup_insert_eq, Hc. destruct c as [[md|]]; simpl; auto.
Qed.

(** X11. The first exchange of a new conversation: when the request is
    accepted, the model streams some text and the title service returns,
    the conversation is owned by the sender and holds exactly two messages,
    the one of the user and then the whole reply; its message count is 2
    and its title is the generated one. *)
Theorem X11_chat_first_exchange (env : chat.Env) (request : chat.ChatRequest)
    (user : AuthenticatedUser) (db : FirestoreService.Db)
    (system_prompt title : string) :
  let cid := chat.conversation_id request in
  let yielded :=
    gemini_service.stream_chat_response (chat.response env system_prompt).1 in
  FirestoreService.conversation_exists db cid = false ->
  stored_messages db cid = [] ->
  (chat.chat_send env request user db).1 = Responds (chat.event_body system_prompt) ->
  yielded ≠ [] ->
  gemini_service.generate_conversation_title (chat.generate_content env)
    (chat.message request) = Returns title ->
  let db' := (chat.exchange env request user db).2 in
  stored_messages db' cid
  = [FirestoreService.mkMessage "user" (chat.message request)
       (chat.now_at_user_message env);
     FirestoreService.mkMessage "assistant" (fold_right String.append "" yielded)
       (chat.now_at_assistant_message env)]
  ∧ FirestoreService.get_conversation_owner db' cid = Some (uid user)
  ∧ metadata_field FirestoreService.messageCount db' cid = Some 2%Z
  ∧ metadata_field FirestoreService.title db' cid = Some title.
Proof.
  cbv zeta. intros Hnew Hempty Haccept Hyield Htitle.
  unfold chat.exchange.
  destruct (chat.chat_send env request user db) as [r db3] eqn:Hsend.
  cbn [fst] in Haccept. subst r.
  pose proof Hsend as Hinv.
  apply chat_send_inv in Hinv
    as [[_ Hno] | (system_prompt' & coach_name & db1 & [= <-] & _ & Hdb1 & Hdb3)].
  { exfalso. eapply Hno. reflexivity. }
  destruct Hdb1 as [[_ ->] | (Hex & _)]; [|congruence].
  (* the store the generator starts from *)
  assert (Hstored3 : stored_messages db3 (chat.conversation_id request)
            = [FirestoreService.mkMessage "user" (chat.message request)
                 (chat.now_at_user_message env)]).
  { subst db3. cbv zeta.
    transitivity (stored_messages
      (FirestoreService.add_message
         (FirestoreService.create_conversation db (chat.conversation_id request)
            (uid user) (chat.coach_id request) coach_name "text"
            (chat.now_at_create env))
         (chat.conversation_id request) "user" (chat.message request)
         (chat.now_at_user_message env)) (chat.conversation_id request)).
    { destruct (String.eqb (plan user) "free"); reflexivity. }
    rewrite add_message_stored.
    change (stored_messages (FirestoreService.create_conversation _ _ _ _ _ _ _) ?c)
      with (stored_messages db c).
    now rewrite Hempty. }
  assert (Hconv3 : ∃ md, FirestoreService.conversations db3
                           !! chat.conversation_id request
                         = Some (FirestoreService.mkConversation (Some md))
                         ∧ FirestoreService.userId md = Some (uid user)
                         ∧ FirestoreService.messageCount md = Some 1%Z).
  { subst db3. cbv zeta.
    assert (Hc : ∀ db2, FirestoreService.conversations
              (if String.eqb (plan user) "free"
               then FirestoreService.increment_daily_message_count db2 (uid user)
                      (chat.today_at_increment env)
               else db2) = FirestoreService.conversations db2).
    { intros db2. destruct (String.eqb (plan user) "free"); reflexivity. }
    rewrite Hc, add_message_conversation.
    unfold FirestoreService.create_conversation. simpl.
    rewrite lookup_insert_eq. simpl. eexists. split; [reflexivity|]. auto. }
  destruct Hconv3 as (md & Hconv3 & Hown3 & Hcount3).
  unfold chat.event_generator.
  destruct (chat.response env system_prompt) as [chunks stream_error]. cbn [fst] in *.
  pose proof (yielded_nonempty chunks) as Hne.
  set (yielded := gemini_service.stream_chat_response chunks) in *.
  rewrite (concat_truthy yielded Hne), bool_decide_false by exact Hyield. cbn [negb].
  destruct (match stream_error with
            | Some e => if Exception e then _ else _
            | None => _
            end) as [errors pending].
  rewrite get_messages_len_stored, add_message_stored, Hstored3. cbn [length app Nat.min Nat.eqb].
  rewrite Htitle.
  set (db4 := FirestoreService.add_message db3 _ _ _ _).
  assert (Hconv4 : FirestoreService.conversations db4 !! chat.conversation_id request
                   = Some (FirestoreService.update_metadata (fun md0 =>
                       FirestoreService.mkMetadata
                         (FirestoreService.userId md0) (FirestoreService.coachId md0)
                         (FirestoreService.coachName md0) (FirestoreService.type md0)
                         (FirestoreService.title md0) (FirestoreService.createdAt md0)
                         (Some (chat.now_at_assistant_message env))
                         (Some 2%Z)
                         (Some (if Py.truthy (fold_right String.append "" yielded)
                                then Py.prefix 100 (fold_right String.append "" yielded)
                                else ""))
                         (FirestoreService.actionStatus md0))
                       (FirestoreService.mkConversation (Some md)))).
  { subst db4. rewrite add_message_conversation, Hconv3. cbn [FirestoreService.metadata].
    rewrite Hcount3. reflexivity. }
  destruct (update_conversation_title_field db4 (chat.conversation_id request) title _
              Hconv4) as (db5 & Hupd & Ht5 & Hc5 & Ho5).
  rewrite Hupd. cbn [fst snd].
  rewrite (update_conversation_title_stored _ _ _ _ _ Hupd), Ho5, Hc5, Ht5.
  subst db4. rewrite add_message_stored, add_message_owner, Hstored3.
  split; [reflexivity|]. split; [|split; [|reflexivity]].
  - unfold FirestoreService.get_conversation_owner. rewrite Hconv3. exact Hown3.
  - unfold metadata_field. rewrite Hconv4. reflexivity.
Qed.

Lemma X11_chat_first_exchange_witness :
  let env := chat_env "2026-01-15" [Some "You "; None; Some ""; Some "can."]
               (Some (OtherError "ServerError")) in
  let db' := (chat.exchange env (hello "mira") free_alice FirestoreService.empty).2 in
  stored_messages db' "c-1"
  = [FirestoreService.mkMessage "user" "I feel stuck at work" "2026-01-15T10:00:01";
     FirestoreService.mkMessage "assistant" "You can." "2026-01-15T10:00:05"]
  ∧ FirestoreService.get_conversation_owner db' "c-1" = Some "alice"
  ∧ metadata_field FirestoreService.messageCount db' "c-1" = Some 2%Z
  ∧ metadata_field FirestoreService.title db' "c-1" = Some "Feeling stuck at work".
Proof.
  cbv zeta.
  apply (X11_chat_first_exchange
           (chat_env "2026-01-15" [Some "You "; None; Some ""; Some "can."]
              (Some (OtherError "ServerError")))
           (hello "mira") free_alice FirestoreService.empty "You are Mira."
           "Feeling stuck at work");
    vm_compute; first [reflexivity | discriminate].
Defined.

(** ** Conversations of a user *)

Lemma owner_is_Some_conversation db cid owner :
  FirestoreService.get_conversation_owner db cid = Some owner ->
  ∃ c, FirestoreService.conversations db !! cid = Some c.
Proof.
  unfold FirestoreService.get_conversation_owner.
  destruct (FirestoreService.conversations db !! cid); [eauto | discriminate].
Qed.

(** X12. Only its owner gets a conversation deleted or its action status
    changed: for anyone else both handlers answer 404 when the conversation
    is missing or has no recorded owner and 403 when it is owned by another
    user, and the store stays as it was. *)
Theorem X12_sessions_owner_only (conversation_id action_status : string)
    (user : AuthenticatedUser) (db : FirestoreService.Db) :
  FirestoreService.get_conversation_owner db conversation_id ≠ Some (uid user) ->
  let status_code :=
    match FirestoreService.get_conversation_owner db conversation_id with
    | Some _ => 403
    | None => 404
    end in
  ∃ detail,
    sessions.delete_conversation conversation_id user db
    = (HTTPError status_code detail, db)
    ∧ sessions.update_action_status conversation_id action_status user db
      = (HTTPError status_code detail, db).
Proof.
  intros Hown. cbv zeta.
  unfold sessions.delete_conversation, sessions.update_action_status.
  destruct (FirestoreService.get_conversation_owner db conversation_id) as [owner|];
    [|eauto].
  destruct (String.eqb owner (uid user)) eqn:Heq; [|simpl; eauto].
  apply String.eqb_eq in Heq. congruence.
Qed.

Lemma X12_sessions_owner_only_witness :
  ∃ detail,
    sessions.delete_conversation "c-alice" pro_bob conversations_db
    = (HTTPError 403 detail, conversations_db)
    ∧ sessions.update_action_status "c-alice" "done" pro_bob conversations_db
      = (HTTPError 403 detail, conversations_db).
Proof.
  apply (X12_sessions_owner_only "c-alice" "done" pro_bob conversations_db).
  vm_compute. discriminate.
Defined.

(** X13. When its owner deletes a conversation, the document and all its
    messages are gone, so that every later request for it is answered 404;
    the other conversations, their messages and the documents of the users
    are left as they were. *)
Theorem X13_owner_deletes_conversation (conversation_id : string)
    (user : AuthenticatedUser) (db : FirestoreService.Db) :
  FirestoreService.get_conversation_owner db conversation_id = Some (uid user) ->
  let res := sessions.delete_conversation conversation_id user db in
  res.1 = Responds true
  ∧ FirestoreService.conversation_exists res.2 conversation_id = false
  ∧ stored_messages res.2 conversation_id = []
  ∧ (∀ anyone action_status,
       (sessions.delete_conversation conversation_id anyone res.2).1
       = HTTPError 404 "Conversation not found"
       ∧ (sessions.update_action_status conversation_id action_status anyone res.2).1
         = HTTPError 404 "Conversation not found")
  ∧ (∀ other, other ≠ conversation_id ->
       FirestoreService.conversations res.2 !! other
       = FirestoreService.conversations db !! other
       ∧ stored_messages res.2 other = stored_messages db other)
  ∧ FirestoreService.subscription res.2 = FirestoreService.subscription db
  ∧ FirestoreService.voice_usage res.2 = FirestoreService.voice_usage db.
Proof.
  intros Hown. cbv zeta.
  assert (Hres : sessions.delete_conversation conversation_id user db
                 = (Responds true,
                    FirestoreService.delete_conversation db conversation_id)).
  { unfold sessions.delete_conversation. now rewrite Hown, String.eqb_refl. }
  rewrite Hres. cbn [fst snd].
  assert (Hgone : FirestoreService.get_conversation_owner
            (FirestoreService.delete_conversation db conversation_id) conversation_id
          = None).
  { unfold FirestoreService.get_conversation_owner, FirestoreService.delete_conversation.
    simpl. now rewrite lookup_delete_eq. }
  split; [reflexivity|]. split.
  { unfold FirestoreService.conversation_exists, FirestoreService.delete_conversation.
    simpl. rewrite lookup_delete_eq. apply bool_decide_eq_false. intros [? ?].
    discriminate. }
  split.
  { unfold stored_messages, FirestoreService.delete_conversation. simpl.
    now rewrite lookup_delete_eq. }
  split.
  { intros anyone action_status.
    unfold sessions.delete_conversation, sessions.update_action_status.
    rewrite Hgone. split; reflexivity. }
  split; [|split; reflexivity].
  intros other Hne.
  unfold stored_messages, FirestoreService.delete_conversation. simpl.
  rewrite !lookup_delete_ne by congruence. split; reflexivity.
Qed.

Lemma X13_owner_deletes_conversation_witness :
  let res := sessions.delete_conversation "c-alice" free_alice conversations_db in
  res.1 = Responds true
  ∧ FirestoreService.conversation_exists res.2 "c-alice" = false
  ∧ FirestoreService.conversation_exists res.2 "c-unowned" = true.
Proof.
  cbv zeta.
  pose proof (X13_owner_deletes_conversation "c-alice" free_alice conversations_db
                eq_refl) as H.
  cbv zeta in H. destruct H as (H1 & H2 & _).
  split; [exact H1|]. split; [exact H2|]. vm_compute. reflexivity.
Defined.

(** X14. When its owner sets the action status of a conversation the
    handler never fails: the status is stored, and the owner, the title,
    the message count and the messages of the conversation, like every
    other conversation, are as before. *)
Theorem X14_owner_sets_action_status (conversation_id action_status : string)
    (user : AuthenticatedUser) (db : FirestoreService.Db) :
  FirestoreService.get_conversation_owner db conversation_id = Some (uid user) ->
  let res := sessions.update_action_status conversation_id action_status user db in
  res.1 = Responds true
  ∧ metadata_field FirestoreService.actionStatus res.2 conversation_id
    = Some action_status
  ∧ FirestoreService.get_conversation_owner res.2 conversation_id = Some (uid user)
  ∧ metadata_field FirestoreService.title res.2 conversation_id
    = metadata_field FirestoreService.title db conversation_id
  ∧ metadata_field FirestoreService.messageCount res.2 conversation_id
    = metadata_field FirestoreService.messageCount db conversation_id
  ∧ FirestoreService.messages res.2 = FirestoreService.messages db
  ∧ (∀ other, other ≠ conversation_id ->
       FirestoreService.conversations res.2 !! other
       = FirestoreService.conversations db !! other).
Proof.
  intros Hown. cbv zeta. unfold sessions.update_action_status.
  rewrite Hown, String.eqb_refl. cbn [negb].
  destruct (owner_is_Some_conversation _ _ _ Hown) as [c Hc].
  unfold FirestoreService.update_action_status. rewrite Hc. cbn [fst snd].
  unfold FirestoreService.get_conversation_owner in *. unfold metadata_field.
  simpl. rewrite lookup_insert_eq, Hc in *.
  destruct c as [[md|]]; [|discriminate]. simpl in *.
  repeat split; auto.
  intros other Hne. now rewrite lookup_insert_ne by congruence.
Qed.

Lemma X14_owner_sets_action_status_witness :
  let res := sessions.update_action_status "c-alice" "done" free_alice
               conversations_db in
  res.1 = Responds true
  ∧ metadata_field FirestoreService.actionStatus res.2 "c-alice" = Some "done".
Proof.
  cbv zeta.
  pose proof (X14_owner_sets_action_status "c-alice" "done" free_alice
                conversations_db eq_refl) as H.
  cbv zeta in H. destruct H as (H1 & H2 & _). split; assumption.
Defined.

(** ** Profile *)

Lemma update_subscription_plan db uid p :
  plan_of (FirestoreService.update_subscription db uid p) uid = p.
Proof.
  unfold plan_of, FirestoreService.get_subscription,
    FirestoreService.update_subscription.
  now rewrite set_merge_lookup.
Qed.

Lemma update_subscription_trial db uid p :
  FirestoreService.is_voice_trial_used (FirestoreService.update_subscription db uid p) uid
  = FirestoreService.is_voice_trial_used db uid.
Proof.
  unfold FirestoreService.is_voice_trial_used, FirestoreService.update_subscription.
  rewrite set_merge_lookup.
  destruct (FirestoreService.subscription db !! uid); reflexivity.
Qed.

Lemma update_subscription_daily db uid p day :
  FirestoreService.get_daily_message_count
    (FirestoreService.update_subscription db uid p) uid day
  = FirestoreService.get_daily_message_count db uid day.
Proof.
  unfold FirestoreService.get_daily_message_count, FirestoreService.update_subscription.
  rewrite set_merge_lookup.
  destruct (FirestoreService.subscription db !! uid); reflexivity.
Qed.

(** X15. [sync_subscription] writes only when the secret key is set and
    the subscriber service answers 200 (otherwise it fails with 500 or 502
    and leaves the store as it was).  The plan it then stores and returns
    is [pro] exactly when the [pro] entitlement of the answer has an expiry
    date, and [free] otherwise.  The trial flag and the daily count of the
    user are kept, and no other user is touched. *)
Theorem X15_sync_subscription (secret_key : string)
    (resp : profile.SubscriberResponse) (user : AuthenticatedUser)
    (db : FirestoreService.Db) :
  let res := profile.sync_subscription secret_key resp user db in
  let expiry :=
    s ← profile.subscriber resp; e ← profile.entitlements s;
    p ← profile.pro e; profile.expires_date p in
  match res.1 with
  | Responds p =>
      secret_key ≠ "" ∧ profile.status_code resp = 200%nat
      ∧ p = (if expiry is Some _ then "pro" else "free")
      ∧ plan_of res.2 (uid user) = p
  | HTTPError status_code _ =>
      res.2 = db
      ∧ status_code = (if Py.truthy secret_key then 502 else 500)%nat
  | Unhandled _ => False
  end
  ∧ FirestoreService.is_voice_trial_used res.2 (uid user)
    = FirestoreService.is_voice_trial_used db (uid user)
  ∧ (∀ day, FirestoreService.get_daily_message_count res.2 (uid user) day
            = FirestoreService.get_daily_message_count db (uid user) day)
  ∧ (∀ other, other ≠ uid user ->
       FirestoreService.subscription res.2 !! other
       = FirestoreService.subscription db !! other).
Proof.
  cbv zeta. unfold profile.sync_subscription.
  destruct secret_key as [|c key]; cbn [Py.truthy negb].
  { cbn [fst snd]. auto. }
  destruct (profile.status_code resp =? 200)%nat eqn:Hstatus; cbn [negb fst snd];
    [|auto].
  apply Nat.eqb_eq in Hstatus.
  rewrite update_subscription_plan, update_subscription_trial.
  split; [|split; [reflexivity|split]].
  - split; [discriminate|]. split; [exact Hstatus|]. split; [|reflexivity].
    destruct (profile.subscriber resp) as [[[[[[[date|]]|]]|]]|]; reflexivity.
  - intros day. apply update_subscription_daily.
  - intros other Hne. unfold FirestoreService.update_subscription.
    now apply set_merge_lookup_ne.
Qed.

Lemma lstrip_first p s c :
  first_char (Py.lstrip_by p s) = Some c -> p c = false.
Proof.
  induction s as [|a s IH]; simpl; [discriminate|].
  destruct (p a) eqn:Hp; [exact IH|]. simpl. now intros [= <-].
Qed.

Lemma rstrip_last p s c :
  last_char (Py.rstrip_by p s) = Some c -> p c = false.
Proof.
  induction s as [|a s IH]; simpl; [discriminate|].
  destruct (Py.rstrip_by p s) as [|b r] eqn:Hr.
  - destruct (p a) eqn:Hp; simpl; [discriminate|]. now intros [= <-].
  - exact IH.
Qed.

Lemma rstrip_first p s c :
  first_char (Py.rstrip_by p s) = Some c -> first_char s = Some c.
Proof.
  destruct s as [|a s]; simpl; [discriminate|].
  destruct (Py.rstrip_by p s); [destruct (p a)|]; simpl; auto. discriminate.
Qed.

Lemma strip_trimmed s : trimmed (Py.strip s) = true.
Proof.
  unfold trimmed, Py.strip. apply andb_true_iff. split; apply negb_true_iff.
  - destruct (first_char _) as [c|] eqn:Hc; [|reflexivity]. simpl.
    apply rstrip_first in Hc. now apply lstrip_first in Hc.
  - destruct (last_char _) as [c|] eqn:Hc; [|reflexivity]. simpl.
    now apply rstrip_last in Hc.
Qed.

Lemma rstrip_truthy s :
  Py.truthy (Py.rstrip_by Py.isspace s) = Py.strip_truthy s.
Proof.
  induction s as [|a s IH]; simpl; [reflexivity|].
  destruct (Py.rstrip_by Py.isspace s) as [|b r].
  - simpl in IH. rewrite <- IH, orb_false_r. now destruct (Py.isspace a).
  - simpl in IH. rewrite <- IH, orb_true_r. reflexivity.
Qed.

Lemma lstrip_strip_truthy s :
  Py.strip_truthy (Py.lstrip_by Py.isspace s) = Py.strip_truthy s.
Proof.
  induction s as [|a s IH]; [reflexivity|].
  cbn [Py.lstrip_by Py.strip_truthy].
  destruct (Py.isspace a) eqn:Ha; cbn [negb orb]; [exact IH|].
  cbn [Py.strip_truthy]. now rewrite Ha.
Qed.

Lemma strip_truthy_strip s : Py.truthy (Py.strip s) = Py.strip_truthy s.
Proof. unfold Py.strip. now rewrite rstrip_truthy, lstrip_strip_truthy. Qed.

(** X16. [update_display_name] answers 400, whatever the user service
    would do, exactly when the name is missing, is of white space only or
    has more than 50 characters after the white space around it is
    stripped.  Otherwise the stripped name, which has between 1 and 50
    characters and neither starts nor ends with white space, is what it
    hands to the user service and what it returns; an exception of the
    user service leaves the handler as it is. *)
Theorem X16_update_display_name (update_user : string -> string -> Try unit)
    (name : option string) (user : AuthenticatedUser) :
  let stripped := Py.strip (default "" name) in
  (Py.strip_truthy (default "" name) = false ∨ 50 < String.length stripped ->
   profile.update_display_name update_user name user
   = HTTPError 400 "Name must be 1-50 characters")
  ∧ (Py.strip_truthy (default "" name) = true -> String.length stripped <= 50 ->
     1 <= String.length stripped
     ∧ trimmed stripped = true
     ∧ profile.update_display_name update_user name user
       = match update_user (uid user) stripped with
         | Returns _ => Responds stripped
         | Raises e => Unhandled e
         end).
Proof.
  cbv zeta. unfold profile.update_display_name.
  rewrite strip_truthy_strip. split.
  - intros [-> | Hlong]; [reflexivity|].
    apply Nat.ltb_lt in Hlong. rewrite Hlong. now rewrite orb_true_r.
  - intros Htruthy Hlen. rewrite Htruthy.
    apply Nat.ltb_ge in Hlen. rewrite Hlen. cbn [negb orb].
    split; [|split; [apply strip_trimmed | reflexivity]].
    rewrite <- strip_truthy_strip in Htruthy.
    destruct (Py.strip (default "" name)); [discriminate | simpl; lia].
Qed.

(** X17. The profile shows the numbers the gates compare: a user is let
    through the rate limiter exactly when the plan is [pro] or the profile
    shows fewer daily messages used than the daily limit; and when the
    minutes of the month have reached the monthly voice limit, the voice
    minutes the profile shows are not below the limit it shows. *)
Theorem X17_profile_agrees_with_gates (user : AuthenticatedUser)
    (today current_month : string) (db : FirestoreService.Db) :
  let shown := profile.get_profile user today current_month db in
  admitted (auth.check_rate_limit user today db)
  = String.eqb (plan user) "pro"
    || (profile.daily_messages_used shown <? profile.daily_messages_limit shown)%Z
  ∧ (Py.ge (monthly_total db (uid user) current_month)
           config.VOICE_MONTHLY_MINUTES_LIMIT = true ->
     (inject_Z (profile.voice_minutes_limit shown)
      <= profile.voice_minutes_used shown)%Q).
Proof.
  cbv zeta. split.
  - unfold auth.check_rate_limit, profile.get_profile. cbn [profile.daily_messages_used
      profile.daily_messages_limit].
    destruct (String.eqb (plan user) "pro"); [reflexivity|]. cbn [orb].
    destruct (10 <=? _)%Z eqn:H; simpl; symmetry;
      [apply Z.ltb_ge; now apply Z.leb_le | apply Z.ltb_lt; now apply Z.leb_gt].
  - unfold profile.get_profile. cbn [profile.voice_minutes_used
      profile.voice_minutes_limit].
    fold (monthly_total db (uid user) current_month).
    set (minutes := monthly_total db (uid user) current_month).
    unfold Py.ge, config.VOICE_MONTHLY_MINUTES_LIMIT. intros Hge.
    apply Qle_bool_iff in Hge. clearbody minutes.
    unfold Py.round.
    assert (Hfloor : (600 <= Qfloor (minutes * inject_Z 10))%Z).
    { change 600%Z with (Qfloor (inject_Z 600)). apply Qfloor_resp_le.
      apply Qle_trans with (60 * inject_Z 10)%Q; [discriminate|].
      apply Qmult_le_compat_r; [exact Hge | discriminate]. }
    assert (Hround : (600 <= Py.round_half_even (minutes * inject_Z 10))%Z).
    { unfold Py.round_half_even. cbv zeta.
      destruct (Qcompare _ _); [destruct (Z.even _)| |];
        first [exact Hfloor
              | apply Z.le_trans with (1 := Hfloor); apply Z.le_succ_diag_r]. }
    unfold Qle. simpl.
    change (10 ^ Pos.of_nat 1)%positive with 10%positive. lia.
Qed.

(** ** Titles *)

Lemma clean_title_length title : String.length (gemini_service.clean_title title) <= 50.
Proof. apply prefix_length. Qed.

(** X18. A generated title never has more than 50 characters, for a text
    chat and for a voice session alike, and the only exception that can
    leave the two functions is one that is not an [Exception].  When the
    call of the model raises an [Exception], both return the default title
    [New conversation]. *)
Theorem X18_titles_bounded
    (generate_content : string -> string -> Q -> nat -> Try string)
    (first_message : string) (transcripts : list (string * string)) :
  (match gemini_service.generate_conversation_title generate_content first_message with
   | Returns title => String.length title <= 50
   | Raises e => Exception e = false
   end
   ∧ match gemini_service.generate_voice_session_title generate_content transcripts with
     | Returns title => String.length title <= 50
     | Raises e => Exception e = false
     end)
  ∧ (∀ e,
       (∀ system_prompt user_prompt temperature max_tokens,
          generate_content system_prompt user_prompt temperature max_tokens = Raises e) ->
       Exception e = true ->
       gemini_service.generate_conversation_title generate_content first_message
       = Returns "New conversation"
       ∧ gemini_service.generate_voice_session_title generate_content transcripts
         = Returns "New conversation").
Proof.
  unfold gemini_service.generate_conversation_title,
    gemini_service.generate_voice_session_title.
  split; [split|].
  - destruct (generate_content _ _ _ _) as [title|e]; [apply clean_title_length|].
    destruct (Exception e) eqn:He; [vm_compute; lia | exact He].
  - cbv zeta. destruct (bool_decide _); [vm_compute; lia|].
    destruct (generate_content _ _ _ _) as [title|e]; [apply clean_title_length|].
    destruct (Exception e) eqn:He; [vm_compute; lia | exact He].
  - intros e Hfails He. cbv zeta. rewrite !Hfails, He.
    split; [reflexivity|]. now destruct (bool_decide _).
Qed.

Lemma transcript_lines_spec transcripts :
  ∀ total,
    gemini_service.transcript_lines transcripts total
      `prefix_of` map gemini_service.transcript_line transcripts
    ∧ (total <= 800 ->
       total + total_length (gemini_service.transcript_lines transcripts total) <= 800)
    ∧ (∀ line,
         gemini_service.transcript_lines transcripts total ++ [line]
           `prefix_of` map gemini_service.transcript_line transcripts ->
         800 < total + total_length (gemini_service.transcript_lines transcripts total)
               + String.length line).
Proof.
  induction transcripts as [|turn transcripts IH]; intros total;
    cbn [gemini_service.transcript_lines map].
  - split; [apply prefix_nil|]. split; [simpl; lia|].
    intros line [k Hk]. destruct k; discriminate.
  - cbv zeta.
    destruct (800 <? total + String.length (gemini_service.transcript_line turn))%nat
      eqn:Hover.
    + apply Nat.ltb_lt in Hover. split; [apply prefix_nil|]. split; [simpl; lia|].
      intros line [k Hk]. simpl in Hk. injection Hk as <- _. simpl. lia.
    + apply Nat.ltb_ge in Hover.
      destruct (IH (total + String.length (gemini_service.transcript_line turn)))
        as (Hprefix & Hsum & Hmax).
      split; [now apply prefix_cons|]. split; [simpl; lia|].
      intros line Hline. simpl in Hline. apply prefix_cons_inv_2 in Hline.
      specialize (Hmax line Hline). simpl. lia.
Qed.

(** X19. The transcript sent to the title service for a voice session is
    a prefix of the lines of the session, cut before the first line that
    would take it over 800 characters, so that it never has more than 800
    characters in its lines and no later line is sent even if it would
    fit.  When not even the first line fits, or the session has no turn,
    the default title is returned whatever the model would answer. *)
Theorem X19_voice_title_transcript_budget
    (generate_content : string -> string -> Q -> nat -> Try string)
    (transcripts : list (string * string)) :
  let lines := gemini_service.transcript_lines transcripts 0 in
  lines `prefix_of` map gemini_service.transcript_line transcripts
  ∧ total_length lines <= 800
  ∧ (∀ line, lines ++ [line]
               `prefix_of` map gemini_service.transcript_line transcripts ->
             800 < total_length lines + String.length line)
  ∧ (lines = [] ->
     gemini_service.generate_voice_session_title generate_content transcripts
     = Returns "New conversation").
Proof.
  cbv zeta. destruct (transcript_lines_spec transcripts 0) as (Hprefix & Hsum & Hmax).
  split; [exact Hprefix|]. split; [apply Hsum; lia|]. split; [exact Hmax|].
  intros Hnil. unfold gemini_service.generate_voice_session_title.
  now rewrite Hnil.
Qed.

(** ** The course of a voice connection *)

Lemma usage_records_app (t1 t2 : list Event) :
  usage_records (t1 ++ t2) = usage_records t1 ++ usage_records t2.
Proof. unfold usage_records, writes. now rewrite !omap_app. Qed.

Lemma frames_app (t1 t2 : list Event) : frames (t1 ++ t2) = frames t1 ++ frames t2.
Proof. unfold frames. apply omap_app. Qed.

Lemma upstream_audio_app (t1 t2 : list Event) :
  upstream_audio (t1 ++ t2) = upstream_audio t1 ++ upstream_audio t2.
Proof. unfold upstream_audio. apply omap_app. Qed.

Lemma closes_app (t1 t2 : list Event) : closes (t1 ++ t2) = closes t1 ++ closes t2.
Proof. unfold closes. apply List.filter_app. Qed.

Lemma quiet_silent (t : list Event) :
  Forall quiet t ->
  frames t = [] ∧ usage_records t = [] ∧ saved_messages t = []
  ∧ upstream_audio t = [] ∧ closes t = [].
Proof.
  induction 1 as [|e t He _ IH]; [repeat split|].
  destruct IH as (Hf & Hu & Hs & Ha & Hc).
  unfold frames, usage_records, saved_messages, upstream_audio, writes, closes in *.
  destruct e as [| | | | |[]| | |[]]; simpl in *; try contradiction; auto.
Qed.

(** Before the upstream connection is attempted the events are quiet and
    the upstream socket is not open. *)
Lemma not_connected_quiet (t : list Event) : not_connected t -> Forall quiet t.
Proof.
  induction 1 as [|e t He _ IH]; constructor; [|exact IH].
  destruct e; simpl in *; tauto.
Qed.

Lemma not_connected_closed (env : Env) (t : list Event) :
  not_connected t -> ¬ upstream_open env t.
Proof.
  intros Ht [_ Hin]. unfold not_connected in Ht. rewrite Forall_forall in Ht.
  exact (Ht _ Hin).
Qed.

Lemma not_connected_app (t1 t2 : list Event) :
  not_connected t1 -> Forall before_connect t2 -> not_connected (t1 ++ t2).
Proof. intros H1 H2. apply Forall_app. now split. Qed.

Lemma connected_app (env : Env) (t1 t2 : list Event) :
  connected env t1 -> Forall quiet t2 -> connected env (t1 ++ t2).
Proof.
  intros (Hquiet & Hconnect & Hin) H2. split; [apply Forall_app; now split|].
  split; [exact Hconnect|]. apply elem_of_app. now left.
Qed.

Section course.
Context (env : Env) (P : Db -> Prop).

Lemma course_bind {A} (Pre Post : list Event -> Prop) (R : A -> Prop)
    (V : Db -> list Event -> Prop) (m : M Db A) (k : A -> M Db unit) :
  setup_step env P Pre Post R m -> (∀ a, R a -> course env P Post V (k a)) ->
  course env P Pre V (bind m k).
Proof.
  intros Hm Hk db pre Hdb Hpre. unfold bind.
  specialize (Hm db pre Hdb Hpre).
  destruct (m db) as [[[a| |e] db1] t1]; cbn [fst snd] in *; [|exact Hm|exact I].
  destruct Hm as (Hdb1 & Ha & Hpost).
  specialize (Hk a Ha db1 (pre ++ t1) Hdb1 Hpost).
  destruct (k a db1) as [[[b| |e] db2] t2]; cbn [fst snd] in *;
    rewrite ?app_assoc; exact Hk.
Qed.

(** A refusal before the upstream connection is attempted closes the
    client socket only; one with the upstream socket open closes it
    too. *)
Lemma refusal_before_connect (t0 : list Event) (message : string) :
  not_connected t0 -> refusal env (t0 ++ [WsSendJson (error message); WsClose]).
Proof.
  intros Ht0. exists t0, message, []. split; [reflexivity|].
  split; [now apply not_connected_quiet|]. right.
  split; [now apply not_connected_closed | reflexivity].
Qed.

Lemma refusal_connected (t0 : list Event) (message : string) :
  connected env t0 ->
  refusal env (t0 ++ [WsSendJson (error message); WsClose; GeminiClose]).
Proof.
  intros [Hquiet Hopen]. exists t0, message, [GeminiClose]. split; [reflexivity|].
  split; [exact Hquiet|]. now left.
Qed.

Hypothesis P_subscription :
  ∀ db uid, P db -> P (FirestoreService.mark_voice_trial_used db uid).
Hypothesis P_conversation :
  ∀ db cid u coach coach_name ty now,
    P db -> P (FirestoreService.create_conversation db cid u coach coach_name ty now).

Lemma voice_access_check_step user :
  setup_step env P not_connected not_connected
    (fun session_max_minutes =>
       session_max_minutes = if String.eqb (plan user) "free"
                             then FREE_VOICE_TRIAL_MINUTES
                             else config.VOICE_SESSION_MAX_MINUTES)
    (voice_access_check env user).
Proof.
  intros db pre Hdb Hpre. unfold voice_access_check, firestore.is_voice_trial_used,
    firestore.mark_voice_trial_used, firestore.get_voice_usage.
  destruct (String.eqb (plan user) "free").
  - unfold bind, gets. cbn beta iota.
    destruct (FirestoreService.is_voice_trial_used db (uid user)); simpl.
    + split; [exact Hdb | now apply refusal_before_connect].
    + split; [now apply P_subscription|]. split; [reflexivity|].
      apply not_connected_app; [exact Hpre | repeat constructor].
  - unfold bind, gets. cbn beta iota.
    destruct (Py.ge _ _); simpl.
    + split; [exact Hdb | now apply refusal_before_connect].
    + split; [exact Hdb|]. split; [reflexivity|].
      apply not_connected_app; [exact Hpre | constructor].
Qed.

Lemma coach_prompt_step user :
  setup_step env P not_connected not_connected (fun _ => True)
    (coach_prompt env user).
Proof.
  intros db pre Hdb Hpre. unfold coach_prompt, firestore.get_coach.
  destruct (negb _); unfold bind, gets; cbn beta iota.
  - destruct (FirestoreService.get_coach db _); simpl;
      (split; [exact Hdb|]; split; [exact I|];
       apply not_connected_app; [exact Hpre | repeat constructor]).
  - simpl. split; [exact Hdb|]. split; [exact I|].
    apply not_connected_app; [exact Hpre | repeat constructor].
Qed.

Lemma ownership_check_step user cid coach_id coach_name :
  setup_step env P not_connected not_connected (fun _ => True)
    (ownership_check env user cid coach_id coach_name).
Proof.
  intros db pre Hdb Hpre. unfold ownership_check, firestore.conversation_exists,
    firestore.get_conversation_owner, firestore.create_conversation.
  unfold bind, gets. cbn beta iota.
  destruct (FirestoreService.conversation_exists db cid).
  - destruct (FirestoreService.get_conversation_owner db cid) as [owner|]; simpl.
    + destruct (String.eqb owner (uid user)); simpl.
      * split; [exact Hdb|]. split; [exact I|].
        apply not_connected_app; [exact Hpre | constructor].
      * split; [exact Hdb | now apply refusal_before_connect].
    + split; [exact Hdb|]. split; [exact I|].
      apply not_connected_app; [exact Hpre | constructor].
  - simpl. split; [now apply P_conversation|]. split; [exact I|].
    apply not_connected_app; [exact Hpre | repeat constructor].
Qed.

(** The step that opens the upstream socket: it goes on only with the
    socket open, and a refusal here leaves no upstream socket to close. *)
Lemma connect_gemini_step :
  setup_step env P not_connected (connected env) (fun _ => True)
    (connect_gemini env).
Proof.
  intros db pre Hdb Hpre. unfold connect_gemini, try_except, bind, emit.
  cbn beta iota.
  assert (Hlog : ∀ l, Forall before_connect l ->
            not_connected (pre ++ l)) by (intros l; now apply not_connected_app).
  destruct (connect env) as [e|e|] eqn:Hconnect; simpl.
  - destruct (Exception e); simpl; [|auto].
    split; [exact Hdb|].
    exists (pre ++ [GoogleAccessToken; Log ERROR "gemini_live_connect_error"]),
      ("Failed to connect to voice service: " +:+ type_name e), [].
    split; [now rewrite <- app_assoc|].
    split; [apply not_connected_quiet, Hlog; repeat constructor|].
    right. split; [|reflexivity]. apply not_connected_closed, Hlog.
    repeat constructor.
  - destruct (Exception e); simpl; [|auto].
    split; [exact Hdb|].
    exists (pre ++ [GoogleAccessToken; GeminiConnect;
                    Log ERROR "gemini_live_connect_error"]),
      ("Failed to connect to voice service: " +:+ type_name e), [].
    split; [now rewrite <- app_assoc|].
    split; [apply Forall_app; split;
            [now apply not_connected_quiet | repeat constructor]|].
    right. split; [|reflexivity]. intros [Hopen _]. congruence.
  - split; [exact Hdb|]. split; [exact I|].
    split; [apply Forall_app; split;
            [now apply not_connected_quiet | repeat constructor]|].
    split; [exact Hconnect|]. rewrite elem_of_app, !elem_of_cons. auto.
Qed.

(** The handshake runs with the upstream socket open: a refusal here
    closes it. *)
Lemma setup_handshake_step system_prompt voice_name :
  setup_step env P (connected env) (connected env) (fun _ => True)
    (setup_handshake env system_prompt voice_name).
Proof.
  intros db pre Hdb Hpre. unfold setup_handshake, wait_for_recv.
  assert (Hrefusal : refusal env
            (pre ++ [GeminiSend (setup system_prompt voice_name);
                     Log ERROR "gemini_setup_timeout";
                     WsSendJson (error "Voice service timed out during setup");
                     WsClose; GeminiClose])).
  { change (refusal env
              (pre ++ [GeminiSend (setup system_prompt voice_name);
                       Log ERROR "gemini_setup_timeout"]
                   ++ [WsSendJson (error "Voice service timed out during setup");
                       WsClose; GeminiClose])).
    rewrite app_assoc. apply refusal_connected.
    apply connected_app; [exact Hpre | repeat constructor]. }
  assert (Hon : ∀ l, Forall quiet l -> connected env (pre ++ l))
    by (intros l; now apply connected_app).
  destruct (first_reply env) as [[delay reply]|];
    [|simpl; split; [exact Hdb | exact Hrefusal]].
  unfold bind, try_except, emit. cbn beta iota.
  destruct (Qle_bool SETUP_TIMEOUT delay);
    [simpl; split; [exact Hdb | exact Hrefusal]|].
  destruct reply as [e|[keys|]]; simpl.
  - destruct e; simpl; first [split; [exact Hdb | exact Hrefusal]
                             | split; [exact Hdb | exact I]].
  - destruct (bool_decide _); simpl; (split; [exact Hdb|]; split; [exact I|]);
      apply Hon; repeat constructor.
  - split; [exact Hdb | exact I].
Qed.
End course.

Section relay_events.
Variables (user : AuthenticatedUser) (session_start session_max_minutes : Q).

Local Abbreviation relays m := (preserves (fun _ : Relay => True) relay_event m).

Lemma gemini_to_client_relays r :
  relays (gemini_to_client user session_start session_max_minutes r).
Proof.
  unfold gemini_to_client, gemini_to_client_body. preserve; try exact I.
Qed.

Lemma client_to_gemini_relays r : relays (client_to_gemini r).
Proof. unfold client_to_gemini, client_to_gemini_body. preserve; try exact I. Qed.

Lemma resume_relays ev :
  relays (resume user session_start session_max_minutes ev).
Proof.
  unfold resume. preserve; try exact I.
  - apply client_to_gemini_relays.
  - apply gemini_to_client_relays.
  - unfold keep_alive. preserve; exact I.
Qed.

Lemma gather_relays schedule :
  relays (gather user session_start session_max_minutes schedule).
Proof.
  induction schedule as [|ev schedule IH]; simpl; preserve;
    try solve [exact I | assumption].
  apply resume_relays.
Qed.
End relay_events.

Lemma relay_events_silent (t : list Event) :
  Forall relay_event t ->
  usage_records t = [] ∧ saved_messages t = [] ∧ closes t = [].
Proof.
  induction 1 as [|e t He _ IH]; [repeat split|].
  destruct IH as (Hu & Hs & Hc).
  unfold usage_records, saved_messages, writes, closes in *.
  destruct e; simpl in *; try contradiction; auto.
Qed.

Lemma save_events_silent (t : list Event) :
  Forall save_event t -> usage_records t = [] ∧ frames t = [] ∧ closes t = [].
Proof.
  induction 1 as [|e t He _ IH]; [repeat split|].
  destruct IH as (Hu & Hf & Hc).
  unfold usage_records, frames, writes, closes in *.
  destruct e as [| | | | | | | |[]]; simpl in *; try contradiction; auto.
Qed.

(** The relay always ends, however its tasks end, and hands on the state
    the tasks have left. *)
Lemma proxy_run env user session_max_minutes db :
  ∃ t,
    proxy env user session_max_minutes db
    = (Value (gather user (session_start env) session_max_minutes (schedule env)
                relay_start).1.2, db, t)
    ∧ Forall relay_event t.
Proof.
  unfold proxy, nested, bind.
  pose proof (gather_relays user (session_start env) session_max_minutes
                (schedule env) relay_start I) as [_ Hrelay].
  destruct (gather _ _ _ _ _) as [[[[]| |e] relay] t]; simpl in *.
  - exists (t ++ []). now rewrite app_nil_r.
  - exists (t ++ []). now rewrite app_nil_r.
  - exists (t ++ [Log INFO "voice_gather_ended"]). split; [reflexivity|].
    apply Forall_app. split; [exact Hrelay | repeat constructor].
Qed.

Section completes.
Context {S : Type} (P : S -> Prop) (Q : Event -> Prop).

Lemma completes_bind {A B} (m : M S A) (k : A -> M S B) :
  completes P Q m -> (∀ a, completes P Q (k a)) -> completes P Q (bind m k).
Proof.
  intros Hm Hk s Hs. destruct (Hm s Hs) as (a & s1 & t1 & Hrun & Hs1 & Ht1).
  destruct (Hk a s1 Hs1) as (b & s2 & t2 & Hrun2 & Hs2 & Ht2).
  exists b, s2, (t1 ++ t2). unfold bind. rewrite Hrun, Hrun2.
  split; [reflexivity|]. split; [exact Hs2|]. now apply Forall_app.
Qed.

Lemma completes_ret {A} (a : A) : completes P Q (ret a).
Proof. intros s Hs. exists a, s, []. auto. Qed.

Lemma completes_emit (e : Event) : Q e -> completes P Q (emit e).
Proof. intros He s Hs. exists tt, s, [e]. auto. Qed.

Lemma completes_for {A} (xs : list A) (body : A -> M S unit) :
  (∀ x, completes P Q (body x)) -> completes P Q (for_ xs body).
Proof.
  intros Hbody. induction xs as [|x xs IH]; simpl; [apply completes_ret|].
  apply completes_bind; auto.
Qed.
End completes.

Section save_usage.
Variables (env : Env) (user : AuthenticatedUser) (conversation_id : string).
Variable v : gmap string FirestoreService.VoiceUsage.
Variable duration_min : Q.

Local Abbreviation keeps_usage :=
  (completes (fun db : Db => FirestoreService.voice_usage db = v) save_event).

(** How the body of the saving ends from a store with the usage [v]:
    after events that leave the usage alone, either by the record of the
    usage or, when the title service was cancelled, by the exception. *)
Local Abbreviation saved cancelled r :=
  (∃ db1 t1,
     FirestoreService.voice_usage db1 = v
     ∧ Forall save_event t1
     ∧ if cancelled : bool
       then ∃ e, r = (Raised e, db1, t1)
       else r = (Value tt,
                 FirestoreService.update_voice_usage db1 (uid user) duration_min
                   conversation_id (month_at_end env) (now_at_end env),
                 t1 ++ [Firestore (update_voice_usage (uid user) duration_min
                                     conversation_id)])).

Lemma add_message_keeps_usage role text now :
  keeps_usage (firestore.add_message conversation_id role text now).
Proof.
  intros db Hdb. eexists tt, _, _. split; [reflexivity|].
  split; [now rewrite add_message_voice_usage | repeat constructor].
Qed.

Lemma saved_bind {A} (cancelled : bool) (m : M Db A) (k : A -> M Db unit) :
  keeps_usage m ->
  (∀ a db, FirestoreService.voice_usage db = v -> saved cancelled (k a db)) ->
  ∀ db, FirestoreService.voice_usage db = v -> saved cancelled (bind m k db).
Proof.
  intros Hm Hk db Hdb. destruct (Hm db Hdb) as (a & db1 & t1 & Hrun & Hdb1 & Ht1).
  destruct (Hk a db1 Hdb1) as (db2 & t2 & Hdb2 & Ht2 & Hres).
  exists db2, (t1 ++ t2). split; [exact Hdb2|]. split; [now apply Forall_app|].
  unfold bind. rewrite Hrun. destruct cancelled.
  - destruct Hres as [e ->]. now exists e.
  - rewrite Hres. now rewrite app_assoc.
Qed.

(** The title and the usage: the usage is recorded whatever becomes of
    the title, unless the title service is cancelled. *)
Lemma title_and_usage (turns : list (string * string)) db :
  FirestoreService.voice_usage db = v ->
  saved (title_cancelled env turns)
    ((when (negb (bool_decide (turns = [])))
        (try_except
           (match generate_voice_session_title env turns with
            | Returns title =>
                firestore.update_conversation_title conversation_id title ;;;
                logger INFO "voice_title_generated"
            | Raises e => raise e
            end)
           Exception
           (fun _ => logger ERROR "voice_title_error")) ;;;
      firestore.update_voice_usage (uid user) duration_min conversation_id
        (month_at_end env) (now_at_end env)) db).
Proof.
  intros Hdb. unfold title_cancelled.
  unfold when, try_except, firestore.update_conversation_title,
    firestore.update_voice_usage, bind.
  destruct (negb (bool_decide (turns = []))); cbn [andb];
    [|exists db, []; simpl; repeat split; auto].
  destruct (generate_voice_session_title env turns) as [title|e]; simpl.
  - destruct (FirestoreService.update_conversation_title db conversation_id title)
      as [db'|] eqn:Htitle; simpl.
    + exists db', [Firestore (update_conversation_title conversation_id title);
                   Log INFO "voice_title_generated"].
      split; [|split; [repeat constructor | reflexivity]].
      unfold FirestoreService.update_conversation_title in Htitle.
      destruct (FirestoreService.conversations db !! conversation_id);
        [|discriminate].
      now injection Htitle as <-.
    + exists db, [Firestore (update_conversation_title conversation_id title);
                  Log ERROR "voice_title_error"].
      split; [exact Hdb|]. split; [repeat constructor | reflexivity].
  - destruct (Exception e); simpl.
    + exists db, [Log ERROR "voice_title_error"].
      split; [exact Hdb|]. split; [repeat constructor | reflexivity].
    + exists db, []. split; [exact Hdb|]. split; [constructor|]. now exists e.
Qed.

(** Saving always goes on.  It ends by recording the usage, whatever the
    transcript and whatever becomes of the title; unless the title
    service is cancelled: then it ends by the log line of the error, and
    the usage is as it was. *)
Lemma save_transcripts_run fragments db :
  FirestoreService.voice_usage db = v ->
  ∃ db1 t1,
    FirestoreService.voice_usage db1 = v
    ∧ Forall save_event t1
    ∧ save_transcripts env user conversation_id duration_min fragments db
      = if title_cancelled env (consolidate fragments)
        then (Value tt, db1, t1 ++ [Log ERROR "voice_save_error"])
        else (Value tt,
              FirestoreService.update_voice_usage db1 (uid user) duration_min
                conversation_id (month_at_end env) (now_at_end env),
              t1 ++ [Firestore (update_voice_usage (uid user) duration_min
                                  conversation_id)]).
Proof.
  intros Hdb.
  assert (Hbody : saved (title_cancelled env (consolidate fragments))
    ((logger INFO "voice_session_end" ;;;
      logger INFO "voice_transcripts_consolidated" ;;;
      for_ (consolidate fragments) (fun '(role, text) =>
        when (Py.strip_truthy text)
          (firestore.add_message conversation_id role text (now_at_end env))) ;;;
      logger INFO "voice_transcripts_saved" ;;;
      when (negb (bool_decide (consolidate fragments = [])))
        (try_except
           (match generate_voice_session_title env (consolidate fragments) with
            | Returns title =>
                firestore.update_conversation_title conversation_id title ;;;
                logger INFO "voice_title_generated"
            | Raises e => raise e
            end)
           Exception
           (fun _ => logger ERROR "voice_title_error")) ;;;
      firestore.update_voice_usage (uid user) duration_min conversation_id
        (month_at_end env) (now_at_end env)) db)).
  { revert db Hdb.
    apply saved_bind; [now apply completes_emit|intros _].
    apply saved_bind; [now apply completes_emit|intros _].
    apply saved_bind; [|intros _].
    { apply completes_for. intros [role text].
      destruct (Py.strip_truthy text); [apply add_message_keeps_usage|].
      apply completes_ret. }
    apply saved_bind; [now apply completes_emit|intros _].
    apply title_and_usage. }
  destruct Hbody as (db1 & t1 & Hdb1 & Ht1 & Hres).
  exists db1, t1. split; [exact Hdb1|]. split; [exact Ht1|].
  unfold save_transcripts. cbv zeta. unfold try_except at 1.
  destruct (title_cancelled env (consolidate fragments)).
  - destruct Hres as [e ->]. reflexivity.
  - now rewrite Hres.
Qed.
End save_usage.

Lemma update_voice_usage_ext db1 db0 uid d sid m now :
  FirestoreService.voice_usage db1 = FirestoreService.voice_usage db0 ->
  FirestoreService.voice_usage (FirestoreService.update_voice_usage db1 uid d sid m now)
  = FirestoreService.voice_usage (FirestoreService.update_voice_usage db0 uid d sid m now).
Proof.
  intros H. unfold FirestoreService.update_voice_usage. rewrite H.
  destruct (FirestoreService.voice_usage db0 !! uid) as [data|]; [|reflexivity].
  destruct (decide _); reflexivity.
Qed.

Lemma last_app_cons {A} (l1 l2 : list A) (x : A) :
  last (l1 ++ l2 ++ [x]) = Some x.
Proof. rewrite app_assoc. apply last_snoc. Qed.

(** What the handler does before a user is known: it accepts the socket
    and verifies the token, against the store as it is. *)
Lemma authenticate_run (env : Env) (db : Db) :
  authenticate env db
  = match caller env with
    | Some u => (Value (session_user db u), db, [])
    | None => (Returned, db, [WsSendJson (error "Authentication failed"); WsClose])
    end.
Proof.
  unfold authenticate, try_except, auth.verify_ws_token, caller.
  destruct (token env) as [t|]; [|reflexivity].
  destruct (Py.truthy t); [|reflexivity].
  unfold auth._verify_token. destruct (verify_id_token env t) as [u|]; reflexivity.
Qed.

Section session_course.
Variables (env : Env) (conversation_id : string) (db0 : Db).

Local Abbreviation unchanged :=
  (fun db : Db =>
     FirestoreService.voice_usage db = FirestoreService.voice_usage db0
     ∧ FirestoreService.messages db = FirestoreService.messages db0).

(** From the relay on the handler runs to its end. *)
Lemma relay_and_save_course u :
  caller env = Some u ->
  let user := session_user db0 u in
  let session_max_minutes :=
    if String.eqb (plan user) "free"
    then FREE_VOICE_TRIAL_MINUTES
    else config.VOICE_SESSION_MAX_MINUTES in
  course env unchanged (connected env) (session_completed env conversation_id db0)
    (relay <- proxy env user session_max_minutes ;;
     let duration_min := ((session_end env - session_start env) / 60)%Q in
     save_transcripts env user conversation_id duration_min
       (transcript_turns relay) ;;;
     send_json (session_ended (Py.round duration_min 1)) ;;;
     emit GeminiClose).
Proof.
  intros Hcaller user session_max_minutes db pre [Hdb _] [Hpre _].
  destruct (proxy_run env user session_max_minutes db) as (t & Hproxy & Ht).
  rewrite (bind_value _ _ _ _ _ _ Hproxy). cbv zeta.
  destruct (save_transcripts_run env user conversation_id
              (FirestoreService.voice_usage db0)
              ((session_end env - session_start env) / 60)%Q
              (transcript_turns
                 (gather user (session_start env) session_max_minutes
                    (schedule env) relay_start).1.2) db Hdb)
    as (db1 & t1 & Hdb1 & Ht1 & Hsave).
  destruct (quiet_silent pre Hpre) as (Hfp & Hup & _ & _ & Hcp).
  destruct (relay_events_silent t Ht) as (Hu & _ & Hc).
  destruct (save_events_silent t1 Ht1) as (Hu1 & Hf1 & Hc1).
  assert (Hcancelled :
    title_cancelled env (session_transcript env db0 u)
    = title_cancelled env
        (consolidate
           (transcript_turns
              (gather user (session_start env) session_max_minutes
                 (schedule env) relay_start).1.2))) by reflexivity.
  assert (Hframe : ∀ l : list Frame,
    last (frames t ++ l ++ [session_ended (Py.round (session_minutes env) 1)])
    = Some (session_ended (Py.round (session_minutes env) 1)))
    by (intros l; apply last_app_cons).
  destruct (title_cancelled env (consolidate _));
    rewrite (bind_value _ _ _ _ _ _ Hsave);
    unfold bind, send_json, emit; cbn [fst snd];
    exists u; (split; [exact Hcaller|]); rewrite Hcancelled;
    rewrite !usage_records_app, !frames_app, !closes_app, Hup, Hfp, Hcp, Hu, Hu1,
      Hf1, Hc, Hc1.
  - split; [split; [reflexivity|]; split; [exact Hdb1|]|].
    { rewrite !elem_of_app, !elem_of_cons. auto 10. }
    split; [exact (Hframe [])|]. split; [|reflexivity].
    rewrite !app_assoc. apply last_snoc.
  - split; [split; [reflexivity | now apply update_voice_usage_ext]|].
    split; [exact (Hframe [])|]. split; [|reflexivity].
    rewrite !app_assoc. apply last_snoc.
Qed.

(** Once the caller is known the handler either turns the connection
    away or runs the session to its end. *)
Lemma admitted_course u :
  caller env = Some u ->
  let user := session_user db0 u in
  course env unchanged not_connected (session_completed env conversation_id db0)
    (session_max_minutes <- voice_access_check env user ;;
     coach <- coach_prompt env user ;;
     let '(coach_id, coach_name, system_prompt, voice_name) := coach in
     ownership_check env user conversation_id coach_id coach_name ;;;
     connect_gemini env ;;;
     setup_handshake env system_prompt voice_name ;;;
     relay <- proxy env user session_max_minutes ;;
     let duration_min := ((session_end env - session_start env) / 60)%Q in
     save_transcripts env user conversation_id duration_min
       (transcript_turns relay) ;;;
     send_json (session_ended (Py.round duration_min 1)) ;;;
     emit GeminiClose).
Proof.
  intros Hcaller user.
  assert (Hsub : ∀ db uid, unchanged db ->
            unchanged (FirestoreService.mark_voice_trial_used db uid)) by auto.
  assert (Hconv : ∀ db cid u coach coach_name ty now, unchanged db ->
            unchanged (FirestoreService.create_conversation db cid u coach
                         coach_name ty now)) by auto.
  eapply course_bind; [now apply voice_access_check_step|].
  intros session_max_minutes ->.
  eapply course_bind; [apply coach_prompt_step|].
  intros [[[coach_id coach_name] system_prompt] voice_name] _.
  eapply course_bind; [now apply ownership_check_step | intros _ _].
  eapply course_bind; [apply connect_gemini_step | intros _ _].
  eapply course_bind; [apply setup_handshake_step | intros _ _].
  now apply relay_and_save_course.
Qed.

(** The course of a connection handled from the store [db0]. *)
Lemma voice_session_course :
  match (voice_session env conversation_id db0).1.1 with
  | Value _ =>
      session_completed env conversation_id db0
        (voice_session env conversation_id db0).1.2
        (voice_session env conversation_id db0).2
  | Returned =>
      unchanged (voice_session env conversation_id db0).1.2
      ∧ refusal env (voice_session env conversation_id db0).2
  | Raised _ => True
  end.
Proof.
  assert (Haccept : not_connected [WsAccept]) by (repeat constructor).
  unfold voice_session.
  rewrite (bind_value _ _ db0 tt db0 [WsAccept] eq_refl).
  destruct (caller env) as [u|] eqn:Hcaller.
  - rewrite (bind_value _ _ db0 (session_user db0 u) db0 []);
      [|now rewrite authenticate_run, Hcaller].
    pose proof (admitted_course u Hcaller db0 [WsAccept] (conj eq_refl eq_refl)
                  Haccept) as Hcourse.
    cbv zeta in Hcourse.
    destruct (bind (voice_access_check env (session_user db0 u)) _ db0)
      as [[[[]| |e] db1] t1]; cbn [fst snd app] in *; exact Hcourse.
  - rewrite (bind_returned _ _ db0 db0
               [WsSendJson (error "Authentication failed"); WsClose]);
      [|now rewrite authenticate_run, Hcaller].
    cbn [fst snd]. split; [auto|].
    exact (refusal_before_connect env [WsAccept] _ Haccept).
Qed.
End session_course.

(** X20. A connection that the handler turns away (a failed
    authentication, a used trial, the monthly limit, a conversation of
    someone else, an upstream service that cannot be reached or that does
    not answer the setup in time) gets exactly one frame, an [error], and
    right after it the client socket is closed.  The upstream socket is
    closed next exactly when it is open, that is when the connection to the
    upstream service has been attempted and has succeeded; otherwise
    nothing follows.  No message and no usage are stored, and no audio has
    been sent upstream. *)
Theorem X20_refused_connection (env : Env) (conversation_id : string) (db : Db) :
  (run env conversation_id db).1.1 = Returned ->
  let t := (run env conversation_id db).2 in
  let db' := (run env conversation_id db).1.2 in
  ∃ message t0 t1,
    t = t0 ++ WsSendJson (error message) :: WsClose :: t1
    ∧ ((upstream_open env t0 ∧ t1 = [GeminiClose])
       ∨ (¬ upstream_open env t0 ∧ t1 = []))
    ∧ closes t = WsClose :: t1
    ∧ frames t = [error message]
    ∧ saved_messages t = []
    ∧ usage_records t = []
    ∧ upstream_audio t = []
    ∧ FirestoreService.messages db' = FirestoreService.messages db
    ∧ FirestoreService.voice_usage db' = FirestoreService.voice_usage db.
Proof.
  intros Hreturned. cbv zeta. unfold run in *.
  pose proof (voice_session_course env conversation_id db) as Hcourse.
  rewrite Hreturned in Hcourse.
  destruct Hcourse as ([Husage Hmessages] & t0 & message & t1 & Ht & Hquiet & Ht1).
  exists message, t0, t1. rewrite Ht.
  destruct (quiet_silent t0 Hquiet) as (Hf & Hu & Hs & Ha & Hc).
  rewrite frames_app, saved_messages_app, usage_records_app, upstream_audio_app,
    closes_app, Hf, Hu, Hs, Ha, Hc.
  split; [reflexivity|]. split; [exact Ht1|].
  repeat split; auto; destruct Ht1 as [[_ ->] | [_ ->]]; reflexivity.
Qed.

(** X21. A connection whose handler runs to its end has its usage
    recorded exactly once, for the authenticated user, the conversation and
    the minutes between the start and the end of the relay, whatever was
    said and whatever became of the stored transcript, and the usage
    collection is changed by that record only; with one exception: when
    the transcript is not empty and the title service raises an exception
    that is not an [Exception] (a cancellation), the saving is given up
    with the log line [voice_save_error], no usage is recorded and the
    usage collection is left as it was.  Either way the last frame the
    client gets is [session_ended] with the minutes rounded to one digit,
    and the handler ends by closing the upstream socket, its only close. *)
Theorem X21_completed_session (env : Env) (conversation_id : string) (db : Db) :
  (run env conversation_id db).1.1 = Value tt ->
  session_completed env conversation_id db
    (run env conversation_id db).1.2 (run env conversation_id db).2.
Proof.
  intros Hvalue. unfold run in *.
  pose proof (voice_session_course env conversation_id db) as Hcourse.
  now rewrite Hvalue in Hcourse.
Qed.

Lemma X20_refused_connection_witness :
  (let env := connection "tok" "alice" None [] in
   let t := (run env "c1" FirestoreService.empty).2 in
   let db' := (run env "c1" FirestoreService.empty).1.2 in
   closes t = [WsClose; GeminiClose]
   ∧ ∃ message t0 t1,
       t = t0 ++ WsSendJson (error message) :: WsClose :: t1
       ∧ ((upstream_open env t0 ∧ t1 = [GeminiClose])
          ∨ (¬ upstream_open env t0 ∧ t1 = []))
       ∧ closes t = WsClose :: t1
       ∧ frames t = [error message]
       ∧ saved_messages t = []
       ∧ usage_records t = []
       ∧ upstream_audio t = []
       ∧ FirestoreService.messages db' = FirestoreService.messages FirestoreService.empty
       ∧ FirestoreService.voice_usage db'
         = FirestoreService.voice_usage FirestoreService.empty)
  ∧ (let env := unreachable "tok" "alice" in
     let t := (run env "c1" FirestoreService.empty).2 in
     let db' := (run env "c1" FirestoreService.empty).1.2 in
     closes t = [WsClose]
     ∧ ∃ message t0 t1,
         t = t0 ++ WsSendJson (error message) :: WsClose :: t1
         ∧ ((upstream_open env t0 ∧ t1 = [GeminiClose])
            ∨ (¬ upstream_open env t0 ∧ t1 = []))
         ∧ closes t = WsClose :: t1
         ∧ frames t = [error message]
         ∧ saved_messages t = []
         ∧ usage_records t = []
         ∧ upstream_audio t = []
         ∧ FirestoreService.messages db'
           = FirestoreService.messages FirestoreService.empty
         ∧ FirestoreService.voice_usage db'
           = FirestoreService.voice_usage FirestoreService.empty).
Proof.
  split; cbv zeta.
  - split; [vm_compute; reflexivity|].
    apply (X20_refused_connection (connection "tok" "alice" None []) "c1"
             FirestoreService.empty).
    vm_compute. reflexivity.
  - split; [vm_compute; reflexivity|].
    apply (X20_refused_connection (unreachable "tok" "alice") "c1"
             FirestoreService.empty).
    vm_compute. reflexivity.
Defined.

Lemma X21_completed_session_witness :
  (let env := connection "tok" "alice" (Some (1%Q, ReplyText (Some ["setupComplete"])))
                short_session in
   title_cancelled env (session_transcript env FirestoreService.empty "alice") = false
   ∧ session_completed env "c1" FirestoreService.empty
       (run env "c1" FirestoreService.empty).1.2 (run env "c1" FirestoreService.empty).2)
  ∧ (let env := cancelled_title "tok" "alice"
                  (Some (1%Q, ReplyText (Some ["setupComplete"]))) short_session in
     title_cancelled env (session_transcript env FirestoreService.empty "alice") = true
     ∧ session_completed env "c1" FirestoreService.empty
         (run env "c1" FirestoreService.empty).1.2
         (run env "c1" FirestoreService.empty).2).
Proof.
  split; cbv zeta.
  - split; [vm_compute; reflexivity|].
    apply (X21_completed_session
             (connection "tok" "alice"
                (Some (1%Q, ReplyText (Some ["setupComplete"]))) short_session)
             "c1" FirestoreService.empty).
    vm_compute. reflexivity.
  - split; [vm_compute; reflexivity|].
    apply (X21_completed_session
             (cancelled_title "tok" "alice"
                (Some (1%Q, ReplyText (Some ["setupComplete"]))) short_session)
             "c1" FirestoreService.empty).
    vm_compute. reflexivity.
Defined.

(** ** What the relay passes on *)

Section relay_order.
Variables (user : AuthenticatedUser) (session_start session_max_minutes : Q).

Local Abbreviation resume' := (resume user session_start session_max_minutes).
Local Abbreviation gather' := (gather user session_start session_max_minutes).

(** One resumption of the client task sends the payload of an audio
    message upstream as it is, or sends nothing; it lets an audio message
    pass only by stopping for good. *)
Lemma client_to_gemini_audio c r :
  let res := client_to_gemini c r in
  (upstream_audio res.2 = []
   ∧ (is_Some (client_payload (Client c)) ->
      client_to_gemini_done res.1.2 = true))
  ∨ (∃ payload, client_payload (Client c) = Some payload
                ∧ upstream_audio res.2 = [payload]).
Proof.
  cbv zeta.
  unfold client_to_gemini, client_to_gemini_body, try_except2, try_except, bind,
    gets, json_loads, ret, raise, modify, when, logger, emit.
  cbn beta iota.
  assert (Hnone : ∀ P : Prop, is_Some (@None string) -> P).
  { intros P [? ?]. discriminate. }
  destruct c as [[d|]| |e]; cbn beta iota.
  - destruct (session_active r); cbn [negb]; cbn beta iota.
    2:{ simpl. left. auto. }
    destruct d as [[ty|] payload]; cbn [voice.type voice.data client_payload];
      cbn beta iota.
    2:{ simpl. left. split; [reflexivity | apply Hnone]. }
    destruct (String.eqb ty "audio").
    + destruct payload as [payload|]; cbn beta iota.
      * destruct (_ <=? 3)%nat; simpl; right; eauto.
      * simpl. left. split; [reflexivity | apply Hnone].
    + destruct (String.eqb ty "end_session"); simpl; left;
        (split; [reflexivity | apply Hnone]).
  - destruct (session_active r); simpl; left; (split; [reflexivity | apply Hnone]).
  - simpl. left. split; [reflexivity | apply Hnone].
  - destruct e; simpl; left; (split; [reflexivity | apply Hnone]).
Qed.

Lemma no_upstream_audio_silent (t : list Event) :
  Forall no_upstream_audio t -> upstream_audio t = [].
Proof.
  induction 1 as [|e t He _ IH]; [reflexivity|].
  unfold upstream_audio in *. destruct e as [| | | | |[]| | |]; simpl in *;
    try contradiction; exact IH.
Qed.

Local Ltac flags := try solve [exact I | reflexivity | simpl; assumption].

Lemma gemini_to_client_keeps_client (b : bool) g :
  preserves (fun r => client_to_gemini_done r = b) no_upstream_audio
    (gemini_to_client user session_start session_max_minutes g).
Proof. unfold gemini_to_client, gemini_to_client_body. preserve; flags. Qed.

Lemma keep_alive_keeps_client (b : bool) :
  preserves (fun r => client_to_gemini_done r = b) no_upstream_audio keep_alive.
Proof. unfold keep_alive. preserve; flags. Qed.

(** One resumption of any task: a client task that has stopped stays
    stopped and sends nothing; otherwise the payload of an audio message
    of the client, and nothing else, is sent upstream, or the task stops
    for good. *)
Lemma resume_audio ev r :
  let res := resume' ev r in
  (client_to_gemini_done r = true ->
   upstream_audio res.2 = [] ∧ client_to_gemini_done res.1.2 = true)
  ∧ ((upstream_audio res.2 = []
      ∧ (is_Some (client_payload ev) -> client_to_gemini_done res.1.2 = true))
     ∨ (∃ payload, client_payload ev = Some payload
                   ∧ upstream_audio res.2 = [payload])).
Proof.
  cbv zeta.
  assert (Hnone : ∀ P : Prop, is_Some (@None string) -> P).
  { intros P [? ?]. discriminate. }
  destruct ev as [c|g|]; unfold resume, bind, gets; cbn beta iota.
  - destruct (client_to_gemini_done r) eqn:Hdone.
    + simpl. split; [auto|]. left. auto.
    + split; [discriminate|].
      pose proof (client_to_gemini_audio c r) as H. cbv zeta in H.
      destruct (client_to_gemini c r) as [[o r1] t1]. cbn [fst snd] in *.
      rewrite app_nil_l. exact H.
  - assert (H : ∀ b, client_to_gemini_done r = b ->
              upstream_audio
                (let (p, t0) :=
                   (if gemini_to_client_done r then ret tt
                    else gemini_to_client user session_start session_max_minutes g)
                     r in
                 let (o, s2) := p in (o, s2, [] ++ t0)).2 = []
              ∧ client_to_gemini_done
                  (let (p, t0) :=
                     (if gemini_to_client_done r then ret tt
                      else gemini_to_client user session_start session_max_minutes g)
                       r in
                   let (o, s2) := p in (o, s2, [] ++ t0)).1.2 = b).
    { intros b Hb. destruct (gemini_to_client_done r); [simpl; auto|].
      destruct (gemini_to_client_keeps_client b g r Hb) as [Hflag Hquiet].
      destruct (gemini_to_client _ _ _ g r) as [[o r1] t1]. cbn [fst snd] in *.
      split; [now apply no_upstream_audio_silent | exact Hflag]. }
    split; [intros Hd; now apply H|].
    left. split; [apply (H _ eq_refl) | apply Hnone].
  - assert (H : ∀ b, client_to_gemini_done r = b ->
              upstream_audio
                (let (p, t0) := (if keep_alive_done r then ret tt else keep_alive) r in
                 let (o, s2) := p in (o, s2, [] ++ t0)).2 = []
              ∧ client_to_gemini_done
                  (let (p, t0) :=
                     (if keep_alive_done r then ret tt else keep_alive) r in
                   let (o, s2) := p in (o, s2, [] ++ t0)).1.2 = b).
    { intros b Hb. destruct (keep_alive_done r); [simpl; auto|].
      destruct (keep_alive_keeps_client b r Hb) as [Hflag Hquiet].
      destruct (keep_alive r) as [[o r1] t1]. cbn [fst snd] in *.
      split; [now apply no_upstream_audio_silent | exact Hflag]. }
    split; [intros Hd; now apply H|].
    left. split; [apply (H _ eq_refl) | apply Hnone].
Qed.

Lemma client_audio_cons ev schedule :
  client_audio (ev :: schedule)
  = match client_payload ev with
    | Some payload => payload :: client_audio schedule
    | None => client_audio schedule
    end.
Proof. reflexivity. Qed.

Lemma gather_audio schedule : ∀ r,
  (client_to_gemini_done r = true -> upstream_audio (gather' schedule r).2 = [])
  ∧ upstream_audio (gather' schedule r).2 `prefix_of` client_audio schedule.
Proof.
  induction schedule as [|ev schedule IH]; intros r.
  - cbn [gather]. unfold bind, gets. cbn beta iota.
    destruct (_ && _); simpl; split; auto; apply prefix_nil.
  - rewrite gather_cons.
    destruct (_ && _); [simpl; split; [auto | apply prefix_nil]|].
    pose proof (resume_audio ev r) as [Hdone Hstep]. cbv zeta in Hdone, Hstep.
    destruct (resume' ev r) as [[o r1] t1]. cbn [fst snd] in *.
    assert (Hhere : upstream_audio t1 `prefix_of` client_audio (ev :: schedule)).
    { destruct Hstep as [[-> _] | (payload & Hp & ->)]; [apply prefix_nil|].
      rewrite client_audio_cons, Hp. apply prefix_cons, prefix_nil. }
    destruct o as [[]| |e]; cbn [snd];
      try (split; [intros Hd; now apply Hdone | exact Hhere]).
    destruct (IH r1) as [IHdone IHprefix].
    destruct (gather' schedule r1) as [[o2 r2] t2]. cbn [fst snd] in *.
    rewrite upstream_audio_app. split.
    + intros Hd. destruct (Hdone Hd) as [-> Hd1]. now rewrite IHdone.
    + rewrite client_audio_cons.
      destruct Hstep as [[-> Hstop] | (payload & Hp & ->)].
      * destruct (client_payload ev) as [payload|] eqn:Hp; [|exact IHprefix].
        rewrite IHdone by (apply Hstop; eauto). apply prefix_nil.
      * rewrite Hp. now apply prefix_cons.
Qed.
End relay_order.

(** X22. The audio the relay sends upstream is what the client sent, as
    it was sent: the payloads passed on are a prefix of the payloads of the
    audio messages of the client, in their order, none changed, repeated or
    left out before the last one passed on. *)
Theorem X22_client_audio_in_order (user : AuthenticatedUser)
    (session_start session_max_minutes : Q) (schedule : list RelayEvent) (r : Relay) :
  upstream_audio (gather user session_start session_max_minutes schedule r).2
    `prefix_of` client_audio schedule.
Proof. apply gather_audio. Qed.

Section transcript_order.
Variables (user : AuthenticatedUser) (session_start session_max_minutes : Q).

Local Abbreviation resume' := (resume user session_start session_max_minutes).
Local Abbreviation gather' := (gather user session_start session_max_minutes).

(** A part of a pass that leaves the transcript as it is and goes on or
    raises an [Exception]. *)
Local Abbreviation keeps m :=
  (∀ r : Relay,
     transcript_turns (m r).1.2 = transcript_turns r
     ∧ match (m r).1.1 with
       | Value _ => True
       | Returned => False
       | Raised e => Exception e = true
       end).

(** A part of a pass that goes on after appending the fragments [l]. *)
Local Abbreviation appends l m :=
  (∀ r : Relay,
     transcript_turns (m r).1.2 = transcript_turns r ++ l
     ∧ ∃ a, (m r).1.1 = Value a).

(** A pass that appends the fragments [l] and goes on or breaks, or
    leaves the transcript as it is and breaks or raises an
    [Exception]. *)
Local Abbreviation all_or_nothing l m :=
  (∀ r : Relay,
     (transcript_turns (m r).1.2 = transcript_turns r ++ l
      ∧ ∃ ctl : Loop, (m r).1.1 = Value ctl)
     ∨ (transcript_turns (m r).1.2 = transcript_turns r
        ∧ ((m r).1.1 = Value Break
           ∨ ∃ e, (m r).1.1 = Raised e ∧ Exception e = true))).

Lemma keeps_bind {A} l (m : M Relay A) (k : A -> M Relay Loop) :
  keeps m -> (∀ a, all_or_nothing l (k a)) -> all_or_nothing l (bind m k).
Proof.
  intros Hm Hk r. unfold bind. destruct (Hm r) as [Hturns Hout].
  destruct (m r) as [[[a| |e] r1] t1]; cbn [fst snd] in *.
  - specialize (Hk a r1). destruct (k a r1) as [[o r2] t2]. cbn [fst snd] in *.
    now rewrite Hturns in Hk.
  - contradiction.
  - right. split; [exact Hturns|]. right. eauto.
Qed.

Lemma appends_bind {A B} l1 l2 (m : M Relay A) (k : A -> M Relay B) :
  appends l1 m -> (∀ a, appends l2 (k a)) -> appends (l1 ++ l2) (bind m k).
Proof.
  intros Hm Hk r. unfold bind. destruct (Hm r) as [Hturns [a Ha]].
  destruct (m r) as [[o r1] t1]. cbn [fst snd] in *. subst o.
  destruct (Hk a r1) as [Hturns2 [b Hb]].
  destruct (k a r1) as [[o r2] t2]. cbn [fst snd] in *. subst o.
  split; [|eauto]. now rewrite Hturns2, Hturns, app_assoc.
Qed.

Lemma appends_nothing_emit (e : Event) : appends [] (emit e).
Proof. intros r. simpl. rewrite app_nil_r. eauto. Qed.

Lemma appends_nothing_ret {A} (a : A) : appends [] (ret a).
Proof. intros r. simpl. rewrite app_nil_r. eauto. Qed.

Lemma appends_transcription role (t : option (option string)) :
  appends (transcription_fragment role t)
    (match t with
     | Some t0 =>
         let text := default "" t0 in
         when (Py.truthy text)
           (modify (append_transcript (role, text)) ;;;
            send_json (transcript role text))
     | None => ret tt
     end).
Proof.
  intros r. destruct t as [t0|]; [|apply appends_nothing_ret].
  cbv zeta. unfold transcription_fragment.
  destruct (Py.truthy (default "" t0)); [|apply appends_nothing_ret].
  simpl. eauto.
Qed.

Lemma keeps_then {A B} (m : M Relay A) (k : A -> M Relay B) :
  keeps m -> (∀ a, keeps (k a)) -> keeps (bind m k).
Proof.
  intros Hm Hk r. unfold bind. destruct (Hm r) as [Hturns Hout].
  destruct (m r) as [[[a| |e] r1] t1]; cbn [fst snd] in *; auto.
  destruct (Hk a r1) as [Hturns2 Hout2].
  destruct (k a r1) as [[o r2] t2]. cbn [fst snd] in *.
  split; [congruence | exact Hout2].
Qed.

Lemma keeps_audio (parts : list Part) :
  keeps (for_ parts (fun part =>
           match inlineData part with
           | Some inline =>
               modify incr_sent ;;;
               n <- gets audio_chunks_sent ;;
               match inline with
               | None => raise KeyError
               | Some audio_data =>
                   when (n <=? 5)%nat (logger INFO "forwarding_audio_chunk") ;;;
                   send_json (audio audio_data)
               end
           | None => ret tt
           end)).
Proof.
  induction parts as [|part parts IH]; cbn [for_]; [intros r; simpl; auto|].
  apply keeps_then; [|intros _; exact IH].
  intros r. destruct part as [[[audio_data|]|]]; cbn [inlineData].
  - unfold bind, modify, gets, when, logger, send_json, emit, ret. cbn beta iota.
    destruct (_ <=? 5)%nat; simpl; auto.
  - simpl. auto.
  - simpl. auto.
Qed.

Lemma all_or_nothing_ret {A} l (a : A) (k : A -> M Relay Loop) :
  all_or_nothing l (k a) -> all_or_nothing l (bind (ret a) k).
Proof.
  intros Hk r. unfold bind, ret. specialize (Hk r).
  destruct (k a r) as [[o r2] t2]. exact Hk.
Qed.

Lemma appends_all l (m : M Relay Loop) : appends l m -> all_or_nothing l m.
Proof. intros Hm r. left. apply Hm. Qed.

(** One pass of the upstream pump appends all the fragments of its
    message, in the order user, assistant, or none of them; when it
    appends none it breaks the loop or raises. *)
Lemma gemini_to_client_body_fragments msg now :
  all_or_nothing (message_fragments (Gemini (Item (msg, now))))
    (gemini_to_client_body user session_start session_max_minutes msg now).
Proof.
  unfold gemini_to_client_body.
  apply keeps_bind; [intros r; simpl; auto|]. intros active.
  destruct active; cbn [negb].
  2:{ intros r. right. simpl. auto. }
  destruct msg as [d|].
  2:{ intros r. right. simpl. split; [reflexivity|]. right. eauto. }
  unfold json_loads. apply all_or_nothing_ret.
  apply keeps_bind; [intros r; destruct (negb _); simpl; auto|]. intros _.
  cbv zeta. fold (server_content_of d).
  apply keeps_bind; [|intros _].
  { destruct (modelTurn (server_content_of d)); [apply keeps_audio|].
    intros r. simpl. auto. }
  unfold message_fragments.
  assert (Hl : ∀ a b : list (string * string), a ++ b = a ++ b ++ [] ++ [])
    by (intros; now rewrite !app_nil_r).
  rewrite Hl.
  apply appends_all.
  apply appends_bind; [apply appends_transcription|intros _].
  apply appends_bind; [apply appends_transcription|intros _].
  apply appends_bind; [|intros _].
  { destruct (turnComplete _); [|apply appends_nothing_ret].
    intros r. simpl. rewrite app_nil_r. eauto. }
  intros r. destruct (Py.ge _ _); [simpl; rewrite app_nil_r; eauto|].
  destruct (_ && _); [simpl; rewrite app_nil_r; eauto|].
  destruct (_ && _); simpl; rewrite app_nil_r; eauto.
Qed.

Local Ltac flags := try solve [exact I | reflexivity | simpl; assumption].

Lemma client_to_gemini_keeps_transcript l (b : bool) c :
  preserves (fun r => transcript_turns r = l ∧ gemini_to_client_done r = b)
    (fun _ => True) (client_to_gemini c).
Proof. unfold client_to_gemini, client_to_gemini_body. preserve; flags. Qed.

Lemma keep_alive_keeps_transcript l (b : bool) :
  preserves (fun r => transcript_turns r = l ∧ gemini_to_client_done r = b)
    (fun _ => True) keep_alive.
Proof. unfold keep_alive. preserve; flags. Qed.

(** One resumption of the upstream pump appends the fragments of its
    message, or appends nothing; it lets fragments pass only by stopping
    for good. *)
Lemma gemini_to_client_fragments g r :
  let res := gemini_to_client user session_start session_max_minutes g r in
  transcript_turns res.1.2 = transcript_turns r ++ message_fragments (Gemini g)
  ∨ (transcript_turns res.1.2 = transcript_turns r
     ∧ (message_fragments (Gemini g) ≠ [] -> gemini_to_client_done res.1.2 = true)).
Proof.
  cbv zeta. unfold gemini_to_client, try_except2, try_except.
  destruct g as [[msg now]| |e].
  - unfold bind.
    destruct (gemini_to_client_body_fragments msg now r)
      as [[Hturns [ctl Hctl]] | [Hturns [Hbreak | (e & He & Hexc)]]];
      destruct (gemini_to_client_body _ _ _ msg now r) as [[o r1] t1];
      cbn [fst snd] in *; subst o.
    + left. destruct ctl; simpl; exact Hturns.
    + right. simpl. auto.
    + right. rewrite Hexc, orb_true_r.
      destruct (is_ConnectionClosed e); simpl; auto.
  - right. simpl. split; [reflexivity | congruence].
  - right. destruct e; simpl; (split; [reflexivity | congruence]).
Qed.

Lemma resume_fragments ev r :
  let res := resume' ev r in
  (gemini_to_client_done r = true ->
   transcript_turns res.1.2 = transcript_turns r
   ∧ gemini_to_client_done res.1.2 = true)
  ∧ (transcript_turns res.1.2 = transcript_turns r ++ message_fragments ev
     ∨ (transcript_turns res.1.2 = transcript_turns r
        ∧ (message_fragments ev ≠ [] -> gemini_to_client_done res.1.2 = true))).
Proof.
  cbv zeta. destruct ev as [c|g|]; unfold resume, bind, gets; cbn beta iota.
  - assert (H : ∀ b, gemini_to_client_done r = b ->
              transcript_turns
                (let (p, t0) :=
                   (if client_to_gemini_done r then ret tt else client_to_gemini c) r in
                 let (o, s2) := p in (o, s2, [] ++ t0)).1.2 = transcript_turns r
              ∧ gemini_to_client_done
                  (let (p, t0) :=
                     (if client_to_gemini_done r then ret tt else client_to_gemini c)
                       r in
                   let (o, s2) := p in (o, s2, [] ++ t0)).1.2 = b).
    { intros b Hb. destruct (client_to_gemini_done r); [simpl; auto|].
      destruct (client_to_gemini_keeps_transcript (transcript_turns r) b c r
                  (conj eq_refl Hb)) as [Hkept _].
      destruct (client_to_gemini c r) as [[o r1] t1]. exact Hkept. }
    split; [intros Hd; now apply H|].
    right. split; [apply (H _ eq_refl) | simpl; congruence].
  - destruct (gemini_to_client_done r) eqn:Hdone.
    + simpl. split; [auto|]. right. auto.
    + split; [discriminate|].
      pose proof (gemini_to_client_fragments g r) as H. cbv zeta in H.
      destruct (gemini_to_client _ _ _ g r) as [[o r1] t1]. exact H.
  - assert (H : ∀ b, gemini_to_client_done r = b ->
              transcript_turns
                (let (p, t0) := (if keep_alive_done r then ret tt else keep_alive) r in
                 let (o, s2) := p in (o, s2, [] ++ t0)).1.2 = transcript_turns r
              ∧ gemini_to_client_done
                  (let (p, t0) :=
                     (if keep_alive_done r then ret tt else keep_alive) r in
                   let (o, s2) := p in (o, s2, [] ++ t0)).1.2 = b).
    { intros b Hb. destruct (keep_alive_done r); [simpl; auto|].
      destruct (keep_alive_keeps_transcript (transcript_turns r) b r
                  (conj eq_refl Hb)) as [Hkept _].
      destruct (keep_alive r) as [[o r1] t1]. exact Hkept. }
    split; [intros Hd; now apply H|].
    right. split; [apply (H _ eq_refl) | simpl; congruence].
Qed.

Lemma gather_fragments schedule : ∀ r,
  (gemini_to_client_done r = true ->
   transcript_turns (gather' schedule r).1.2 = transcript_turns r)
  ∧ ∃ k, transcript_turns (gather' schedule r).1.2 = transcript_turns r ++ k
         ∧ k `prefix_of` upstream_fragments schedule.
Proof.
  induction schedule as [|ev schedule IH]; intros r.
  - cbn [gather]. unfold bind, gets. cbn beta iota.
    destruct (_ && _); simpl; (split; [auto|]); exists [];
      (split; [now rewrite app_nil_r | apply prefix_nil]).
  - rewrite gather_cons.
    destruct (_ && _).
    { simpl. split; [auto|]. exists []. split; [now rewrite app_nil_r|].
      apply prefix_nil. }
    pose proof (resume_fragments ev r) as [Hdone Hstep]. cbv zeta in Hdone, Hstep.
    destruct (resume' ev r) as [[o r1] t1]. cbn [fst snd] in *.
    assert (Hhere : ∃ k, transcript_turns r1 = transcript_turns r ++ k
                         ∧ k `prefix_of` upstream_fragments (ev :: schedule)).
    { destruct Hstep as [Happ | [Hsame _]].
      - exists (message_fragments ev). split; [exact Happ|].
        unfold upstream_fragments. cbn [map concat]. now apply prefix_app_r.
      - exists []. split; [now rewrite app_nil_r | apply prefix_nil]. }
    destruct o as [[]| |e]; cbn [fst snd];
      try (split; [intros Hd; now apply Hdone | exact Hhere]).
    destruct (IH r1) as [IHdone (k & Hk & Hprefix)].
    destruct (gather' schedule r1) as [[o2 r2] t2]. cbn [fst snd] in *.
    split.
    + intros Hd. destruct (Hdone Hd) as [Hturns Hd1]. rewrite IHdone by exact Hd1.
      exact Hturns.
    + unfold upstream_fragments. cbn [map concat].
      fold (upstream_fragments schedule).
      destruct Hstep as [Happ | [Hsame Hstop]].
      * exists (message_fragments ev ++ k). rewrite Hk, Happ, app_assoc.
        split; [reflexivity|]. now apply prefix_app.
      * destruct (message_fragments ev) as [|fragment rest] eqn:Hmsg.
        -- exists k. rewrite Hk, Hsame. auto.
        -- exists []. rewrite IHdone by (apply Hstop; discriminate).
           rewrite Hsame, app_nil_r. split; [reflexivity | apply prefix_nil].
Qed.
End transcript_order.

(** X23. The transcript the relay collects is what the upstream service
    transcribed, as it came: the fragments appended are a prefix of the
    fragments of the upstream messages, in their order, for each message
    the one of the user before the one of the assistant, none changed,
    repeated, or left out before the last one collected. *)
Theorem X23_transcript_in_order (user : AuthenticatedUser)
    (session_start session_max_minutes : Q) (schedule : list RelayEvent) (r : Relay) :
  ∃ collected,
    transcript_turns (gather user session_start session_max_minutes schedule r).1.2
    = transcript_turns r ++ collected
    ∧ collected `prefix_of` upstream_fragments schedule.
Proof. apply gather_fragments. Qed.

(** ** Authentication *)

(** X24. Verifying the token of a connection only reads the store: it
    writes nothing and emits nothing.  A missing or empty token, or one
    that does not verify, raises the HTTP exception; a verified one gives
    the user with the About Me text and the plan on record ([free] when
    there is none).  So the text set by [update_about_me] and the plan set
    by [update_subscription] are what the next connection of the user is
    authenticated with. *)
Theorem X24_authentication_reads_profile (verify_id_token : string -> option string)
    (token : option string) (db : FirestoreService.Db) :
  let res := auth.verify_ws_token verify_id_token token db in
  res.1.2 = db
  ∧ res.2 = []
  ∧ match token ≫= (fun t => if Py.truthy t then verify_id_token t else None) with
    | Some u =>
        res.1.1 = Value (mkAuthenticatedUser u (FirestoreService.get_about_me db u)
                           (plan_of db u))
    | None => res.1.1 = Raised HTTPException
    end
  ∧ (∀ t u free_text p,
       token = Some t -> Py.truthy t = true -> verify_id_token t = Some u ->
       (auth.verify_ws_token verify_id_token token
          (FirestoreService.update_subscription
             (FirestoreService.update_about_me db u free_text) u p)).1.1
       = Value (mkAuthenticatedUser u free_text p)).
Proof.
  cbv zeta. unfold auth.verify_ws_token, auth._verify_token.
  split; [|split; [|split]].
  - destruct token as [t|]; [|reflexivity].
    destruct (Py.truthy t); [|reflexivity].
    destruct (verify_id_token t); reflexivity.
  - destruct token as [t|]; [|reflexivity].
    destruct (Py.truthy t); [|reflexivity].
    destruct (verify_id_token t); reflexivity.
  - destruct token as [t|]; [|reflexivity]. cbn [mbind option_bind].
    destruct (Py.truthy t); [|reflexivity].
    destruct (verify_id_token t); reflexivity.
  - intros t u free_text p -> Htruthy Hverify. rewrite Htruthy, Hverify.
    unfold bind, firestore.get_about_me, firestore.get_subscription, gets, ret.
    cbn beta iota. cbn [fst snd]. f_equal. f_equal.
    + unfold FirestoreService.get_about_me, FirestoreService.update_subscription,
        FirestoreService.set_merge_subscription, FirestoreService.update_about_me.
      simpl. now rewrite lookup_insert_eq.
    + apply update_subscription_plan.
Qed.
